(** * artoolkitX camera calibration utility: calibration session and capture flow

    A shallow embedding of [Calibration.cpp] / [Calibration.hpp] (the
    calibration session: corner-finder data, result publication, capture
    bookkeeping), of [flow.cpp] (the event mailbox and the flow thread), of
    [fileUploader.c] (the upload status and the reading of index files) and
    of the parts of [calib_camera.cpp] that feed them (preferences, the
    files [saveParam] writes), followed by the properties proved about
    them.

    Conventions.
    - C++ [int] and [size_t] values are integers of [Z]; the implicit
      conversions the source relies on are written out ([int_to_size_t],
      [size_t_to_int]).
    - A [std::vector] is a list, newest element last; [size()] is [vector_size].
    - A method that mutates the object returns the new object next to its
      result.
    - A pointer to a byte buffer is an [option]: [None] for the null
      pointer, otherwise the bytes of the object pointed to.  A call whose
      behaviour C leaves undefined (a [memcpy] outside an object) has the
      outcome [Fault].
    - The vision library (OpenCV) and the solver ([calc]) are collaborators:
      they are the fields of the class [Vision].
    - A C string is the list of its characters before the terminating NUL;
      a [char *] that may be NULL is an [option]. *)

From Stdlib Require Import ZArith List Bool Lia.
From Stdlib Require Import Floats.SpecFloat.
From Stdlib Require Import Strings.Byte.
From Stdlib Require Strings.Ascii Strings.String Numbers.DecimalString.
Import ListNotations.
Open Scope Z_scope.

Set Implicit Arguments.

(* ================================================================== *)
(** * Part I: definitions                                              *)
(* ================================================================== *)

(** ** Integer conversions of the C++ source *)

Definition INT_MIN : Z := - 2 ^ 31.
Definition INT_MAX : Z := 2 ^ 31 - 1.

(** [int] converted to [size_t] (usual arithmetic conversions in
    [m_corners.size() >= m_calibImageCountMax]): reduction modulo 2^64, for
    a 64-bit [size_t]. *)
Definition int_to_size_t (i : Z) : Z := i mod 2 ^ 64.

(** [(int)m_corners.size()]: the low 32 bits read as two's complement. *)
Definition size_t_to_int (n : Z) : Z := (n + 2 ^ 31) mod 2 ^ 32 - 2 ^ 31.

Definition in_int_range (i : Z) : Prop := INT_MIN <= i <= INT_MAX.

(** [std::vector::size()], a [size_t]. *)
Definition vector_size {A : Type} (v : list A) : Z := Z.of_nat (length v).

(** A function either returns, or terminates the process ([exit]), or its
    behaviour is undefined ([Fault]): it reads or writes memory outside an
    object or overflows an [int]; in practice the process crashes or goes
    on with a corrupted heap. *)
Inductive outcome (A : Type) : Type :=
| Returned (a : A)
| ProcessExit (code : Z)
| Fault.
Arguments ProcessExit {A} code.
Arguments Fault {A}.

Definition bind {A B : Type} (o : outcome A) (k : A -> outcome B)
    : outcome B :=
  match o with
  | Returned a => k a
  | ProcessExit code => ProcessExit code
  | Fault => Fault
  end.

(** The bytes a pointer gives access to: those of its object, none for the
    null pointer. *)
Definition bytes_at (p : option (list byte)) : list byte :=
  match p with
  | Some l => l
  | None => []
  end.

(** [memcpy(dst, src, n)], [n] a [size_t]: the first [n] bytes at [dst] are
    replaced by the first [n] bytes at [src].  Nothing checks [n]: the call
    is defined only when [n] bytes lie inside the object at [dst] and
    inside the object at [src]; with a null pointer, for [n = 0] alone. *)
Definition memcpy (dst src : option (list byte)) (n : Z)
    : outcome (option (list byte)) :=
  if (0 <=? n) && (n <=? Z.of_nat (length (bytes_at dst)))
     && (n <=? Z.of_nat (length (bytes_at src)))
  then Returned
         (match dst with
          | Some d =>
              Some (firstn (Z.to_nat n) (bytes_at src) ++ skipn (Z.to_nat n) d)
          | None => None
          end)
  else Fault.

(** ** Data model of Calibration.hpp *)

(** [cv::Point2f]: two single-precision coordinates. *)
Record Point2f : Type := mkPoint2f { pt_x : spec_float; pt_y : spec_float }.

(** [cv::Size]. *)
Record Size : Type := mkSize { width : Z; height : Z }.

Inductive CalibrationPatternType : Type :=
| CHESSBOARD
| CIRCLES_GRID
| ASYMMETRIC_CIRCLES_GRID.

(** [Calibration::CalibrationCornerFinderData].  [videoFrame] is [None] for
    the null pointer; [calibImage] is an image header over the very same
    pixels, so it is not a separate field: [calibImage_of] rebuilds it. *)
Record CalibrationCornerFinderData : Type := mkCornerFinderData {
  patternType : CalibrationPatternType;
  patternSize : Size;
  videoWidth : Z;
  videoHeight : Z;
  videoFrame : option (list byte);
  cornerFoundAllFlag : Z;
  corners : list Point2f
}.

(** What [cv::cvarrToMat(d.calibImage)] hands to the vision library. *)
Record Image : Type := mkImage {
  img_width : Z;
  img_height : Z;
  img_pixels : option (list byte)
}.

Definition calibImage_of (d : CalibrationCornerFinderData) : Image :=
  mkImage (videoWidth d) (videoHeight d) (videoFrame d).

(** The outcome of [Calibration::calib]: the four out-parameters. *)
Record CalibrationOutcome (ARParam : Type) : Type := mkOutcome {
  out_param : ARParam;
  out_err_min : spec_float;
  out_err_avg : spec_float;
  out_err_max : spec_float
}.

(** The collaborators of the session.  [uninit] stands for the
    indeterminate contents of memory obtained from [arMalloc]. *)
Class Vision : Type := {
  ARParam : Type;
  findChessboardCorners : Image -> Size -> bool * list Point2f;
  cornerSubPix : Image -> list Point2f -> list Point2f;
  calc : Z -> CalibrationPatternType -> Size -> Z -> list (list Point2f) ->
         Z -> Z -> CalibrationOutcome ARParam;
  uninit : nat -> byte
}.

(** [Calibration]: the members of the class, in declaration order.  The
    worker thread handle and the result mutex carry no data of their own;
    the mutex discipline is the subject of the module [ResultLock] below. *)
Record Calibration : Type := mkCalibration {
  m_cornerFinderData : CalibrationCornerFinderData;
  m_cornerFinderResultData : CalibrationCornerFinderData;
  m_corners : list (list Point2f);
  m_calibImageCountMax : Z;
  m_patternType : CalibrationPatternType;
  m_patternSize : Size;
  m_chessboardSquareWidth : Z;
  m_videoWidth : Z;
  m_videoHeight : Z
}.

(** Field updates (C++ assignments to one member). *)
Definition set_flag_corners (d : CalibrationCornerFinderData)
    (flag : Z) (cs : list Point2f) : CalibrationCornerFinderData :=
  mkCornerFinderData (patternType d) (patternSize d) (videoWidth d)
    (videoHeight d) (videoFrame d) flag cs.

Definition set_corners (d : CalibrationCornerFinderData) (cs : list Point2f)
    : CalibrationCornerFinderData :=
  set_flag_corners d (cornerFoundAllFlag d) cs.

Definition set_videoFrame (d : CalibrationCornerFinderData)
    (f : option (list byte)) : CalibrationCornerFinderData :=
  mkCornerFinderData (patternType d) (patternSize d) (videoWidth d)
    (videoHeight d) f (cornerFoundAllFlag d) (corners d).

Definition with_cornerFinderData (c : Calibration)
    (d : CalibrationCornerFinderData) : Calibration :=
  mkCalibration d (m_cornerFinderResultData c) (m_corners c)
    (m_calibImageCountMax c) (m_patternType c) (m_patternSize c)
    (m_chessboardSquareWidth c) (m_videoWidth c) (m_videoHeight c).

Definition with_cornerFinderResultData (c : Calibration)
    (r : CalibrationCornerFinderData) : Calibration :=
  mkCalibration (m_cornerFinderData c) r (m_corners c)
    (m_calibImageCountMax c) (m_patternType c) (m_patternSize c)
    (m_chessboardSquareWidth c) (m_videoWidth c) (m_videoHeight c).

Definition with_corners (c : Calibration) (cs : list (list Point2f))
    : Calibration :=
  mkCalibration (m_cornerFinderData c) (m_cornerFinderResultData c) cs
    (m_calibImageCountMax c) (m_patternType c) (m_patternSize c)
    (m_chessboardSquareWidth c) (m_videoWidth c) (m_videoHeight c).

(** The video source as [frame] sees it: what
    [checkoutFrameIfNewerThan({0,0})] returns ([None] for a null buffer,
    otherwise the luma plane) and the reported dimensions. *)
Record ARVideoSource : Type := mkVideoSource {
  vs_checkout : option (list byte);
  vs_width : Z;
  vs_height : Z
}.

(** Calls [frame] makes on the worker thread handle and the video source. *)
Inductive WorkerCall : Type :=
| ThreadEndWait
| ThreadStartSignal
| CheckinFrame.

Section Session.
Context {V : Vision}.

(** *** CalibrationCornerFinderData *)

(** [init()]: a fresh buffer of [videoWidth * videoHeight] bytes when both
    dimensions are positive, the null pointer otherwise. *)
Definition CornerFinderData_init (w h : Z) : option (list byte) :=
  if (0 <? w) && (0 <? h)
  then Some (map uninit (seq 0 (Z.to_nat (w * h))))
  else None.

(** [copy(orig)]:
    [memcpy(videoFrame, orig.videoFrame, sizeof(uint8_t) * videoWidth * videoHeight)],
    whatever the two pointers are.  The byte count is computed in [size_t]:
    each dimension is converted, and the product wraps. *)
Definition CornerFinderData_copy (w h : Z) (dst src : option (list byte))
    : outcome (option (list byte)) :=
  memcpy dst src ((int_to_size_t w * int_to_size_t h) mod 2 ^ 64).

(** The four-argument constructor. *)
Definition CornerFinderData_new (patternType_in : CalibrationPatternType)
    (patternSize_in : Size) (videoWidth_in videoHeight_in : Z)
    : CalibrationCornerFinderData :=
  mkCornerFinderData patternType_in patternSize_in videoWidth_in
    videoHeight_in (CornerFinderData_init videoWidth_in videoHeight_in) 0 [].

(** Copy assignment [this = orig] for distinct objects: every member is
    taken from [orig]; the frame is released, allocated anew and copied. *)
Definition CornerFinderData_assign
    (this orig : CalibrationCornerFinderData)
    : outcome CalibrationCornerFinderData :=
  bind (CornerFinderData_copy (videoWidth orig) (videoHeight orig)
          (CornerFinderData_init (videoWidth orig) (videoHeight orig))
          (videoFrame orig))
    (fun f =>
       Returned
         (mkCornerFinderData (patternType orig) (patternSize orig)
            (videoWidth orig) (videoHeight orig) f
            (cornerFoundAllFlag orig) (corners orig))).

(** *** Calibration *)

(** The constructor [Calibration::Calibration].  It stores its arguments,
    builds the two corner-finder records and spawns the worker; it has no
    failure path of its own. *)
Definition Calibration_new (patternType : CalibrationPatternType)
    (calibImageCountMax : Z) (patternSize : Size)
    (chessboardSquareWidth videoWidth videoHeight : Z) : Calibration :=
  mkCalibration
    (CornerFinderData_new patternType patternSize videoWidth videoHeight)
    (CornerFinderData_new patternType patternSize 0 0)
    []
    calibImageCountMax patternType patternSize chessboardSquareWidth
    videoWidth videoHeight.

Definition calibImageCount (c : Calibration) : Z :=
  size_t_to_int (vector_size (m_corners c)).

Definition calibImageCountMax (c : Calibration) : Z :=
  m_calibImageCountMax c.

(** The publishing step of [frame]: under the result lock,
    [m_cornerFinderResultData = m_cornerFinderData]. *)
Definition publish (c : Calibration) : outcome Calibration :=
  bind (CornerFinderData_assign (m_cornerFinderResultData c)
          (m_cornerFinderData c))
    (fun r => Returned (with_cornerFinderResultData c r)).

(** The submitting step of [frame]:
    [memcpy(m_cornerFinderData.videoFrame, buff->buffLuma, n)], where [n]
    is the product of the source's dimensions, an [int] converted to
    [size_t] for the call. *)
Definition submit (c : Calibration) (buffLuma : list byte) (n : Z)
    : outcome Calibration :=
  if (INT_MIN <=? n) && (n <=? INT_MAX) then
    bind (memcpy (videoFrame (m_cornerFinderData c)) (Some buffLuma)
            (int_to_size_t n))
      (fun f =>
         Returned
           (with_cornerFinderData c (set_videoFrame (m_cornerFinderData c) f)))
  else Fault.

(** [Calibration::frame(vs)].  [status] and [busy] are what
    [threadGetStatus] and [threadGetBusyStatus] answer during this call. *)
Definition frame (c : Calibration) (status busy : Z) (vs : ARVideoSource)
    : outcome (bool * Calibration * list WorkerCall) :=
  bind (if negb (status =? 0)
        then bind (publish c) (fun c1 => Returned (c1, [ThreadEndWait]))
        else Returned (c, []))
    (fun '(c1, calls1) =>
       bind (if busy =? 0 then
               match vs_checkout vs with
               | Some buffLuma =>
                   bind (submit c1 buffLuma (vs_width vs * vs_height vs))
                     (fun c2 =>
                        Returned (c2, [CheckinFrame; ThreadStartSignal]))
               | None => Returned (c1, [])
               end
             else Returned (c1, []))
         (fun '(c2, calls2) => Returned (true, c2, calls1 ++ calls2))).

(** The session after a call of [frame] that returns (the session as it
    was, where the call does not return). *)
Definition frame_session (c : Calibration) (status busy : Z)
    (vs : ARVideoSource) : Calibration :=
  match frame c status busy vs with
  | Returned (_, c', _) => c'
  | _ => c
  end.

(** [cornerFinderResultsLockAndFetch]: the three out-parameters (the object
    is not modified; the lock stays held). *)
Definition cornerFinderResultsLockAndFetch (c : Calibration)
    : bool * (Z * list Point2f * option (list byte)) :=
  (true,
   (cornerFoundAllFlag (m_cornerFinderResultData c),
    corners (m_cornerFinderResultData c),
    videoFrame (m_cornerFinderResultData c))).

(** One iteration of the worker loop in [Calibration::cornerFinder], after
    [threadStartWait] returned 0 and up to [threadEndSignal]. *)
Definition cornerFinder_job (d : CalibrationCornerFinderData)
    : outcome CalibrationCornerFinderData :=
  match patternType d with
  | CHESSBOARD =>
      let '(found, cs) := findChessboardCorners (calibImage_of d) (patternSize d) in
      Returned (set_flag_corners d (if found then 1 else 0) cs)
  | _ => ProcessExit 0
  end.

(** [Calibration::capture()]. *)
Definition capture (c : Calibration) : bool * Calibration :=
  if vector_size (m_corners c) >=? int_to_size_t (m_calibImageCountMax c)
  then (false, c)
  else
    let r := m_cornerFinderResultData c in
    if negb (cornerFoundAllFlag r =? 0) then
      let refined := cornerSubPix (calibImage_of r) (corners r) in
      (true,
       with_corners (with_cornerFinderResultData c (set_corners r refined))
         (m_corners c ++ [refined]))
    else (false, c).

(** [Calibration::uncapture()]. *)
Definition uncapture (c : Calibration) : bool * Calibration :=
  if vector_size (m_corners c) <=? 0 then (false, c)
  else (true, with_corners c (removelast (m_corners c))).

(** [Calibration::uncaptureAll()]. *)
Definition uncaptureAll (c : Calibration) : bool * Calibration :=
  if vector_size (m_corners c) <=? 0 then (false, c)
  else (true, with_corners c []).

(** [Calibration::calib]: the four out-parameters as one value.  The
    constant [AR_DIST_FUNCTION_VERSION_DEFAULT] it passes on is part of
    [calc]. *)
Definition calib (c : Calibration) : CalibrationOutcome ARParam :=
  calc (size_t_to_int (vector_size (m_corners c))) (m_patternType c)
    (m_patternSize c) (m_chessboardSquareWidth c) (m_corners c)
    (m_videoWidth c) (m_videoHeight c).

(** The representation invariant of a session: the maximum is an [int],
    the number of captured sets is one the [int] accessor can report, and
    it respects a non-negative maximum. *)
Definition session_ok (c : Calibration) : Prop :=
  in_int_range (m_calibImageCountMax c) /\
  vector_size (m_corners c) <= INT_MAX /\
  (0 <= m_calibImageCountMax c ->
   vector_size (m_corners c) <= m_calibImageCountMax c).

(** *** Sequences of operations on one session *)

Inductive Op : Type :=
| OpFrame (status busy : Z) (vs : ARVideoSource)
| OpCornerFinder
| OpCapture
| OpUncapture
| OpUncaptureAll.

Definition step (op : Op) (c : Calibration) : outcome Calibration :=
  match op with
  | OpFrame status busy vs =>
      bind (frame c status busy vs) (fun r => Returned (snd (fst r)))
  | OpCornerFinder =>
      bind (cornerFinder_job (m_cornerFinderData c))
        (fun d => Returned (with_cornerFinderData c d))
  | OpCapture => Returned (snd (capture c))
  | OpUncapture => Returned (snd (uncapture c))
  | OpUncaptureAll => Returned (snd (uncaptureAll c))
  end.

Fixpoint run (ops : list Op) (c : Calibration) : outcome Calibration :=
  match ops with
  | [] => Returned c
  | op :: rest => bind (step op c) (run rest)
  end.

(** Whether a sequence of operations contains no publication: every
    [frame] in it sees [threadGetStatus] answer 0. *)
Fixpoint no_publish (ops : list Op) : bool :=
  match ops with
  | [] => true
  | OpFrame status _ _ :: rest => (status =? 0) && no_publish rest
  | _ :: rest => no_publish rest
  end.

End Session.

(** ** The capture flow of flow.cpp *)

(** Modelled from the spec: [flow.hpp], which declares [EVENT_t] and
    [FLOW_STATE], is not among the sources.  The specification names the
    events NONE, TOUCH, BACK_BUTTON and MODAL and the states WELCOME,
    CAPTURING, CALIBRATING, DONE and NOT_INITED; [flow.cpp] combines events
    with [|] and tests them against the mask with [&], with [EVENT_NONE] as
    the empty mask, so the events are distinct single bits. *)
Definition EVENT_t : Type := Z.
Definition EVENT_NONE : EVENT_t := 0.
Definition EVENT_TOUCH : EVENT_t := 1.
Definition EVENT_BACK_BUTTON : EVENT_t := 2.
Definition EVENT_MODAL : EVENT_t := 4.

Inductive FLOW_STATE : Type :=
| FLOW_STATE_NOT_INITED
| FLOW_STATE_WELCOME
| FLOW_STATE_CAPTURING
| FLOW_STATE_CALIBRATING
| FLOW_STATE_DONE.

(** The file-scope variables of flow.cpp.  [gCallback] and
    [gCallbackUserdata] are pointers (0 is [NULL]).  [gEventCond_signals]
    is a ghost counter of the [pthread_cond_signal(&gEventCond)] calls made
    so far.  Every function below holds [gStateLock] or [gEventLock] around
    its whole access, so each is one atomic step. *)
Record FlowGlobals : Type := mkFlowGlobals {
  gInited : bool;
  gState : FLOW_STATE;
  gEvent : EVENT_t;
  gEventMask : EVENT_t;
  gStop : bool;
  gCallback : Z;
  gCallbackUserdata : Z;
  gEventCond_signals : nat
}.

(** The statics before [flowInitAndStart]. *)
Definition flow_statics : FlowGlobals :=
  mkFlowGlobals false FLOW_STATE_NOT_INITED EVENT_NONE EVENT_NONE false 0 0 0.

Definition flowStateGet (g : FlowGlobals) : FLOW_STATE :=
  if negb (gInited g) then FLOW_STATE_NOT_INITED else gState g.

Definition flowStateSet (state : FLOW_STATE) (g : FlowGlobals) : FlowGlobals :=
  if negb (gInited g) then g
  else mkFlowGlobals (gInited g) state (gEvent g) (gEventMask g) (gStop g)
         (gCallback g) (gCallbackUserdata g) (gEventCond_signals g).

Definition flowSetEventMask (eventMask : EVENT_t) (g : FlowGlobals)
    : FlowGlobals :=
  mkFlowGlobals (gInited g) (gState g) (gEvent g) eventMask (gStop g)
    (gCallback g) (gCallbackUserdata g) (gEventCond_signals g).

(** [flowHandleEvent(event)]. *)
Definition flowHandleEvent (event : EVENT_t) (g : FlowGlobals)
    : bool * FlowGlobals :=
  if negb (gInited g) then (false, g)
  else if Z.land event (gEventMask g) =? EVENT_NONE then (false, g)
  else (true,
        mkFlowGlobals (gInited g) (gState g) event (gEventMask g) (gStop g)
          (gCallback g) (gCallbackUserdata g) (S (gEventCond_signals g))).

(** [flowWaitForEvent()]: [None] while the caller stays blocked on
    [gEventCond] (no pending event and no stop request); otherwise the
    pending event is returned and the mailbox cleared. *)
Definition flowWaitForEvent (g : FlowGlobals) : option (EVENT_t * FlowGlobals) :=
  if (gEvent g =? EVENT_NONE) && negb (gStop g) then None
  else Some (gEvent g,
             mkFlowGlobals (gInited g) (gState g) EVENT_NONE (gEventMask g)
               (gStop g) (gCallback g) (gCallbackUserdata g)
               (gEventCond_signals g)).

(** Events posted one after the other. *)
Definition post_all (events : list EVENT_t) (g : FlowGlobals) : FlowGlobals :=
  fold_left (fun g e => snd (flowHandleEvent e g)) events g.

(** The most recently posted event of [events] that intersects [mask]. *)
Definition last_in_mask (mask : EVENT_t) (events : list EVENT_t)
    : option EVENT_t :=
  fold_left
    (fun acc e => if Z.land e mask =? EVENT_NONE then acc else Some e)
    events None.

(** Program points of [flowThread], one per access to shared state, in
    source order. *)
Inductive PC : Type :=
| pc_start             (* flowStateSet(FLOW_STATE_WELCOME) *)
| pc_loop              (* while (!gStop) *)
| pc_welcome_mask      (* flowSetEventMask(EVENT_TOUCH | EVENT_MODAL) *)
| pc_welcome_wait      (* event = flowWaitForEvent() *)
| pc_welcome_stop      (* if (gStop) break; if (event == EVENT_MODAL) *)
| pc_modal_mask        (* flowSetEventMask(EVENT_MODAL) *)
| pc_modal_wait        (* event = flowWaitForEvent(); continue *)
| pc_capture_state     (* flag = false; flowStateSet(FLOW_STATE_CAPTURING) *)
| pc_capture_mask      (* flowSetEventMask(EVENT_TOUCH|EVENT_BACK_BUTTON) *)
| pc_capture_wait      (* do { ...; event = flowWaitForEvent() *)
| pc_capture_stop      (* if (gStop) break *)
| pc_capture_dispatch  (* if (event == EVENT_TOUCH) ... else if ... *)
| pc_capture_cond      (* } while (calibImageCount() < calibImageCountMax()) *)
| pc_after_loop        (* if (calibImageCount() < calibImageCountMax()) *)
| pc_cancel_mask       (* flowSetEventMask(EVENT_TOUCH) *)
| pc_cancel_state      (* flowStateSet(FLOW_STATE_DONE) *)
| pc_cancel_wait       (* flowWaitForEvent() *)
| pc_cancel_stop       (* if (gStop) break *)
| pc_calib_mask        (* flowSetEventMask(EVENT_NONE) *)
| pc_calib_state       (* flowStateSet(FLOW_STATE_CALIBRATING) *)
| pc_calib_run         (* gFlowCalib->calib(...) *)
| pc_calib_callback    (* if (gCallback) call it with param and the errors *)
| pc_calib_reset       (* gFlowCalib->uncaptureAll() *)
| pc_done_mask         (* flowSetEventMask(EVENT_TOUCH) *)
| pc_done_state        (* flowStateSet(FLOW_STATE_DONE) *)
| pc_done_wait         (* flowWaitForEvent() *)
| pc_done_stop         (* if (gStop) break *)
| pc_exit.             (* after the loop: cleanup and return *)

Section Flow.
Context {V : Vision}.

(** The calls [flowThread] makes, as they appear in its trace. *)
Inductive Action : Type :=
| CallStateSet (state : FLOW_STATE)
| CallSetEventMask (eventMask : EVENT_t)
| RetWaitForEvent (event : EVENT_t)
| CallCapture (ret : bool)
| CallUncapture (ret : bool)
| CallUncaptureAll (ret : bool)
| CallCalib (result : CalibrationOutcome ARParam)
| CallCallback (fn : Z) (result : CalibrationOutcome ARParam) (userdata : Z).

(** The locals of [flowThread]: [result] holds [param] and the three
    errors once [calib] has filled them. *)
Record FlowThread : Type := mkFlowThread {
  pc : PC;
  event : EVENT_t;
  captureDoneSinceBackButtonLastPressed : bool;
  result : option (CalibrationOutcome ARParam)
}.

(** The whole system: the statics, the session [gFlowCalib] points to, the
    flow thread, and the trace of the calls it has made (oldest first). *)
Record FlowSys : Type := mkFlowSys {
  globals : FlowGlobals;
  gFlowCalib : Calibration;
  thread : FlowThread;
  trace : list Action
}.

(** [flowInitAndStart(calib, callback, callback_userdata)] up to and
    including [pthread_create]: the session and the callback are stored,
    [gStop] is cleared and the thread stands at its first statement.
    [gInited], [gState], the mailbox and the mask are as they were: the
    caller sets [gInited] only afterwards, when the thread may already be
    running (the action [EnvInited] below). *)
Definition flowInitAndStart (g : FlowGlobals) (calib : Calibration)
    (callback callback_userdata : Z) : FlowSys :=
  mkFlowSys
    (mkFlowGlobals (gInited g) (gState g) (gEvent g) (gEventMask g) false
       callback callback_userdata (gEventCond_signals g))
    calib
    (mkFlowThread pc_start EVENT_NONE false None)
    [].

Definition goto (t : FlowThread) (p : PC) : FlowThread :=
  mkFlowThread p (event t) (captureDoneSinceBackButtonLastPressed t) (result t).

(** A blocking [flowWaitForEvent()] at some program point: [keep] tells
    whether the returned event is assigned to the local [event]. *)
Definition wait_step (s : FlowSys) (keep : bool) (next : PC) : option FlowSys :=
  match flowWaitForEvent (globals s) with
  | None => None
  | Some (e, g) =>
      Some (mkFlowSys g (gFlowCalib s)
              (mkFlowThread next (if keep then e else event (thread s))
                 (captureDoneSinceBackButtonLastPressed (thread s))
                 (result (thread s)))
              (trace s ++ [RetWaitForEvent e]))
  end.

Definition mask_step (s : FlowSys) (m : EVENT_t) (next : PC) : option FlowSys :=
  Some (mkFlowSys (flowSetEventMask m (globals s)) (gFlowCalib s)
          (goto (thread s) next) (trace s ++ [CallSetEventMask m])).

Definition state_step (s : FlowSys) (st : FLOW_STATE) (t : FlowThread)
    : option FlowSys :=
  Some (mkFlowSys (flowStateSet st (globals s)) (gFlowCalib s) t
          (trace s ++ [CallStateSet st])).

Definition jump (s : FlowSys) (next : PC) : option FlowSys :=
  Some (mkFlowSys (globals s) (gFlowCalib s) (goto (thread s) next) (trace s)).

(** One step of [flowThread]: [None] when the thread is blocked in
    [flowWaitForEvent] or has returned. *)
Definition flowThread_step (s : FlowSys) : option FlowSys :=
  let t := thread s in
  let g := globals s in
  let c := gFlowCalib s in
  match pc t with
  | pc_start => state_step s FLOW_STATE_WELCOME (goto t pc_loop)
  | pc_loop => jump s (if gStop g then pc_exit else pc_welcome_mask)
  | pc_welcome_mask =>
      mask_step s (Z.lor EVENT_TOUCH EVENT_MODAL) pc_welcome_wait
  | pc_welcome_wait => wait_step s true pc_welcome_stop
  | pc_welcome_stop =>
      jump s (if gStop g then pc_exit
              else if event t =? EVENT_MODAL then pc_modal_mask
              else pc_capture_state)
  | pc_modal_mask => mask_step s EVENT_MODAL pc_modal_wait
  | pc_modal_wait => wait_step s true pc_loop
  | pc_capture_state =>
      state_step s FLOW_STATE_CAPTURING
        (mkFlowThread pc_capture_mask (event t) false (result t))
  | pc_capture_mask =>
      mask_step s (Z.lor EVENT_TOUCH EVENT_BACK_BUTTON) pc_capture_wait
  | pc_capture_wait => wait_step s true pc_capture_stop
  | pc_capture_stop =>
      jump s (if gStop g then pc_after_loop else pc_capture_dispatch)
  | pc_capture_dispatch =>
      if event t =? EVENT_TOUCH then
        let '(ret, c') := capture c in
        Some (mkFlowSys g c'
                (mkFlowThread pc_capture_cond (event t)
                   (if ret then true
                    else captureDoneSinceBackButtonLastPressed t)
                   (result t))
                (trace s ++ [CallCapture ret]))
      else if event t =? EVENT_BACK_BUTTON then
        if negb (captureDoneSinceBackButtonLastPressed t) then
          let '(ret, c') := uncaptureAll c in
          Some (mkFlowSys g c' (goto t pc_after_loop)
                  (trace s ++ [CallUncaptureAll ret]))
        else
          let '(ret, c') := uncapture c in
          Some (mkFlowSys g c'
                  (mkFlowThread pc_capture_cond (event t) false (result t))
                  (trace s ++ [CallUncapture ret]))
      else jump s pc_capture_cond
  | pc_capture_cond =>
      jump s (if calibImageCount c <? calibImageCountMax c
              then pc_capture_wait else pc_after_loop)
  | pc_after_loop =>
      jump s (if calibImageCount c <? calibImageCountMax c
              then pc_cancel_mask else pc_calib_mask)
  | pc_cancel_mask => mask_step s EVENT_TOUCH pc_cancel_state
  | pc_cancel_state => state_step s FLOW_STATE_DONE (goto t pc_cancel_wait)
  | pc_cancel_wait => wait_step s false pc_cancel_stop
  | pc_cancel_stop => jump s (if gStop g then pc_exit else pc_loop)
  | pc_calib_mask => mask_step s EVENT_NONE pc_calib_state
  | pc_calib_state =>
      state_step s FLOW_STATE_CALIBRATING (goto t pc_calib_run)
  | pc_calib_run =>
      let o := calib c in
      Some (mkFlowSys g c
              (mkFlowThread pc_calib_callback (event t)
                 (captureDoneSinceBackButtonLastPressed t) (Some o))
              (trace s ++ [CallCalib o]))
  | pc_calib_callback =>
      match result t with
      | Some o =>
          Some (mkFlowSys g c (goto t pc_calib_reset)
                  (if gCallback g =? 0 then trace s
                   else trace s ++ [CallCallback (gCallback g) o
                                      (gCallbackUserdata g)]))
      | None => None
      end
  | pc_calib_reset =>
      let '(ret, c') := uncaptureAll c in
      Some (mkFlowSys g c' (goto t pc_done_mask)
              (trace s ++ [CallUncaptureAll ret]))
  | pc_done_mask => mask_step s EVENT_TOUCH pc_done_state
  | pc_done_state => state_step s FLOW_STATE_DONE (goto t pc_done_wait)
  | pc_done_wait => wait_step s false pc_done_stop
  | pc_done_stop => jump s (if gStop g then pc_exit else pc_loop)
  | pc_exit => None
  end.

(** What the other threads do between two steps of the flow thread: the
    input layer posts an event, the frame pump calls [frame] (a call that
    returns: one that does not ends the flow thread with the process), the
    worker stores the outputs of a finished detection in its slot, and the
    caller of [flowInitAndStart] executes its last statement,
    [gInited = true].  A stop request is not among them:
    [flowStopAndFinal] below sets [gStop] itself, and the properties of a
    controller that is not being stopped say so with [gStop = false]. *)
Inductive EnvAction : Type :=
| EnvPost (e : EVENT_t)
| EnvFrame (status busy : Z) (vs : ARVideoSource)
| EnvWorker (flag : Z) (cs : list Point2f)
| EnvInited.

Definition env_step (s : FlowSys) (a : EnvAction) : FlowSys :=
  match a with
  | EnvPost e =>
      mkFlowSys (snd (flowHandleEvent e (globals s))) (gFlowCalib s)
        (thread s) (trace s)
  | EnvFrame status busy vs =>
      mkFlowSys (globals s)
        (frame_session (gFlowCalib s) status busy vs) (thread s) (trace s)
  | EnvWorker flag cs =>
      mkFlowSys (globals s)
        (with_cornerFinderData (gFlowCalib s)
           (set_flag_corners (m_cornerFinderData (gFlowCalib s)) flag cs))
        (thread s) (trace s)
  | EnvInited =>
      mkFlowSys
        (mkFlowGlobals true (gState (globals s)) (gEvent (globals s))
           (gEventMask (globals s)) (gStop (globals s))
           (gCallback (globals s)) (gCallbackUserdata (globals s))
           (gEventCond_signals (globals s)))
        (gFlowCalib s) (thread s) (trace s)
  end.

Definition env_steps (acts : list EnvAction) (s : FlowSys) : FlowSys :=
  fold_left env_step acts s.

(** The controller when [flowInitAndStart] has returned before the thread
    has taken its first step. *)
Definition flowStarted (g : FlowGlobals) (calib : Calibration)
    (callback callback_userdata : Z) : FlowSys :=
  env_step (flowInitAndStart g calib callback callback_userdata) EnvInited.

(** A schedule gives, for each step of the flow thread, the actions of the
    other threads that come before it.  [interleave] is [None] when the
    flow thread cannot take one of its steps. *)
Fixpoint interleave (sched : list (list EnvAction)) (s : FlowSys)
    : option FlowSys :=
  match sched with
  | [] => Some s
  | acts :: rest =>
      match flowThread_step (env_steps acts s) with
      | Some s' => interleave rest s'
      | None => None
      end
  end.

(** The flow thread driven for at most [fuel] steps, the other threads
    acting before each step as [envs] says; it stops early where the thread
    is blocked or has returned. *)
Fixpoint drive (fuel : nat) (envs : nat -> list EnvAction) (s : FlowSys)
    : FlowSys :=
  match fuel with
  | O => s
  | S fuel' =>
      match flowThread_step (env_steps (envs fuel') s) with
      | Some s' => drive fuel' envs s'
      | None => env_steps (envs fuel') s
      end
  end.

(** The number of steps the flow thread can still take from a program
    point once a stop has been requested. *)
Definition steps_to_exit (p : PC) : nat :=
  match p with
  | pc_exit => 0
  | pc_loop | pc_welcome_stop | pc_cancel_stop | pc_done_stop => 1
  | pc_start | pc_welcome_wait | pc_modal_wait | pc_cancel_wait
  | pc_done_wait => 2
  | pc_welcome_mask | pc_modal_mask | pc_cancel_state | pc_done_state => 3
  | pc_cancel_mask | pc_done_mask => 4
  | pc_calib_reset => 5
  | pc_calib_callback => 6
  | pc_calib_run => 7
  | pc_calib_state => 8
  | pc_calib_mask => 9
  | pc_after_loop => 10
  | pc_capture_stop => 11
  | pc_capture_wait => 12
  | pc_capture_cond | pc_capture_mask => 13
  | pc_capture_dispatch | pc_capture_state => 14
  end%nat.

(** [flowStopAndFinal()], called on a system [s].  Between [gStop = true]
    and the return of [pthread_join] the flow thread goes on running: it
    takes [steps] steps, the other threads acting as [envs] says, until it
    has returned or [pthread_cancel] has ended it at a cancellation point.
    Then the state is reset and [gInited] cleared.  (The pointer
    [gFlowCalib] is cleared too and the locks are destroyed; the session
    itself is not touched.) *)
Definition flowStopAndFinal (steps : nat) (envs : nat -> list EnvAction)
    (s : FlowSys) : bool * FlowSys :=
  if negb (gInited (globals s)) then (false, s)
  else
    let g := globals s in
    let stopping :=
      mkFlowSys
        (mkFlowGlobals (gInited g) (gState g) (gEvent g) (gEventMask g) true
           (gCallback g) (gCallbackUserdata g) (gEventCond_signals g))
        (gFlowCalib s) (thread s) (trace s) in
    let joined := drive steps envs stopping in
    let g' := globals joined in
    (true,
     mkFlowSys
       (mkFlowGlobals false FLOW_STATE_NOT_INITED (gEvent g')
          (gEventMask g') (gStop g') (gCallback g') (gCallbackUserdata g')
          (gEventCond_signals g'))
       (gFlowCalib joined) (thread joined) (trace joined)).




(** The invariant of the flow thread while no stop has been requested:
    what is known about the captured sets at each program point. *)
Definition flow_inv (s : FlowSys) : Prop :=
  let n := vector_size (m_corners (gFlowCalib s)) in
  let mx := m_calibImageCountMax (gFlowCalib s) in
  let flag := captureDoneSinceBackButtonLastPressed (thread s) in
  gInited (globals s) = true /\ gStop (globals s) = false /\
  in_int_range mx /\
  match pc (thread s) with
  | pc_capture_mask =>
      n = 0 /\ flag = false /\ gState (globals s) = FLOW_STATE_CAPTURING
  | pc_capture_wait | pc_capture_stop | pc_capture_dispatch =>
      n < INT_MAX /\ gState (globals s) = FLOW_STATE_CAPTURING /\
      (flag = true -> 1 <= n /\ n < mx)
  | pc_capture_cond =>
      n <= INT_MAX /\ gState (globals s) = FLOW_STATE_CAPTURING /\
      (flag = true -> 1 <= n)
  | pc_after_loop =>
      n <= INT_MAX /\
      (n = 0 \/ ~ calibImageCount (gFlowCalib s) < calibImageCountMax (gFlowCalib s))
  | pc_calib_mask | pc_calib_state | pc_calib_run | pc_calib_reset => True
  | pc_calib_callback => result (thread s) <> None
  | pc_exit => True
  | _ => n = 0
  end.

(** The controller between [pthread_create] and [gInited = true], the
    mailbox empty: the thread is somewhere before the return of its first
    wait. *)
Definition flow_starting (s : FlowSys) : Prop :=
  let n := vector_size (m_corners (gFlowCalib s)) in
  let mx := m_calibImageCountMax (gFlowCalib s) in
  gInited (globals s) = false /\ gEvent (globals s) = EVENT_NONE /\
  gStop (globals s) = false /\ in_int_range mx /\ n = 0 /\
  match pc (thread s) with
  | pc_start | pc_loop | pc_welcome_mask | pc_welcome_wait => True
  | _ => False
  end.

End Flow.

(** ** The result lock: publication against a concurrent reader *)

(** [m_cornerFinderResultLock] guards [m_cornerFinderResultData].  The frame
    pump takes it around the copy assignment in [frame]; a reader takes it
    in [cornerFinderResultsLockAndFetch] and gives it back in
    [cornerFinderResultsUnlock].  Here the copy assignment is taken apart
    into the member-wise stores of [operator=], and the fetch into its three
    loads, each an atomic step; a step that needs the mutex is enabled only
    while the mutex is free.  The worker's record changes only while the
    frame pump is outside that branch: [frame] enters it after
    [threadGetStatus] has reported the job complete, and hands the worker
    its next frame only after the copy. *)
Module ResultLock.

Inductive Owner : Type := Free | HeldByPublisher | HeldByReader.

(** The frame pump inside the first [if] of [frame]. *)
Inductive PubPC : Type :=
| pub_idle          (* not in the branch *)
| pub_lock          (* pthread_mutex_lock(&m_cornerFinderResultLock) *)
| pub_dealloc       (* operator=: dealloc() *)
| pub_patternType   (* patternType = orig.patternType *)
| pub_patternSize   (* patternSize = orig.patternSize *)
| pub_videoWidth    (* videoWidth = orig.videoWidth *)
| pub_videoHeight   (* videoHeight = orig.videoHeight *)
| pub_flag          (* cornerFoundAllFlag = orig.cornerFoundAllFlag *)
| pub_corners       (* corners = orig.corners *)
| pub_init          (* init() *)
| pub_copy          (* copy(orig) *)
| pub_unlock.       (* pthread_mutex_unlock(&m_cornerFinderResultLock) *)

(** The reader from [cornerFinderResultsLockAndFetch] up to
    [cornerFinderResultsUnlock]. *)
Inductive ReadPC : Type :=
| rd_idle           (* pthread_mutex_lock(&m_cornerFinderResultLock) *)
| rd_flag           (* *cornerFoundAllFlag = result.cornerFoundAllFlag *)
| rd_corners        (* corners = result.corners *)
| rd_frame          (* *videoFrame = result.videoFrame *)
| rd_fetched.       (* the caller uses the outputs, then unlocks *)

(** [jobs] is ghost state: the worker data of every completed publication,
    newest first. *)
Record State : Type := mkState {
  lock : Owner;
  data : CalibrationCornerFinderData;     (* m_cornerFinderData *)
  res : CalibrationCornerFinderData;      (* m_cornerFinderResultData *)
  ppc : PubPC;
  rpc : ReadPC;
  out_flag : Z;
  out_corners : list Point2f;
  jobs : list CalibrationCornerFinderData
}.

Inductive Label : Type :=
| Publisher                                   (* the frame pump moves *)
| Reader                                      (* the reader moves *)
| WorkerData (d : CalibrationCornerFinderData).
    (* between two publications the worker slot takes a new value: a frame
       was submitted, a detection finished *)

Section Model.
Context {V : Vision}.

Definition set_res (s : State) (r : CalibrationCornerFinderData) (p : PubPC)
    : State :=
  mkState (lock s) (data s) r p (rpc s) (out_flag s) (out_corners s) (jobs s).

Definition publisher_step (s : State) : option State :=
  let r := res s in
  let d := data s in
  match ppc s with
  | pub_idle =>
      Some (mkState (lock s) d r pub_lock (rpc s) (out_flag s) (out_corners s)
              (jobs s))
  | pub_lock =>
      match lock s with
      | Free =>
          Some (mkState HeldByPublisher d r pub_dealloc (rpc s) (out_flag s)
                  (out_corners s) (jobs s))
      | _ => None
      end
  | pub_dealloc => Some (set_res s (set_videoFrame r None) pub_patternType)
  | pub_patternType =>
      Some (set_res s
              (mkCornerFinderData (patternType d) (patternSize r)
                 (videoWidth r) (videoHeight r) (videoFrame r)
                 (cornerFoundAllFlag r) (corners r))
              pub_patternSize)
  | pub_patternSize =>
      Some (set_res s
              (mkCornerFinderData (patternType r) (patternSize d)
                 (videoWidth r) (videoHeight r) (videoFrame r)
                 (cornerFoundAllFlag r) (corners r))
              pub_videoWidth)
  | pub_videoWidth =>
      Some (set_res s
              (mkCornerFinderData (patternType r) (patternSize r)
                 (videoWidth d) (videoHeight r) (videoFrame r)
                 (cornerFoundAllFlag r) (corners r))
              pub_videoHeight)
  | pub_videoHeight =>
      Some (set_res s
              (mkCornerFinderData (patternType r) (patternSize r)
                 (videoWidth r) (videoHeight d) (videoFrame r)
                 (cornerFoundAllFlag r) (corners r))
              pub_flag)
  | pub_flag =>
      Some (set_res s (set_flag_corners r (cornerFoundAllFlag d) (corners r))
              pub_corners)
  | pub_corners => Some (set_res s (set_corners r (corners d)) pub_init)
  | pub_init =>
      Some (set_res s
              (set_videoFrame r
                 (CornerFinderData_init (videoWidth r) (videoHeight r)))
              pub_copy)
  | pub_copy =>
      match CornerFinderData_copy (videoWidth r) (videoHeight r)
              (videoFrame r) (videoFrame d) with
      | Returned f => Some (set_res s (set_videoFrame r f) pub_unlock)
      | _ => None
      end
  | pub_unlock =>
      Some (mkState Free d r pub_idle (rpc s) (out_flag s) (out_corners s)
              (d :: jobs s))
  end.

Definition reader_step (s : State) : option State :=
  match rpc s with
  | rd_idle =>
      match lock s with
      | Free =>
          Some (mkState HeldByReader (data s) (res s) (ppc s) rd_flag
                  (out_flag s) (out_corners s) (jobs s))
      | _ => None
      end
  | rd_flag =>
      Some (mkState (lock s) (data s) (res s) (ppc s) rd_corners
              (cornerFoundAllFlag (res s)) (out_corners s) (jobs s))
  | rd_corners =>
      Some (mkState (lock s) (data s) (res s) (ppc s) rd_frame
              (out_flag s) (corners (res s)) (jobs s))
  | rd_frame =>
      Some (mkState (lock s) (data s) (res s) (ppc s) rd_fetched
              (out_flag s) (out_corners s) (jobs s))
  | rd_fetched =>
      Some (mkState Free (data s) (res s) (ppc s) rd_idle
              (out_flag s) (out_corners s) (jobs s))
  end.

(** One step of the system; [None] when the chosen thread is blocked, or
    when the [memcpy] of the copy is undefined for the worker's record. *)
Definition step (l : Label) (s : State) : option State :=
  match l with
  | Publisher => publisher_step s
  | Reader => reader_step s
  | WorkerData d =>
      match ppc s with
      | pub_idle =>
          Some (mkState (lock s) d (res s) (ppc s) (rpc s) (out_flag s)
                  (out_corners s) (jobs s))
      | _ => None
      end
  end.

Fixpoint exec (sched : list Label) (s : State) : option State :=
  match sched with
  | [] => Some s
  | l :: rest =>
      match step l s with
      | Some s' => exec rest s'
      | None => None
      end
  end.

(** The session right after its constructor. *)
Definition initial (c : Calibration) : State :=
  mkState Free (m_cornerFinderData c) (m_cornerFinderResultData c)
    pub_idle rd_idle 0 [] [].




(** A record whose frame buffer is allocated with exactly
    [videoWidth * videoHeight] bytes, a count that [init()] computes as an
    [int]: as [init()] leaves it and [frame] keeps it for a source of the
    session's dimensions. *)
Definition frame_ok (d : CalibrationCornerFinderData) : Prop :=
  0 < videoWidth d /\ 0 < videoHeight d /\
  videoWidth d * videoHeight d <= INT_MAX /\
  exists px, videoFrame d = Some px /\
             length px = Z.to_nat (videoWidth d * videoHeight d).





End Model.
End ResultLock.

(** ** The upload queue of fileUploader.c *)

Module Upload.
Import Ascii String.

Definition char : Type := Ascii.ascii.

(** A C string: the characters before the terminating NUL. *)
Definition c_string : Type := list char.

(** A string literal of the source. *)
Definition lit (s : String.string) : c_string := String.list_ascii_of_string s.

Definition NUL : char := "000"%char.
Definition LF : char := "010"%char.
Definition CR : char := "013"%char.

(** The text [printf] produces for [%d]. *)
Definition dec (i : Z) : c_string :=
  lit (DecimalString.NilZero.string_of_int (Z.to_int i)).

(** [snprintf(buf, n, ...)] where the formatted text is [s]: the first
    [n - 1] characters are stored and terminated; nothing is stored when
    [n] is 0. *)
Definition snprintf (buf : c_string) (n : Z) (s : c_string) : c_string :=
  if n =? 0 then buf else firstn (Z.to_nat (n - 1)) s.

(** [strncpy(dst, src, n)] read back as a string: [src], cut to the [n]
    characters of the destination (which is then left unterminated). *)
Definition strncpy (src : c_string) (n : Z) : c_string :=
  firstn (Z.to_nat n) src.

(** *** The upload status *)

(** [struct timeval]. *)
Record timeval : Type := mkTimeval { tv_sec : Z; tv_usec : Z }.

(** The instant a [timeval] denotes, in microseconds. *)
Definition micros (t : timeval) : Z := tv_sec t * 1000000 + tv_usec t.

(** A [timeval] as [gettimeofday] and [timeradd] produce it. *)
Definition normal (t : timeval) : Prop := 0 <= tv_usec t < 1000000.

(** [timeradd(a, b, result)] of <sys/time.h>. *)
Definition timeradd (a b : timeval) : timeval :=
  let sec := tv_sec a + tv_sec b in
  let usec := tv_usec a + tv_usec b in
  if usec >=? 1000000 then mkTimeval (sec + 1) (usec - 1000000)
  else mkTimeval sec usec.

(** The members of [struct _FILE_UPLOAD_HANDLE] that carry the status. *)
Record FILE_UPLOAD_HANDLE_t : Type := mkHandle {
  uploadStatus : c_string;
  uploadStatusHide : bool;
  uploadStatusHideAtTime : timeval;
  uploadStatusHideAfterSecs : timeval
}.

Section Status.

(** The length of the status buffers, a constant of [fileUploader.h]. *)
Variable UPLOAD_STATUS_BUFFER_LEN : Z.

(** The handle as [fileUploaderInit] leaves it: [calloc] has zeroed it,
    and [statusHideAfterSecs] is the delay asked for, already converted
    from [float] to a [struct timeval]. *)
Definition fileUploaderInit (statusHideAfterSecs : timeval)
    : FILE_UPLOAD_HANDLE_t :=
  mkHandle [] false (mkTimeval 0 0) statusHideAfterSecs.

Definition set_uploadStatus (h : FILE_UPLOAD_HANDLE_t) (s : c_string)
    : FILE_UPLOAD_HANDLE_t :=
  mkHandle (snprintf (uploadStatus h) UPLOAD_STATUS_BUFFER_LEN s)
    (uploadStatusHide h) (uploadStatusHideAtTime h)
    (uploadStatusHideAfterSecs h).

(** [fileUploader], at the start of a pass. *)
Definition fileUploader_begin (h : FILE_UPLOAD_HANDLE_t)
    : FILE_UPLOAD_HANDLE_t :=
  set_uploadStatus h (lit "Looking for files to upload...").

(** [fileUploader], when a queued file has been found. *)
Definition fileUploader_file (h : FILE_UPLOAD_HANDLE_t) (uploadsDone : Z)
    : FILE_UPLOAD_HANDLE_t :=
  set_uploadStatus h (lit "Uploading file " ++ dec (uploadsDone + 1)).

(** The text of the closing status. *)
Definition closing_status (uploadsDone errorCode : Z) : c_string :=
  if negb (uploadsDone =? 0) then
    lit "Uploaded " ++ dec uploadsDone ++ lit " file"
      ++ (if uploadsDone >? 1 then lit "s" else lit "")
  else if errorCode =? 1 then lit "No Internet access. Uploads postponed."
  else if errorCode =? 2 then
    lit "Network error while uploading. Uploads postponed."
  else if errorCode =? 3 then
    lit "Server error while uploading. Uploads postponed."
  else lit "Internal error while uploading. Uploads postponed.".

(** [fileUploader], at the end of a pass: [time] is what [gettimeofday]
    returned. *)
Definition fileUploader_end (h : FILE_UPLOAD_HANDLE_t) (time : timeval)
    (uploadsDone errorCode : Z) : FILE_UPLOAD_HANDLE_t :=
  if negb (uploadsDone =? 0) || negb (errorCode =? 0) then
    mkHandle
      (snprintf (uploadStatus h) UPLOAD_STATUS_BUFFER_LEN
         (closing_status uploadsDone errorCode))
      true
      (timeradd time (uploadStatusHideAfterSecs h))
      (uploadStatusHideAfterSecs h)
  else
    mkHandle (uploadStatus h) true (uploadStatusHideAtTime h)
      (uploadStatusHideAfterSecs h).

(** [fileUploaderStatusGet(handle, statusBuf, currentTime_p)]:
    [threadStatus] is what [threadGetStatus] answers.  Returns the result,
    the handle and [statusBuf]. *)
Definition fileUploaderStatusGet (handle : option FILE_UPLOAD_HANDLE_t)
    (statusBuf : c_string) (currentTime : timeval) (threadStatus : Z)
    : Z * option FILE_UPLOAD_HANDLE_t * c_string :=
  match handle with
  | None => (-1, None, statusBuf)
  | Some h =>
      match uploadStatus h with
      | [] => (0, Some h, statusBuf)
      | _ :: _ =>
          if uploadStatusHide h
             && (tv_sec currentTime >=? tv_sec (uploadStatusHideAtTime h))
             && (tv_usec currentTime >=? tv_usec (uploadStatusHideAtTime h))
          then
            (0,
             Some (mkHandle [] false (uploadStatusHideAtTime h)
                     (uploadStatusHideAfterSecs h)),
             statusBuf)
          else
            (if threadStatus =? 0 then 1 else 2,
             Some h,
             strncpy (uploadStatus h) UPLOAD_STATUS_BUFFER_LEN)
      end
  end.

(** The status polled at each of [polls] (the time and the answer of
    [threadGetStatus]), as [drawView] does once per displayed frame: the
    results in order, the handle and the buffer after the last poll. *)
Fixpoint poll (handle : option FILE_UPLOAD_HANDLE_t) (statusBuf : c_string)
    (polls : list (timeval * Z))
    : list Z * option FILE_UPLOAD_HANDLE_t * c_string :=
  match polls with
  | [] => ([], handle, statusBuf)
  | (currentTime, threadStatus) :: rest =>
      let '(ret, handle', statusBuf') :=
        fileUploaderStatusGet handle statusBuf currentTime threadStatus in
      let '(rets, handle'', statusBuf'') := poll handle' statusBuf' rest in
      (ret :: rets, handle'', statusBuf'')
  end.

End Status.

(** *** Reading an index file *)

Definition BUFSIZE : Z := 1024.
Definition MAXPATHLEN : Z := 128.

(** The string a buffer holds: its characters before the first NUL. *)
Fixpoint c_str (buf : list char) : c_string :=
  match buf with
  | [] => []
  | c :: rest => if Ascii.eqb c NUL then [] else c :: c_str rest
  end.

(** What [fgets] takes from the stream: at most [k] characters, up to and
    including the first LF. *)
Fixpoint fgets_read (k : nat) (fp : list char) : list char * list char :=
  match k, fp with
  | S k', c :: fp' =>
      if Ascii.eqb c LF then ([c], fp')
      else let '(l, r) := fgets_read k' fp' in (c :: l, r)
  | _, _ => ([], fp)
  end.

(** [fgets(buf, n, fp)] on the unread part of a file: [None] at end of
    file, otherwise the characters stored and the rest of the file. *)
Definition fgets (n : Z) (fp : list char) : option (list char * list char) :=
  match fp with
  | [] => None
  | _ :: _ => Some (fgets_read (Z.to_nat (n - 1)) fp)
  end.

(** The loop of [get_buff] that removes LFs and CRs from the end of the
    string: [l] walks back from [strlen(buf)]. *)
Fixpoint strip_eol (l : nat) (buf : c_string) : c_string :=
  match l with
  | O => []
  | S l' =>
      match nth_error buf l' with
      | Some c =>
          if negb (Ascii.eqb c LF) && negb (Ascii.eqb c CR) then firstn l buf
          else strip_eol l' buf
      | None => firstn l buf
      end
  end.

(** [buf[0] == c]. *)
Definition first_is (buf : c_string) (c : char) : bool :=
  match buf with
  | [] => Ascii.eqb NUL c
  | x :: _ => Ascii.eqb x c
  end.

(** [get_buff(buf, n, fp, skipblanks)]: the outer [None] when [fuel]
    iterations of the do-while loop were not enough, the inner [None] for
    NULL, otherwise the string left in [buf] and the rest of the file. *)
Fixpoint get_buff_loop (fuel : nat) (n : Z) (fp : list char)
    (skipblanks : bool) : option (option (c_string * list char)) :=
  match fuel with
  | O => None
  | S fuel' =>
      match fgets n fp with
      | None => Some None
      | Some (chunk, fp') =>
          let buf := c_str chunk in
          let buf := strip_eol (List.length buf) buf in
          if first_is buf "#"%char || (skipblanks && first_is buf NUL)
          then get_buff_loop fuel' n fp' skipblanks
          else Some (Some (buf, fp'))
      end
  end.

Definition get_buff (n : Z) (fp : list char) (skipblanks : bool)
    : option (option (c_string * list char)) :=
  get_buff_loop (S (List.length fp)) n fp skipblanks.

(** [strchr(buf, c)] followed by [*pos = 0]: the string before the first
    [c] and the string after it. *)
Fixpoint split_at (buf : c_string) (c : char)
    : option (c_string * c_string) :=
  match buf with
  | [] => None
  | x :: rest =>
      if Ascii.eqb x c then Some ([], rest)
      else match split_at rest c with
           | Some (before, after) => Some (x :: before, after)
           | None => None
           end
  end.

(** [strcmp(a, b) == 0]. *)
Fixpoint strcmp_eq (a b : c_string) : bool :=
  match a, b with
  | [], [] => true
  | x :: a', y :: b' => Ascii.eqb x y && strcmp_eq a' b'
  | _, _ => false
  end.

(** [strcpy(dst, src)] into a buffer of [size] characters: [None] when the
    copy would write past its end. *)
Definition strcpy (size : Z) (src : c_string) : option c_string :=
  if Z.of_nat (List.length src) <? size then Some src else None.

(** The parts handed to [curl_formadd]: [CURLFORM_COPYCONTENTS], or
    [CURLFORM_FILE] (sent with the file's name and the content type
    application/octet-stream). *)
Inductive FormPart : Type :=
| COPYCONTENTS (name contents : c_string)
| FILE (name file : c_string).

Inductive FormOutcome : Type :=
| FormRead (filePathname : c_string) (post : list FormPart)
| FormOverrun (post : list FormPart)
| FormFuel.

(** The loop of [fileUploader] that builds the form from an index file.
    [FormOverrun]: [strcpy] wrote past the end of [filePathname]. *)
Fixpoint build_form (fuel : nat) (fp : list char) (filePathname : c_string)
    (post : list FormPart) : FormOutcome :=
  match fuel with
  | O => FormFuel
  | S fuel' =>
      match get_buff BUFSIZE fp true with
      | None => FormFuel
      | Some None => FormRead filePathname post
      | Some (Some (buf, fp')) =>
          match split_at buf ","%char with
          | None => build_form fuel' fp' filePathname post
          | Some (name, value) =>
              if strcmp_eq name (lit "file") then
                match strcpy MAXPATHLEN value with
                | Some f =>
                    build_form fuel' fp' f (post ++ [FILE name value])
                | None => FormOverrun post
                end
              else
                build_form fuel' fp' filePathname
                  (post ++ [COPYCONTENTS name value])
          end
      end
  end.

Definition read_form (fp : list char) : FormOutcome :=
  build_form (S (List.length fp)) fp [] [].

(** *** The index file [saveParam] of calib_camera.cpp writes *)

(** What [saveParam] puts into the index file: the parameter's distortion
    function version, the path of the parameter file, and the texts it got
    from [strftime], the system, the video module and [snprintf] of the
    errors and of the digest. *)
Record IndexFields : Type := mkIndexFields {
  dist_function_version : Z;
  paramPathname : c_string;
  timestamp : c_string;
  os_name : c_string;
  os_arch : c_string;
  os_version : c_string;
  device_id : c_string;
  focal_length : c_string;
  gCameraIsFrontFacing : bool;
  getVideoWidth : Z;
  getVideoHeight : Z;
  err_min_ascii : c_string;
  err_avg_ascii : c_string;
  err_max_ascii : c_string;
  ss_ascii : c_string
}.

(** [fprintf(fp, "<key>,%s\n", value)]. *)
Definition fprintf_line (key value : c_string) : list char :=
  key ++ [","%char] ++ value ++ [LF].

(** The key and value of each line, in the order of the [fprintf]s. *)
Definition index_lines (d : IndexFields) : list (c_string * c_string) :=
  [(lit "version", dec (if dist_function_version d =? 5 then 2 else 1));
   (lit "file", paramPathname d);
   (lit "timestamp", timestamp d);
   (lit "os_name", os_name d);
   (lit "os_arch", os_arch d);
   (lit "os_version", os_version d);
   (lit "device_id", device_id d);
   (lit "focal_length", focal_length d);
   (lit "camera_index", snprintf [] 12 (dec 0));
   (lit "camera_face",
    snprintf [] 6 (if gCameraIsFrontFacing d then lit "front" else lit "rear"));
   (lit "camera_width", snprintf [] 12 (dec (getVideoWidth d)));
   (lit "camera_height", snprintf [] 12 (dec (getVideoHeight d)));
   (lit "err_min", err_min_ascii d);
   (lit "err_avg", err_avg_ascii d);
   (lit "err_max", err_max_ascii d);
   (lit "ss", ss_ascii d)].

(** The index file when it could be opened and [strftime] succeeded. *)
Definition index_file (d : IndexFields) : list char :=
  flat_map (fun kv => fprintf_line (fst kv) (snd kv)) (index_lines d).

(** A text without LF, CR and NUL. *)
Definition plain (v : c_string) : bool :=
  forallb (fun c => negb (Ascii.eqb c LF) && negb (Ascii.eqb c CR)
                    && negb (Ascii.eqb c NUL)) v.

(** A key and a value whose line [get_buff] reads back whole: no line
    break inside, no comma in the key, no [#] in front, and room for the
    line and its LF in the buffer. *)
Definition line_ok (kv : c_string * c_string) : Prop :=
  plain (fst kv) = true /\ ~ In ","%char (fst kv) /\
  first_is (fst kv) "#"%char = false /\
  plain (snd kv) = true /\
  Z.of_nat (List.length (fst kv) + List.length (snd kv)) + 2 < BUFSIZE.

(** What the form-building loop does with a key and a value. *)
Fixpoint form_of_lines (kvs : list (c_string * c_string))
    (filePathname : c_string) (post : list FormPart) : FormOutcome :=
  match kvs with
  | [] => FormRead filePathname post
  | (name, value) :: rest =>
      if strcmp_eq name (lit "file") then
        match strcpy MAXPATHLEN value with
        | Some f => form_of_lines rest f (post ++ [FILE name value])
        | None => FormOverrun post
        end
      else form_of_lines rest filePathname (post ++ [COPYCONTENTS name value])
  end.

(** The part a key and a value become. *)
Definition form_part (kv : c_string * c_string) : FormPart :=
  if strcmp_eq (fst kv) (lit "file") then FILE (fst kv) (snd kv)
  else COPYCONTENTS (fst kv) (snd kv).

(** The texts [saveParam] gets from outside are plain and at most 1000
    characters long. *)
Definition text_ok (v : c_string) : Prop :=
  plain v = true /\ Z.of_nat (List.length v) <= 1000.

Definition fields_ok (d : IndexFields) : Prop :=
  text_ok (paramPathname d) /\ text_ok (timestamp d) /\
  text_ok (os_name d) /\ text_ok (os_arch d) /\ text_ok (os_version d) /\
  text_ok (device_id d) /\ text_ok (focal_length d) /\
  text_ok (err_min_ascii d) /\ text_ok (err_avg_ascii d) /\
  text_ok (err_max_ascii d) /\ text_ok (ss_ascii d).

End Upload.

(** ** The application: preferences and saved files of calib_camera.cpp *)

Module App.
Import Ascii String.
Import Upload.

(** *** rereadPreferences *)

(** What the getters of the preferences module return; a string preference
    is [None] when the getter returns NULL. *)
Record Preferences : Type := mkPreferences {
  getPreferenceCalibrationSave : bool;
  getPreferenceCalibSaveDir : option c_string;
  getPreferenceCalibrationServerUploadURL : option c_string;
  getPreferenceCalibrationServerAuthenticationToken : option c_string;
  getPreferenceCameraResolutionToken : option c_string;
  getPreferenceCameraOpenToken : option c_string;
  getPreferencesCalibrationPatternType : CalibrationPatternType;
  getPreferencesCalibrationPatternSize : Size;
  getPreferencesCalibrationPatternSpacing : spec_float
}.

(** The globals that mirror the preferences. *)
Record AppGlobals : Type := mkAppGlobals {
  gCalibrationSave : bool;
  gCalibrationSaveDir : option c_string;
  gCalibrationServerUploadURL : option c_string;
  gCalibrationServerAuthenticationToken : option c_string;
  gPreferenceCameraResolutionToken : option c_string;
  gPreferenceCameraOpenToken : option c_string;
  gCalibrationPatternType : CalibrationPatternType;
  gCalibrationPatternSize : Size;
  gCalibrationPatternSpacing : spec_float
}.

(** The calls [rereadPreferences] makes into the rest of the program. *)
Inductive AppCall : Type :=
| Call_fileUploaderFinal
| Call_fileUploaderInit (formPostURL : c_string)
| Call_stopVideo
| Call_startVideo.

(** [fresh && held && strcmp(held, fresh) == 0]. *)
Definition same_string (held fresh : option c_string) : bool :=
  match fresh, held with
  | Some f, Some h => strcmp_eq h f
  | _, _ => false
  end.

Definition patternType_eqb (a b : CalibrationPatternType) : bool :=
  match a, b with
  | CHESSBOARD, CHESSBOARD
  | CIRCLES_GRID, CIRCLES_GRID
  | ASYMMETRIC_CIRCLES_GRID, ASYMMETRIC_CIRCLES_GRID => true
  | _, _ => false
  end.

(** [cv::Size::operator!=]. *)
Definition Size_neb (a b : Size) : bool :=
  negb (width a =? width b) || negb (height a =? height b).

(** The test [patternType != gCalibrationPatternType || patternSize !=
    gCalibrationPatternSize || patternSpacing != gCalibrationPatternSpacing]. *)
Definition pattern_differs (g : AppGlobals) (p : Preferences) : bool :=
  negb (patternType_eqb (getPreferencesCalibrationPatternType p)
          (gCalibrationPatternType g))
  || Size_neb (getPreferencesCalibrationPatternSize p)
       (gCalibrationPatternSize g)
  || negb (SFeqb (getPreferencesCalibrationPatternSpacing p)
             (gCalibrationPatternSpacing g)).

(** [rereadPreferences()]: the globals afterwards and the calls made, in
    order. *)
Definition rereadPreferences (g : AppGlobals) (p : Preferences)
    : AppGlobals * list AppCall :=
  let csd := getPreferenceCalibSaveDir p in
  let saveDir :=
    if same_string (gCalibrationSaveDir g) csd then gCalibrationSaveDir g
    else csd in
  let csuu := getPreferenceCalibrationServerUploadURL p in
  let uploadURL :=
    if same_string (gCalibrationServerUploadURL g) csuu
    then gCalibrationServerUploadURL g else csuu in
  let uploader_calls :=
    if same_string (gCalibrationServerUploadURL g) csuu then []
    else Call_fileUploaderFinal
         :: match csuu with
            | Some url => [Call_fileUploaderInit url]
            | None => []
            end in
  let csat := getPreferenceCalibrationServerAuthenticationToken p in
  let token :=
    if same_string (gCalibrationServerAuthenticationToken g) csat
    then gCalibrationServerAuthenticationToken g
    else csat in
  let changedCameraSettings := false in
  let crt := getPreferenceCameraResolutionToken p in
  let resolution :=
    if same_string (gPreferenceCameraResolutionToken g) crt
    then gPreferenceCameraResolutionToken g else crt in
  let changedCameraSettings :=
    if same_string (gPreferenceCameraResolutionToken g) crt
    then changedCameraSettings else true in
  let cot := getPreferenceCameraOpenToken p in
  let open :=
    if same_string (gPreferenceCameraOpenToken g) cot
    then gPreferenceCameraOpenToken g else cot in
  let changedCameraSettings :=
    if same_string (gPreferenceCameraOpenToken g) cot
    then changedCameraSettings else true in
  let differs := pattern_differs g p in
  let changedCameraSettings :=
    if differs then true else changedCameraSettings in
  (mkAppGlobals (getPreferenceCalibrationSave p) saveDir uploadURL token
     resolution open
     (if differs then getPreferencesCalibrationPatternType p
      else gCalibrationPatternType g)
     (if differs then getPreferencesCalibrationPatternSize p
      else gCalibrationPatternSize g)
     (if differs then getPreferencesCalibrationPatternSpacing p
      else gCalibrationPatternSpacing g),
   uploader_calls
   ++ (if changedCameraSettings then [Call_stopVideo; Call_startVideo]
       else [])).

(** *** saveParam: the names of the files *)

(** The members of [struct tm] concerned. *)
Record tm : Type := mkTm {
  tm_year : Z;
  tm_mon : Z;
  tm_mday : Z;
  tm_hour : Z;
  tm_min : Z;
  tm_sec : Z
}.

(** A broken-down time as [gmtime] returns it (a leap second gives
    [tm_sec] = 60). *)
Definition tm_ok (t : tm) : Prop :=
  0 <= tm_hour t <= 23 /\ 0 <= tm_min t <= 59 /\ 0 <= tm_sec t <= 60.

(** [int ID = timeptr->tm_hour*10000 + timeptr->tm_min*100 + timeptr->tm_sec]. *)
Definition saveParam_ID (timeptr : tm) : Z :=
  tm_hour timeptr * 10000 + tm_min timeptr * 100 + tm_sec timeptr.

(** The text [printf] produces for [%06d], for an [i] that is not
    negative. *)
Definition dec06 (i : Z) : c_string :=
  repeat "0"%char (6 - List.length (dec i)) ++ dec i.

Definition QUEUE_DIR : c_string := lit "queue".

Section SaveParam.

(** [MAXPATHLEN] of the platform. *)
Variable SAVEPARAM_PATHNAME_LEN : Z.

(** [resources] is what [arUtilGetResourcesDirectoryPath] returns. *)
Definition saveParam_paramPathname (resources : c_string) (timeptr : tm)
    : c_string :=
  snprintf [] SAVEPARAM_PATHNAME_LEN
    (resources ++ lit "/" ++ QUEUE_DIR ++ lit "/"
     ++ dec06 (saveParam_ID timeptr) ++ lit "-camera_para.dat").

Definition saveParam_indexPathname (resources : c_string) (timeptr : tm)
    : c_string :=
  snprintf [] SAVEPARAM_PATHNAME_LEN
    (resources ++ lit "/" ++ QUEUE_DIR ++ lit "/"
     ++ dec06 (saveParam_ID timeptr) ++ lit "-index").

(** [identifier[i] == '/' || identifier[i] == '\\' ? '_' : identifier[i]]. *)
Definition no_separator (c : char) : char :=
  if Ascii.eqb c "/"%char || Ascii.eqb c "\"%char then "_"%char else c.

(** The loop that copies the camera's identifier behind the [len]
    characters already in [calibrationSavePathname]; [i] is its counter. *)
Fixpoint copy_identifier (len i : Z) (identifier : c_string) : c_string :=
  match identifier with
  | [] => []
  | c :: rest =>
      if len + i + 2 <? SAVEPARAM_PATHNAME_LEN
      then no_separator c :: copy_identifier len (i + 1) rest
      else []
  end.

(** [snprintf(&buf[len], SAVEPARAM_PATHNAME_LEN - len, ...)] with
    [len = strlen(buf)]. *)
Definition snprintf_at_end (buf s : c_string) : c_string :=
  buf ++ snprintf [] (SAVEPARAM_PATHNAME_LEN - Z.of_nat (List.length buf)) s.

(** The name under which [saveParam] keeps a copy of the calibration, for
    a save directory that is set: [device_id] and [name] are what the video
    module returned ([None] for NULL), [focal_length] the text chosen for
    the focus preset. *)
Definition calibrationSavePathname (gCalibrationSaveDir : c_string)
    (device_id name : option c_string) (videoWidth videoHeight : Z)
    (focal_length : c_string) : c_string :=
  let p := snprintf [] SAVEPARAM_PATHNAME_LEN
             (gCalibrationSaveDir ++ lit "/camera_para-") in
  let identifier :=
    match device_id with
    | Some s => s
    | None => match name with Some s => s | None => [] end
    end in
  let p := p ++ copy_identifier (Z.of_nat (List.length p)) 0 identifier in
  let p := snprintf_at_end p
             (lit "-0-" ++ dec videoWidth ++ lit "x" ++ dec videoHeight) in
  let p := if negb (strcmp_eq focal_length (lit "0.000"))
           then snprintf_at_end p (lit "-" ++ focal_length)
           else p in
  snprintf_at_end p (lit ".dat").

(** The name when nothing is cut. *)
Definition full_name (gCalibrationSaveDir identifier : c_string)
    (videoWidth videoHeight : Z) (focal_length : c_string) : c_string :=
  gCalibrationSaveDir ++ lit "/camera_para-" ++ map no_separator identifier
  ++ lit "-0-" ++ dec videoWidth ++ lit "x" ++ dec videoHeight
  ++ (if strcmp_eq focal_length (lit "0.000") then []
      else lit "-" ++ focal_length)
  ++ lit ".dat".

End SaveParam.

End App.

(** ** Sample collaborators, for evaluating the model on concrete inputs *)

Definition sample_point : Point2f :=
  mkPoint2f (S754_finite false 3 0) (S754_finite false 5 0).

Definition sample_origin : Point2f := mkPoint2f (S754_zero false) (S754_zero false).

(** A detector that always finds one corner, a refinement that moves every
    corner to the origin, a solver that reports zero errors. *)
Definition sample_vision : Vision :=
  {| ARParam := unit;
     findChessboardCorners := fun _ _ => (true, [sample_point]);
     cornerSubPix := fun _ cs => map (fun _ => sample_origin) cs;
     calc := fun _ _ _ _ _ _ _ =>
       mkOutcome tt (S754_zero false) (S754_zero false) (S754_zero false);
     uninit := fun _ => x00 |}.

Definition sample_source : ARVideoSource :=
  mkVideoSource (Some [x01; x02; x03; x04]) 2 2.

Definition sample_session (patternType : CalibrationPatternType)
    (calibImageCountMax : Z) : Calibration :=
  @Calibration_new sample_vision patternType calibImageCountMax
    (mkSize 7 5) 30 2 2.

(** The operations that bring a fresh session to a published result with
    all features found: a frame is submitted, the worker finishes its job,
    the next [frame] publishes. *)
Definition sample_detection : list Op :=
  [OpFrame 0 0 sample_source; OpCornerFinder; OpFrame 1 0 sample_source].

Definition after_ops (ops : list Op) (c : Calibration) : Calibration :=
  match @run sample_vision ops c with
  | Returned c' => c'
  | _ => c
  end.

(** A session with maximum 2, nothing captured, a found result published. *)
Definition sample_published : Calibration :=
  Eval vm_compute in after_ops sample_detection (sample_session CHESSBOARD 2).

(** A session with maximum 1 and one captured set. *)
Definition sample_full : Calibration :=
  Eval vm_compute in
    after_ops (sample_detection ++ [OpCapture]) (sample_session CHESSBOARD 1).

(** A session with maximum -1 after one [capture()]. *)
Definition sample_negative : Calibration :=
  Eval vm_compute in
    after_ops (sample_detection ++ [OpCapture]) (sample_session CHESSBOARD (-1)).

(** A controller started on a fresh sample session; [callback] is the
    completion callback (0 for none). *)
Definition sample_flow (calibImageCountMax callback : Z) : FlowSys :=
  @flowStarted sample_vision flow_statics
    (sample_session CHESSBOARD calibImageCountMax) callback 0.

(** The operator starts a run with TOUCH and, once the controller waits in
    CAPTURING, presses BACK_BUTTON; the flow thread takes thirteen steps,
    the eighth of which is the capture wait returning BACK_BUTTON. *)
Definition sample_back_press : list (list EnvAction) :=
  [[]; []; []; [EnvPost EVENT_TOUCH]; []; []; [];
   [EnvPost EVENT_BACK_BUTTON]; []; []; []; []; []].

Definition system_after (sched : list (list EnvAction)) (s : FlowSys)
    : FlowSys :=
  match @interleave sample_vision sched s with
  | Some s' => s'
  | None => s
  end.

(** The sample controller right after its capture wait returned
    BACK_BUTTON, nothing captured. *)
Definition sample_back_received : FlowSys :=
  Eval vm_compute in
    system_after (firstn 8 sample_back_press) (sample_flow 10 1).





(** The sample controller right after its welcome wait returned TOUCH. *)
Definition sample_welcome_touch : FlowSys :=
  Eval vm_compute in
    system_after [[]; []; []; [EnvPost EVENT_TOUCH]] (sample_flow 10 1).

(** The same with MODAL: a settings dialog has been opened. *)
Definition sample_welcome_modal : FlowSys :=
  Eval vm_compute in
    system_after [[]; []; []; [EnvPost EVENT_MODAL]] (sample_flow 10 1).

(** The sample controller right after its capture wait returned TOUCH,
    a found result being published. *)
Definition sample_touch_received : FlowSys :=
  Eval vm_compute in
    system_after
      [[]; []; []; [EnvPost EVENT_TOUCH]; []; []; [];
       [EnvFrame 0 0 sample_source; EnvWorker 1 [sample_point];
        EnvFrame 1 0 sample_source; EnvPost EVENT_TOUCH]]
      (sample_flow 10 1).

(** [sample_touch_received] at the moment [flowStopAndFinal] has set
    [gStop]. *)
Definition sample_stop_requested : FlowSys :=
  let g := globals sample_touch_received in
  mkFlowSys
    (mkFlowGlobals (gInited g) (gState g) (gEvent g) (gEventMask g) true
       (gCallback g) (gCallbackUserdata g) (gEventCond_signals g))
    (gFlowCalib sample_touch_received) (thread sample_touch_received)
    (trace sample_touch_received).

(** The sample controller stopped right after its welcome wait returned
    TOUCH and a second TOUCH was accepted: the thread leaves at its test of
    the stop flag, and the second TOUCH stays in the mailbox. *)
Definition sample_stopped : FlowSys :=
  Eval vm_compute in
    snd (@flowStopAndFinal sample_vision 14 (fun _ => [])
           (@env_step sample_vision sample_welcome_touch
              (EnvPost EVENT_TOUCH))).

(** The statics of a controller waiting in CAPTURING, mailbox empty. *)
Definition sample_mailbox : FlowGlobals :=
  mkFlowGlobals true FLOW_STATE_CAPTURING EVENT_NONE
    (Z.lor EVENT_TOUCH EVENT_BACK_BUTTON) false 1 0 0.

(** A worker record after a detection that found one corner. *)
Definition sample_job : CalibrationCornerFinderData :=
  mkCornerFinderData CHESSBOARD (mkSize 7 5) 2 2
    (Some [x01; x02; x03; x04]) 1 [sample_point].


(** The frame pump stops in the middle of the copy, after the flag has
    been stored and before the corners are. *)
Definition sample_half_copied : list ResultLock.Label :=
  ResultLock.WorkerData sample_job :: repeat ResultLock.Publisher 8.


(** Samples for the upload queue and the saved files. *)
Module Samples.
Import Ascii String Upload App.

(** A handle whose status is to be hidden 9.5 s after the end of a pass,
    and the time at which a pass ends. *)
Definition sample_handle : FILE_UPLOAD_HANDLE_t :=
  fileUploaderInit (mkTimeval 9 500000).

Definition sample_time : timeval := mkTimeval 100 600000.

(** The handle after a pass that uploaded one file and ended at
    [sample_time], with status buffers of 128 characters. *)
Definition sample_uploaded : FILE_UPLOAD_HANDLE_t :=
  Eval vm_compute in fileUploader_end 128 sample_handle sample_time 1 0.

(** Polls that all come after the hide time of [sample_uploaded], early
    in their second. *)
Definition sample_polls : list (timeval * Z) :=
  [(mkTimeval 111 0, 0); (mkTimeval 200 99999, 1)].

(** A file with a comment, a blank line and one line ending in CR LF. *)
Definition sample_stream : list char :=
  lit "# index" ++ [LF; LF] ++ lit "key,value" ++ [CR; LF].

Definition sample_fields (paramPathname : c_string) : IndexFields :=
  mkIndexFields 4 paramPathname
    (lit "2018-03-01 12:00:00 +0000") (lit "windows") (lit "x86_64")
    (lit "10.0") (lit "leap/0") (lit "0.000") false 640 480
    (lit "0.100000") (lit "0.200000") (lit "0.300000")
    (lit "00112233445566778899aabbccddeeff").

Definition sample_index : IndexFields :=
  sample_fields (lit "/tmp/queue/120000-camera_para.dat").

(** The same with a path of 130 characters for the parameter file. *)
Definition sample_long_index : IndexFields :=
  sample_fields (repeat "a"%char 130).

(** Noon on two successive days. *)
Definition sample_noon : tm := mkTm 118 2 1 12 0 0.
Definition sample_next_noon : tm := mkTm 118 2 2 12 0 0.

End Samples.

(* ================================================================== *)
(** * Part II: properties                                              *)
(* ================================================================== *)

(** ** Integer conversions *)

Ltac int_bounds :=
  unfold in_int_range, INT_MIN, INT_MAX in *; lia.

Lemma size_t_to_int_small : forall n,
  0 <= n <= INT_MAX -> size_t_to_int n = n.
Proof.
  intros n Hn. unfold size_t_to_int, INT_MAX in *.
  rewrite Z.mod_small; lia.
Qed.

Lemma size_t_to_int_le : forall n, 0 <= n -> size_t_to_int n <= n.
Proof.
  intros n Hn. unfold size_t_to_int.
  pose proof (Z.mod_le (n + 2 ^ 31) (2 ^ 32)). lia.
Qed.

Lemma size_t_to_int_range : forall n, in_int_range (size_t_to_int n).
Proof.
  intros n. unfold size_t_to_int, in_int_range, INT_MIN, INT_MAX.
  pose proof (Z.mod_pos_bound (n + 2 ^ 31) (2 ^ 32)). lia.
Qed.

Lemma int_to_size_t_nonneg : forall i,
  0 <= i <= INT_MAX -> int_to_size_t i = i.
Proof.
  intros i Hi. unfold int_to_size_t, INT_MAX in *.
  apply Z.mod_small. lia.
Qed.

Lemma int_to_size_t_le : forall i, 0 <= i -> int_to_size_t i <= i.
Proof.
  intros i Hi. unfold int_to_size_t. apply Z.mod_le; lia.
Qed.

Lemma int_to_size_t_negative : forall i,
  INT_MIN <= i < 0 -> int_to_size_t i = 2 ^ 64 + i.
Proof.
  intros i Hi. unfold int_to_size_t, INT_MIN in *.
  symmetry. apply Z.mod_unique with (q := -1); lia.
Qed.

Lemma vector_size_nonneg : forall (A : Type) (v : list A), 0 <= vector_size v.
Proof. intros. unfold vector_size. lia. Qed.

Lemma vector_size_app1 : forall (A : Type) (v : list A) (x : A),
  vector_size (v ++ [x]) = vector_size v + 1.
Proof. intros. unfold vector_size. rewrite length_app. simpl. lia. Qed.

Lemma vector_size_zero : forall (A : Type) (v : list A),
  vector_size v <= 0 -> v = [].
Proof.
  intros A [|x v] H; [reflexivity|]. unfold vector_size in H. simpl in H. lia.
Qed.

Lemma removelast_snoc : forall (A : Type) (v : list A) (x : A),
  removelast (v ++ [x]) = v.
Proof.
  intros. rewrite removelast_app by discriminate. simpl. apply app_nil_r.
Qed.

Lemma vector_size_removelast : forall (A : Type) (v : list A),
  v <> [] -> vector_size (removelast v) = vector_size v - 1.
Proof.
  intros A v Hv. destruct (exists_last Hv) as (v' & x & ->).
  rewrite removelast_snoc, vector_size_app1. lia.
Qed.

(** ** The calibration session *)

Section SessionProperties.
Context {V : Vision}.

Lemma with_corners_id : forall c, with_corners c (m_corners c) = c.
Proof. intros []. reflexivity. Qed.

Lemma calibImageCount_small : forall c,
  vector_size (m_corners c) <= INT_MAX ->
  calibImageCount c = vector_size (m_corners c).
Proof.
  intros c H. unfold calibImageCount. apply size_t_to_int_small.
  pose proof (vector_size_nonneg (m_corners c)). lia.
Qed.

Lemma calibImageCount_le_size : forall c,
  calibImageCount c <= vector_size (m_corners c).
Proof.
  intros c. apply size_t_to_int_le, vector_size_nonneg.
Qed.

(** The guard of [capture] at a full session. *)
Lemma capture_full : forall c,
  0 <= m_calibImageCountMax c ->
  m_calibImageCountMax c <= vector_size (m_corners c) ->
  capture c = (false, c).
Proof.
  intros c H0 Hfull. unfold capture.
  pose proof (int_to_size_t_le H0).
  destruct (Z.geb_spec (vector_size (m_corners c))
              (int_to_size_t (m_calibImageCountMax c))); [reflexivity | lia].
Qed.

(** The guard of [capture] lets every session through whose count is below
    the maximum, and every session with a negative maximum. *)
Lemma capture_guard_open : forall c,
  session_ok c ->
  calibImageCount c <> calibImageCountMax c ->
  (vector_size (m_corners c) >=? int_to_size_t (m_calibImageCountMax c)) = false.
Proof.
  intros c (Hmax & Hsize & Hle) Hne.
  rewrite calibImageCount_small in Hne by assumption.
  unfold calibImageCountMax, in_int_range, INT_MIN, INT_MAX in *.
  pose proof (vector_size_nonneg (m_corners c)) as Hn.
  destruct (Z.geb_spec (vector_size (m_corners c))
              (int_to_size_t (m_calibImageCountMax c))) as [Hge|]; [|reflexivity].
  exfalso. destruct (Z.lt_ge_cases (m_calibImageCountMax c) 0) as [Hneg|Hpos].
  - rewrite int_to_size_t_negative in Hge
      by (unfold INT_MIN; lia). lia.
  - rewrite int_to_size_t_nonneg in Hge by (unfold INT_MAX; lia).
    specialize (Hle Hpos). lia.
Qed.

(** C2. [capture()] returns false and leaves the session as it is when
    the number of captured sets equals the maximum or the published result
    lacks the all-features-found flag; otherwise it refines the published
    corners with [cornerSubPix], appends them as the newest captured set
    (the collection grows by exactly one) and returns true. *)
Theorem capture_spec : forall c,
  session_ok c ->
  let r := m_cornerFinderResultData c in
  let refined := cornerSubPix (calibImage_of r) (corners r) in
  ((calibImageCount c = calibImageCountMax c \/ cornerFoundAllFlag r = 0) ->
   capture c = (false, c)) /\
  (calibImageCount c <> calibImageCountMax c -> cornerFoundAllFlag r <> 0 ->
   fst (capture c) = true /\
   m_corners (snd (capture c)) = m_corners c ++ [refined] /\
   vector_size (m_corners (snd (capture c))) = vector_size (m_corners c) + 1).
Proof.
  intros c Hok r refined. split.
  - intros [Heq | Hflag].
    + destruct Hok as (Hmax & Hsize & Hle).
      rewrite calibImageCount_small in Heq by assumption.
      unfold calibImageCountMax in Heq.
      pose proof (vector_size_nonneg (m_corners c)).
      apply capture_full; lia.
    + unfold capture. fold r. rewrite Hflag. simpl.
      destruct (_ >=? _); reflexivity.
  - intros Hne Hflag. unfold capture.
    rewrite (capture_guard_open Hok Hne). fold r.
    destruct (Z.eqb_spec (cornerFoundAllFlag r) 0) as [|_]; [contradiction|].
    simpl. fold refined. repeat split. apply vector_size_app1.
Qed.

(** C8. [uncapture()] on an empty collection returns false and changes
    nothing; on a collection whose newest element is [newest] it removes
    exactly that element, so the count drops by exactly one, and returns
    true. *)
Theorem uncapture_spec : forall c (cs : list (list Point2f)) (newest : list Point2f),
  uncapture (with_corners c []) = (false, with_corners c []) /\
  uncapture (with_corners c (cs ++ [newest])) = (true, with_corners c cs) /\
  vector_size (m_corners (snd (uncapture (with_corners c (cs ++ [newest])))))
    = vector_size (cs ++ [newest]) - 1.
Proof.
  intros c cs newest. split; [reflexivity|].
  assert (Hstep : uncapture (with_corners c (cs ++ [newest]))
                  = (true, with_corners c cs)).
  { unfold uncapture. cbn [m_corners with_corners].
    destruct (Z.leb_spec (vector_size (cs ++ [newest])) 0) as [Hle|_].
    - rewrite vector_size_app1 in Hle.
      pose proof (vector_size_nonneg cs). lia.
    - rewrite removelast_snoc. reflexivity. }
  split; [exact Hstep|].
  rewrite Hstep. cbn [snd m_corners with_corners].
  rewrite vector_size_app1. lia.
Qed.

Lemma uncapture_size : forall c,
  vector_size (m_corners (snd (uncapture c))) <= vector_size (m_corners c).
Proof.
  intros c. unfold uncapture.
  destruct (Z.leb_spec (vector_size (m_corners c)) 0) as [Hle|Hgt];
    cbn [snd]; [lia|].
  cbn [m_corners with_corners]. rewrite vector_size_removelast; [lia|].
  intros E. rewrite E in Hgt. unfold vector_size in Hgt. simpl in Hgt. lia.
Qed.

Lemma uncaptureAll_empty : forall c, m_corners (snd (uncaptureAll c)) = [].
Proof.
  intros c. unfold uncaptureAll.
  destruct (Z.leb_spec (vector_size (m_corners c)) 0) as [Hle|Hgt];
    cbn [snd]; [apply vector_size_zero; assumption | reflexivity].
Qed.

(** A sequence that returns has returned at each of its calls. *)
Lemma bind_Returned : forall (A B : Type) (o : outcome A)
    (k : A -> outcome B) (b : B),
  bind o k = Returned b -> exists a, o = Returned a /\ k a = Returned b.
Proof.
  intros A B [a| |] k b H; cbn in H; try discriminate. exists a. auto.
Qed.

Lemma publish_Returned : forall c c1,
  publish c = Returned c1 ->
  exists r,
    CornerFinderData_assign (m_cornerFinderResultData c)
      (m_cornerFinderData c) = Returned r /\
    c1 = with_cornerFinderResultData c r.
Proof.
  intros c c1 H. unfold publish in H. apply bind_Returned in H.
  destruct H as (r & Hr & [= <-]). exists r. auto.
Qed.

Lemma submit_Returned : forall c luma n c2,
  submit c luma n = Returned c2 ->
  in_int_range n /\
  exists f,
    memcpy (videoFrame (m_cornerFinderData c)) (Some luma) (int_to_size_t n)
      = Returned f /\
    c2 = with_cornerFinderData c (set_videoFrame (m_cornerFinderData c) f).
Proof.
  intros c luma n c2 H. unfold submit in H.
  destruct (Z.leb_spec INT_MIN n); [|discriminate].
  destruct (Z.leb_spec n INT_MAX); [|discriminate].
  cbn [andb] in H. apply bind_Returned in H.
  destruct H as (f & Hf & [= <-]). split; [split; assumption|].
  exists f. auto.
Qed.

(** A call of [frame] that returns, taken apart into its two steps. *)
Lemma frame_Returned : forall c status busy vs ret c' calls,
  frame c status busy vs = Returned (ret, c', calls) ->
  ret = true /\
  exists c1 calls1 calls2,
    calls = calls1 ++ calls2 /\
    (if status =? 0 then c1 = c /\ calls1 = []
     else publish c = Returned c1 /\ calls1 = [ThreadEndWait]) /\
    (if busy =? 0 then
       match vs_checkout vs with
       | Some luma =>
           submit c1 luma (vs_width vs * vs_height vs) = Returned c' /\
           calls2 = [CheckinFrame; ThreadStartSignal]
       | None => c' = c1 /\ calls2 = []
       end
     else c' = c1 /\ calls2 = []).
Proof.
  intros c status busy vs ret c' calls H. unfold frame in H.
  apply bind_Returned in H. destruct H as ([c1 calls1] & H1 & H).
  apply bind_Returned in H. destruct H as ([c2 calls2] & H2 & H).
  injection H as <- <- <-.
  split; [reflexivity|]. exists c1, calls1, calls2. split; [reflexivity|].
  split.
  - destruct (status =? 0); cbn [negb] in H1.
    + injection H1 as <- <-. auto.
    + apply bind_Returned in H1. destruct H1 as (c1' & Hp & H1).
      injection H1 as <- <-. auto.
  - destruct (busy =? 0).
    + destruct (vs_checkout vs) as [luma|].
      * apply bind_Returned in H2. destruct H2 as (c2' & Hs & H2).
        injection H2 as <- <-. auto.
      * injection H2 as <- <-. auto.
    + injection H2 as <- <-. auto.
Qed.

(** [frame] touches the two corner-finder records only. *)
Lemma frame_shape : forall c status busy vs ret c' calls,
  frame c status busy vs = Returned (ret, c', calls) ->
  exists d r,
    c' =
    mkCalibration d r (m_corners c) (m_calibImageCountMax c) (m_patternType c)
      (m_patternSize c) (m_chessboardSquareWidth c) (m_videoWidth c)
      (m_videoHeight c).
Proof.
  intros [d r cs mx pt ps sq w h] status busy vs ret c' calls H.
  apply frame_Returned in H.
  destruct H as (_ & c1 & calls1 & calls2 & _ & H1 & H2).
  assert (E1 : exists r1, c1 = mkCalibration d r1 cs mx pt ps sq w h).
  { destruct (status =? 0).
    - destruct H1 as (-> & _). eauto.
    - destruct H1 as (H1 & _). apply publish_Returned in H1.
      destruct H1 as (r1 & _ & ->). eexists. reflexivity. }
  destruct E1 as (r1 & ->). cbn.
  destruct (busy =? 0); [destruct (vs_checkout vs)|];
    try (destruct H2 as (-> & _); eauto).
  destruct H2 as (H2 & _). apply submit_Returned in H2.
  destruct H2 as (_ & f & _ & ->). do 2 eexists. reflexivity.
Qed.

Lemma frame_session_shape : forall c status busy vs,
  exists d r,
    frame_session c status busy vs =
    mkCalibration d r (m_corners c) (m_calibImageCountMax c) (m_patternType c)
      (m_patternSize c) (m_chessboardSquareWidth c) (m_videoWidth c)
      (m_videoHeight c).
Proof.
  intros c status busy vs. unfold frame_session.
  destruct (frame c status busy vs) as [[[ret c'] calls]| |] eqn:E;
    [exact (frame_shape _ _ _ _ E) | destruct c; eauto | destruct c; eauto].
Qed.

(** The operations of a sequence that returns. *)
Lemma step_frame_Returned : forall c status busy vs c',
  step (OpFrame status busy vs) c = Returned c' ->
  exists calls, frame c status busy vs = Returned (true, c', calls).
Proof.
  intros c status busy vs c' H. cbn [step] in H. apply bind_Returned in H.
  destruct H as ([[ret c1] calls] & Hf & H). injection H as <-.
  destruct (frame_Returned _ _ _ _ Hf) as (-> & _). exists calls. exact Hf.
Qed.

Lemma step_job_Returned : forall c c',
  step OpCornerFinder c = Returned c' ->
  exists d,
    cornerFinder_job (m_cornerFinderData c) = Returned d /\
    c' = with_cornerFinderData c d.
Proof.
  intros c c' H. cbn [step] in H. apply bind_Returned in H.
  destruct H as (d & Hd & H). injection H as <-. exists d. auto.
Qed.

Lemma run_cons_Returned : forall op ops c c',
  run (op :: ops) c = Returned c' ->
  exists c1, step op c = Returned c1 /\ run ops c1 = Returned c'.
Proof.
  intros op ops c c' H. cbn [run] in H. apply bind_Returned in H. exact H.
Qed.

(** Every operation keeps the maximum; none but [capture] adds a captured
    set, and [capture] adds one only below a non-negative maximum. *)
Lemma step_bounded : forall op c c',
  step op c = Returned c' ->
  0 <= m_calibImageCountMax c ->
  vector_size (m_corners c) <= m_calibImageCountMax c ->
  m_calibImageCountMax c' = m_calibImageCountMax c /\
  vector_size (m_corners c') <= m_calibImageCountMax c'.
Proof.
  intros op c c' Hstep H0 Hle.
  destruct op;
    [apply step_frame_Returned in Hstep | apply step_job_Returned in Hstep
     | cbn [step] in Hstep ..].
  - destruct Hstep as (calls & Hf).
    destruct (frame_shape _ _ _ _ Hf) as (d & r & ->).
    cbn. split; [reflexivity | exact Hle].
  - destruct Hstep as (d & _ & ->).
    destruct c; cbn in *. split; [reflexivity | exact Hle].
  - injection Hstep as <-. unfold capture.
    pose proof (int_to_size_t_le H0).
    destruct (Z.geb_spec (vector_size (m_corners c))
                (int_to_size_t (m_calibImageCountMax c))) as [Hge|Hlt];
      cbn [snd]; [split; [reflexivity | exact Hle]|].
    destruct (negb _); cbn [snd]; [|split; [reflexivity | exact Hle]].
    destruct c; cbn in *. rewrite vector_size_app1. split; [reflexivity | lia].
  - injection Hstep as <-. pose proof (uncapture_size c) as Hs.
    unfold uncapture in *. destruct (_ <=? _); destruct c; cbn in *;
      split; try reflexivity; lia.
  - injection Hstep as <-. pose proof (uncaptureAll_empty c) as He.
    unfold uncaptureAll in *. destruct (_ <=? _); destruct c; cbn in *;
      split; try reflexivity; lia.
Qed.

Lemma run_bounded : forall ops c c',
  run ops c = Returned c' ->
  0 <= m_calibImageCountMax c ->
  vector_size (m_corners c) <= m_calibImageCountMax c ->
  0 <= m_calibImageCountMax c' /\
  vector_size (m_corners c') <= m_calibImageCountMax c'.
Proof.
  induction ops as [|op ops IH]; intros c c' Hrun H0 Hle; cbn [run] in Hrun.
  - injection Hrun as <-. split; assumption.
  - apply bind_Returned in Hrun. destruct Hrun as (c1 & Hstep & Hrun).
    destruct (step_bounded op c Hstep H0 Hle) as (Hmx & Hle1).
    apply (IH c1 c' Hrun); [rewrite Hmx; exact H0 | exact Hle1].
Qed.

(** C1, as amended.  For a session constructed with a non-negative
    maximum, after any sequence of [frame], worker, [capture],
    [uncapture] and [uncaptureAll] steps the captured count does not exceed
    the maximum; and at a count equal to the maximum [capture()] returns
    false without appending. *)
Theorem capturedCount_le_maxCount :
  forall patternType calibImageCountMax_in patternSize chessboardSquareWidth
         videoWidth videoHeight ops c,
  0 <= calibImageCountMax_in ->
  run ops (Calibration_new patternType calibImageCountMax_in patternSize
             chessboardSquareWidth videoWidth videoHeight) = Returned c ->
  calibImageCount c <= calibImageCountMax c /\
  (calibImageCount c = calibImageCountMax c -> capture c = (false, c)).
Proof.
  intros pt mx ps sq w h ops c H0 Hrun.
  destruct (run_bounded ops _ Hrun) as (Hmx & Hle).
  { exact H0. }
  { cbn. unfold vector_size. simpl. exact H0. }
  unfold calibImageCountMax. pose proof (calibImageCount_le_size c) as Hc.
  split; [lia|].
  intros Heq. apply capture_full; [exact Hmx|].
  destruct (Z.le_gt_cases (vector_size (m_corners c)) INT_MAX) as [Hs|Hs].
  - rewrite calibImageCount_small in Heq by exact Hs. lia.
  - pose proof (size_t_to_int_range (vector_size (m_corners c))) as Hr.
    unfold calibImageCount, in_int_range in *. lia.
Qed.

End SessionProperties.

Section SessionOperations.
Context {V : Vision}.

(** The constructor establishes [session_ok], and every operation keeps
    it ([capture] as long as the count stays reportable as an [int],
    which a non-negative maximum guarantees). *)
Lemma Calibration_new_ok : forall pt mx ps sq w h,
  in_int_range mx -> session_ok (Calibration_new pt mx ps sq w h).
Proof.
  intros pt mx ps sq w h Hmx. unfold session_ok, INT_MAX. cbn.
  repeat split; try apply Hmx; unfold vector_size; simpl; lia.
Qed.

Lemma step_ok : forall op c c',
  step op c = Returned c' ->
  session_ok c ->
  (0 <= m_calibImageCountMax c \/ vector_size (m_corners c) < INT_MAX) ->
  session_ok c'.
Proof.
  intros op c c' Hstep (Hmax & Hsize & Hle) Hroom. unfold session_ok.
  destruct op;
    [apply step_frame_Returned in Hstep | apply step_job_Returned in Hstep
     | cbn [step] in Hstep ..].
  - destruct Hstep as (calls & Hf).
    destruct (frame_shape _ _ _ _ Hf) as (d & r & ->). cbn. auto.
  - destruct Hstep as (d & _ & ->). destruct c; cbn in *. auto.
  - injection Hstep as <-. unfold capture.
    destruct (Z.geb_spec (vector_size (m_corners c))
                (int_to_size_t (m_calibImageCountMax c))) as [Hge|Hlt];
      cbn [snd]; [auto|].
    destruct (negb _); cbn [snd]; [|auto].
    destruct c; cbn in *. rewrite vector_size_app1.
    unfold in_int_range in Hmax.
    split; [exact Hmax|].
    assert (Hbelow : 0 <= m_calibImageCountMax0 ->
                     vector_size m_corners0 + 1 <= m_calibImageCountMax0).
    { intros Hpos. rewrite int_to_size_t_nonneg in Hlt by lia. lia. }
    split; [|exact Hbelow]. destruct Hroom as [Hpos|Hlow]; [|int_bounds].
    specialize (Hbelow Hpos). int_bounds.
  - injection Hstep as <-. pose proof (uncapture_size c) as Hs.
    unfold uncapture in *. destruct (_ <=? _); destruct c; cbn [snd m_corners m_calibImageCountMax with_corners] in *;
      repeat split; try apply Hmax; try int_bounds;
      intros Hpos; specialize (Hle Hpos); int_bounds.
  - injection Hstep as <-. pose proof (uncaptureAll_empty c) as He.
    unfold uncaptureAll in *. destruct (_ <=? _); destruct c; cbn [snd m_corners m_calibImageCountMax with_corners] in *;
      repeat split; try apply Hmax; try int_bounds; auto;
      subst; unfold vector_size; simpl; int_bounds.
Qed.

(** *** The two copies of [frame] *)

Lemma memcpy_fits : forall dst src n,
  0 <= n <= Z.of_nat (length dst) -> n <= Z.of_nat (length src) ->
  memcpy (Some dst) (Some src) n
  = Returned (Some (firstn (Z.to_nat n) src ++ skipn (Z.to_nat n) dst)).
Proof.
  intros dst src n Hd Hs. unfold memcpy. cbn [bytes_at].
  destruct (Z.leb_spec 0 n); [|lia].
  destruct (Z.leb_spec n (Z.of_nat (length dst))); [|lia].
  destruct (Z.leb_spec n (Z.of_nat (length src))); [|lia].
  reflexivity.
Qed.

Lemma memcpy_whole : forall dst src n,
  length dst = Z.to_nat n -> length src = Z.to_nat n -> 0 <= n ->
  memcpy (Some dst) (Some src) n = Returned (Some src).
Proof.
  intros dst src n Hd Hs Hn. rewrite memcpy_fits by lia.
  rewrite <- Hs, firstn_all, skipn_all2, app_nil_r by lia. reflexivity.
Qed.

(** The byte count of [copy], computed in [size_t], is the product of the
    dimensions when the [int] product [init()] computes does not overflow. *)
Lemma copy_size : forall w h,
  0 < w -> 0 < h -> w * h <= INT_MAX ->
  (int_to_size_t w * int_to_size_t h) mod 2 ^ 64 = w * h.
Proof.
  intros w h Hw Hh Hwh.
  assert (w <= w * h) by nia. assert (h <= w * h) by nia.
  rewrite !int_to_size_t_nonneg by lia.
  apply Z.mod_small. unfold INT_MAX in *. lia.
Qed.

(** The value copy of a record with a properly allocated frame returns,
    and returns the record. *)
Lemma assign_frame_ok : forall this d,
  ResultLock.frame_ok d -> CornerFinderData_assign this d = Returned d.
Proof.
  intros this [pt ps w h f flag cs] (Hw & Hh & Hwh & px & Hf & Hlen).
  cbn [videoWidth videoHeight videoFrame] in *. subst f.
  unfold CornerFinderData_assign, CornerFinderData_copy,
    CornerFinderData_init.
  cbn [patternType patternSize videoWidth videoHeight videoFrame
       cornerFoundAllFlag corners].
  destruct (Z.ltb_spec 0 w); [|lia]. destruct (Z.ltb_spec 0 h); [|lia].
  cbn [andb]. rewrite (copy_size Hw Hh Hwh).
  rewrite memcpy_whole; [reflexivity | | exact Hlen | lia].
  rewrite length_map, length_seq. reflexivity.
Qed.

Lemma publish_frame_ok : forall c,
  ResultLock.frame_ok (m_cornerFinderData c) ->
  publish c = Returned (with_cornerFinderResultData c (m_cornerFinderData c)).
Proof.
  intros c Hd. unfold publish. rewrite (assign_frame_ok _ Hd). reflexivity.
Qed.

(** Neither copy calls [exit]. *)
Lemma frame_not_exit : forall c status busy vs code,
  frame c status busy vs <> ProcessExit code.
Proof.
  intros c status busy vs code.
  unfold frame, publish, submit, CornerFinderData_assign,
    CornerFinderData_copy, memcpy, bind.
  repeat match goal with
         | |- context [if ?b then _ else _] => destruct b
         | |- context [match vs_checkout vs with _ => _ end] =>
             destruct (vs_checkout vs)
         end;
    discriminate.
Qed.

(** A call of [frame] returns when the worker's record has a properly
    allocated frame and the submitted frame, if any, fits into it. *)
Lemma frame_returns : forall c status busy vs,
  ResultLock.frame_ok (m_cornerFinderData c) ->
  busy <> 0 \/ vs_checkout vs = None \/
  (exists luma,
     vs_checkout vs = Some luma /\
     0 <= vs_width vs * vs_height vs
       <= videoWidth (m_cornerFinderData c)
          * videoHeight (m_cornerFinderData c) /\
     vs_width vs * vs_height vs <= Z.of_nat (length luma)) ->
  exists c' calls, frame c status busy vs = Returned (true, c', calls).
Proof.
  intros c status busy vs Hd Hfits. unfold frame.
  assert (Hpub : exists c1 calls1,
            (if negb (status =? 0)
             then bind (publish c) (fun c1 => Returned (c1, [ThreadEndWait]))
             else Returned (c, []))
            = Returned (c1, calls1) /\
            m_cornerFinderData c1 = m_cornerFinderData c).
  { destruct (status =? 0); cbn [negb].
    - do 2 eexists. split; reflexivity.
    - rewrite (publish_frame_ok _ Hd). cbn [bind]. do 2 eexists.
      split; [reflexivity | destruct c; reflexivity]. }
  destruct Hpub as (c1 & calls1 & -> & Hc1). cbn [bind].
  destruct (Z.eqb_spec busy 0) as [Hb|Hb];
    [|cbn [bind]; do 2 eexists; reflexivity].
  destruct (vs_checkout vs) as [luma|] eqn:Hvs;
    [|cbn [bind]; do 2 eexists; reflexivity].
  destruct Hfits as [Hbusy | [Hnone | (luma' & Hl & Hn & Hlen)]];
    [contradiction | discriminate |].
  injection Hl as <-.
  destruct Hd as (Hw & Hh & Hwh & px & Hf & Hpx).
  unfold submit. rewrite Hc1, Hf.
  destruct (Z.leb_spec INT_MIN (vs_width vs * vs_height vs));
    [|unfold INT_MIN in *; lia].
  destruct (Z.leb_spec (vs_width vs * vs_height vs) INT_MAX); [|lia].
  cbn [andb]. rewrite int_to_size_t_nonneg by lia.
  rewrite memcpy_fits by lia. cbn [bind]. do 2 eexists. reflexivity.
Qed.

(** C10, as amended.  [frame(vs)] has a single [return], [return true]:
    every call that returns returns true, and no call ends the process
    with [exit].  When the worker is still busy (and no job is complete)
    the incoming frame is dropped: the call returns, nothing changes and
    no call is made.  When the source has no newer frame, nothing is
    submitted: a call that returns leaves the worker's record as it was
    and does not start the worker, and without a result to publish the
    call returns and the whole cycle changes nothing.  But the two
    [memcpy] of [frame] are unchecked, and a call whose copy does not fit
    has no defined result.  The call does return on a session whose
    worker record has a properly allocated frame when the worker is busy,
    or the source has no newer frame, or the source reports at most as
    many pixels as the buffer holds and its luma plane has them. *)
Theorem frame_returns_true : forall c status busy vs,
  (forall ret c' calls,
     frame c status busy vs = Returned (ret, c', calls) -> ret = true) /\
  (forall code, frame c status busy vs <> ProcessExit code) /\
  (status = 0 -> busy <> 0 -> frame c status busy vs = Returned (true, c, [])) /\
  (vs_checkout vs = None ->
   (forall ret c' calls,
      frame c status busy vs = Returned (ret, c', calls) ->
      m_cornerFinderData c' = m_cornerFinderData c /\
      ~ In ThreadStartSignal calls) /\
   (status = 0 -> frame c status busy vs = Returned (true, c, []))) /\
  (ResultLock.frame_ok (m_cornerFinderData c) ->
   busy <> 0 \/ vs_checkout vs = None \/
   (exists luma,
      vs_checkout vs = Some luma /\
      0 <= vs_width vs * vs_height vs
        <= videoWidth (m_cornerFinderData c)
           * videoHeight (m_cornerFinderData c) /\
      vs_width vs * vs_height vs <= Z.of_nat (length luma)) ->
   exists c' calls, frame c status busy vs = Returned (true, c', calls)).
Proof.
  intros c status busy vs. split; [|split; [|split; [|split]]].
  - intros ret c' calls H. apply (frame_Returned _ _ _ _ H).
  - apply frame_not_exit.
  - intros -> Hbusy. unfold frame. cbn.
    destruct (Z.eqb_spec busy 0); [contradiction | reflexivity].
  - intros Hvs. split.
    + intros ret c' calls H. apply frame_Returned in H.
      destruct H as (_ & c1 & calls1 & calls2 & -> & H1 & H2).
      rewrite Hvs in H2.
      assert (E2 : c' = c1 /\ calls2 = [])
        by (destruct (busy =? 0); exact H2).
      destruct E2 as (-> & ->).
      destruct (status =? 0).
      * destruct H1 as (-> & ->). split; [reflexivity | intros []].
      * destruct H1 as (H1 & ->). apply publish_Returned in H1.
        destruct H1 as (r & _ & ->). split; [destruct c; reflexivity|].
        cbn. intuition discriminate.
    + intros ->. unfold frame. rewrite Hvs. cbn.
      destruct (busy =? 0); reflexivity.
  - apply frame_returns.
Qed.

(** The published result after each operation. *)
Lemma capture_result : forall c,
  m_cornerFinderResultData (snd (capture c)) =
  if fst (capture c)
  then set_corners (m_cornerFinderResultData c)
         (cornerSubPix (calibImage_of (m_cornerFinderResultData c))
            (corners (m_cornerFinderResultData c)))
  else m_cornerFinderResultData c.
Proof.
  intros c. unfold capture. destruct (_ >=? _); [reflexivity|].
  destruct (negb _); reflexivity.
Qed.

Lemma frame_result : forall c status busy vs ret c' calls,
  frame c status busy vs = Returned (ret, c', calls) ->
  Returned (m_cornerFinderResultData c') =
  if status =? 0 then Returned (m_cornerFinderResultData c)
  else CornerFinderData_assign (m_cornerFinderResultData c)
         (m_cornerFinderData c).
Proof.
  intros c status busy vs ret c' calls H. apply frame_Returned in H.
  destruct H as (_ & c1 & calls1 & calls2 & _ & H1 & H2).
  assert (E : m_cornerFinderResultData c' = m_cornerFinderResultData c1).
  { destruct (busy =? 0); [destruct (vs_checkout vs)|];
      try (destruct H2 as (-> & _); reflexivity).
    destruct H2 as (H2 & _). apply submit_Returned in H2.
    destruct H2 as (_ & f & _ & ->). reflexivity. }
  rewrite E. destruct (status =? 0).
  - destruct H1 as (-> & _). reflexivity.
  - destruct H1 as (H1 & _). apply publish_Returned in H1.
    destruct H1 as (r & -> & ->). reflexivity.
Qed.

(** C7, as amended.  The published result changes in two ways only.
    [frame], on return, has superseded it wholesale with the value copy
    of the worker's record when a detection has completed, and has left it
    alone otherwise.
    A successful [capture()] replaces its corner sequence, in place, by the
    sub-pixel refinement of that sequence, and leaves the frame, the flag
    and every other member as they are; a failing [capture()] changes
    nothing.  [uncapture], [uncaptureAll] and the fetch change nothing of
    it, and the worker writes to its own record only. *)
Theorem published_result_changes : forall c status busy vs,
  let r := m_cornerFinderResultData c in
  (forall ret c' calls,
     frame c status busy vs = Returned (ret, c', calls) ->
     Returned (m_cornerFinderResultData c')
     = (if status =? 0 then Returned r
        else CornerFinderData_assign r (m_cornerFinderData c))) /\
  m_cornerFinderResultData (snd (capture c))
    = (if fst (capture c)
       then set_corners r (cornerSubPix (calibImage_of r) (corners r))
       else r) /\
  videoFrame (m_cornerFinderResultData (snd (capture c))) = videoFrame r /\
  cornerFoundAllFlag (m_cornerFinderResultData (snd (capture c)))
    = cornerFoundAllFlag r /\
  m_cornerFinderResultData (snd (uncapture c)) = r /\
  m_cornerFinderResultData (snd (uncaptureAll c)) = r /\
  snd (cornerFinderResultsLockAndFetch c)
    = (cornerFoundAllFlag r, corners r, videoFrame r) /\
  (forall d, m_cornerFinderResultData (with_cornerFinderData c d) = r).
Proof.
  intros c status busy vs r. subst r.
  split; [apply frame_result|]. split; [apply capture_result|].
  split; [|split].
  - rewrite capture_result. destruct (fst (capture c)); reflexivity.
  - rewrite capture_result. destruct (fst (capture c)); reflexivity.
  - repeat split.
    + unfold uncapture. destruct (_ <=? _); reflexivity.
    + unfold uncaptureAll. destruct (_ <=? _); reflexivity.
Qed.

(** No operation of the session changes the pattern type of the worker's
    record. *)
Lemma step_patternType : forall op c c',
  step op c = Returned c' ->
  patternType (m_cornerFinderData c') = patternType (m_cornerFinderData c).
Proof.
  intros op c c' Hstep.
  destruct op;
    [apply step_frame_Returned in Hstep | apply step_job_Returned in Hstep
     | cbn [step] in Hstep ..].
  - destruct Hstep as (calls & Hf). apply frame_Returned in Hf.
    destruct Hf as (_ & c1 & calls1 & calls2 & _ & H1 & H2).
    assert (E1 : m_cornerFinderData c1 = m_cornerFinderData c).
    { destruct (status =? 0).
      - destruct H1 as (-> & _). reflexivity.
      - destruct H1 as (H1 & _). apply publish_Returned in H1.
        destruct H1 as (r & _ & ->). destruct c; reflexivity. }
    rewrite <- E1.
    destruct (busy =? 0); [destruct (vs_checkout vs)|];
      try (destruct H2 as (-> & _); reflexivity).
    destruct H2 as (H2 & _). apply submit_Returned in H2.
    destruct H2 as (_ & f & _ & ->). destruct c1; reflexivity.
  - destruct Hstep as (d & Hjob & ->). unfold cornerFinder_job in Hjob.
    destruct (patternType (m_cornerFinderData c)) eqn:Hpt; try discriminate.
    destruct (findChessboardCorners _ _). injection Hjob as <-.
    destruct c; cbn in *. exact Hpt.
  - injection Hstep as <-. unfold capture. destruct (_ >=? _); [reflexivity|].
    destruct (negb _); destruct c; reflexivity.
  - injection Hstep as <-. unfold uncapture.
    destruct (_ <=? _); destruct c; reflexivity.
  - injection Hstep as <-. unfold uncaptureAll.
    destruct (_ <=? _); destruct c; reflexivity.
Qed.

(** On a session for an unsupported pattern type a sequence of operations
    either contains no worker job, or ends the process, or has no defined
    result because a copy of [frame] does not fit. *)
Lemma run_unsupported : forall ops c,
  patternType (m_cornerFinderData c) <> CHESSBOARD ->
  (exists c', run ops c = Returned c' /\ ~ In OpCornerFinder ops) \/
  run ops c = ProcessExit 0 \/
  run ops c = Fault.
Proof.
  induction ops as [|op ops IH]; intros c Hpt; cbn [run].
  - left. exists c. split; [reflexivity | intros []].
  - destruct (step op c) as [c1|code|] eqn:Hstep; cbn [bind].
    + assert (Hop : op <> OpCornerFinder).
      { intros ->. apply step_job_Returned in Hstep.
        destruct Hstep as (d & Hjob & _). unfold cornerFinder_job in Hjob.
        destruct (patternType (m_cornerFinderData c));
          [contradiction | discriminate | discriminate]. }
      destruct (IH c1) as [(c' & Hrun & Hnot) | Hexit].
      * rewrite (step_patternType op c Hstep). exact Hpt.
      * left. exists c'. split; [exact Hrun|].
        intros [Heq | Hin]; [exact (Hop Heq) | exact (Hnot Hin)].
      * right. exact Hexit.
    + right. left. destruct op; cbn [step] in Hstep; try discriminate.
      * exfalso. destruct (frame c status busy vs) as [a| |] eqn:Hf;
          cbn [bind] in Hstep; try discriminate.
        injection Hstep as ->. exact (frame_not_exit _ _ _ _ Hf).
      * unfold cornerFinder_job in Hstep.
        destruct (patternType (m_cornerFinderData c)); cbn [bind] in Hstep;
          congruence.
    + right. right. reflexivity.
Qed.

(** C6, as amended.  The constructor accepts every pattern type: it
    stores the type, unchecked, in the session and in both corner-finder
    records.  The type is examined by the worker, once per job: for
    [CHESSBOARD] the job stores the detector's outputs, for any other type
    the worker terminates the process with [exit(0)] before any detection
    routine is called.  So on a session constructed for an unsupported
    type no job ever completes: a sequence of operations either contains
    no worker job, or ends the process, or has no defined result because a
    copy of [frame] does not fit its buffers. *)
Theorem pattern_type_checked_by_worker :
  forall patternType_in calibImageCountMax_in patternSize_in
         chessboardSquareWidth videoWidth_in videoHeight_in
         (d : CalibrationCornerFinderData) (ops : list Op),
  let c := Calibration_new patternType_in calibImageCountMax_in patternSize_in
             chessboardSquareWidth videoWidth_in videoHeight_in in
  m_patternType c = patternType_in /\
  patternType (m_cornerFinderData c) = patternType_in /\
  patternType (m_cornerFinderResultData c) = patternType_in /\
  cornerFinder_job d =
    match patternType d with
    | CHESSBOARD =>
        Returned
          (set_flag_corners d
             (if fst (findChessboardCorners (calibImage_of d) (patternSize d))
              then 1 else 0)
             (snd (findChessboardCorners (calibImage_of d) (patternSize d))))
    | _ => ProcessExit 0
    end /\
  (patternType_in <> CHESSBOARD ->
   (exists c', run ops c = Returned c' /\ ~ In OpCornerFinder ops) \/
   run ops c = ProcessExit 0 \/
   run ops c = Fault).
Proof.
  intros pt mx ps sq w h d ops c. subst c.
  split; [reflexivity|]. split; [reflexivity|]. split; [reflexivity|].
  split.
  - unfold cornerFinder_job. destruct (patternType d); try reflexivity.
    destruct (findChessboardCorners _ _); reflexivity.
  - intros Hpt. apply run_unsupported. exact Hpt.
Qed.

End SessionOperations.

(** ** The session on concrete inputs *)

(** C1, counterexample.  A session constructed with maximum -1 has count 0
    above its maximum from the start; and since the guard of [capture]
    compares the unsigned size with the maximum converted to [size_t], the
    guard stays open and a capture brings the count to 1. *)
Lemma negative_maximum_exceeded :
  ~ (calibImageCount (sample_session CHESSBOARD (-1))
       <= calibImageCountMax (sample_session CHESSBOARD (-1))) /\
  @run sample_vision (sample_detection ++ [OpCapture])
    (sample_session CHESSBOARD (-1)) = Returned sample_negative /\
  calibImageCount sample_negative = 1 /\
  calibImageCountMax sample_negative = -1 /\
  ~ (calibImageCount sample_negative <= calibImageCountMax sample_negative).
Proof.
  split; [vm_compute; intros H; apply H; reflexivity|].
  split; [vm_compute; reflexivity|].
  split; [vm_compute; reflexivity|].
  split; [vm_compute; reflexivity|].
  vm_compute. intros H; apply H; reflexivity.
Qed.

Lemma capturedCount_le_maxCount_witness :
  0 <= 1 /\
  @run sample_vision (sample_detection ++ [OpCapture])
    (@Calibration_new sample_vision CHESSBOARD 1 (mkSize 7 5) 30 2 2)
    = Returned sample_full /\
  (calibImageCount sample_full <= calibImageCountMax sample_full /\
   (calibImageCount sample_full = calibImageCountMax sample_full ->
    @capture sample_vision sample_full = (false, sample_full))).
Proof.
  split; [lia|]. split; [reflexivity|].
  apply (@capturedCount_le_maxCount sample_vision CHESSBOARD 1 (mkSize 7 5)
           30 2 2 (sample_detection ++ [OpCapture]) sample_full);
    [lia | reflexivity].
Defined.

Lemma sample_published_ok : session_ok sample_published.
Proof.
  unfold session_ok, in_int_range, INT_MIN, INT_MAX, vector_size. simpl. lia.
Defined.

Lemma capture_spec_witness :
  session_ok sample_published /\
  let r := m_cornerFinderResultData sample_published in
  let refined := @cornerSubPix sample_vision (calibImage_of r) (corners r) in
  ((calibImageCount sample_published = calibImageCountMax sample_published \/
    cornerFoundAllFlag r = 0) ->
   @capture sample_vision sample_published = (false, sample_published)) /\
  (calibImageCount sample_published <> calibImageCountMax sample_published ->
   cornerFoundAllFlag r <> 0 ->
   fst (@capture sample_vision sample_published) = true /\
   m_corners (snd (@capture sample_vision sample_published))
     = m_corners sample_published ++ [refined] /\
   vector_size (m_corners (snd (@capture sample_vision sample_published)))
     = vector_size (m_corners sample_published) + 1).
Proof.
  split; [exact sample_published_ok|].
  exact (@capture_spec sample_vision sample_published sample_published_ok).
Defined.

(** C10, counterexample.  Three calls of [frame] that do not return true,
    because their [memcpy] leaves its buffers.  On a session constructed
    with dimensions 0 x 0 the worker's buffer is the null pointer, and a
    frame of the source is copied to it.  On the 2 x 2 session a source
    that reports 3 x 3 has nine bytes copied into a buffer of four.  On a
    session constructed with dimensions -2 x 2 the buffers are null, and
    the publishing copy computes the byte count 2^64 - 4. *)
Lemma frame_faults_when_copy_does_not_fit :
  @frame sample_vision
    (@Calibration_new sample_vision CHESSBOARD 10 (mkSize 7 5) 30 0 0)
    0 0 sample_source = Fault /\
  @frame sample_vision (sample_session CHESSBOARD 10) 0 0
    (mkVideoSource (Some [x01; x02; x03; x04; x05; x06; x07; x08; x09]) 3 3)
    = Fault /\
  @frame sample_vision
    (@Calibration_new sample_vision CHESSBOARD 10 (mkSize 7 5) 30 (-2) 2)
    1 1 sample_source = Fault /\
  (int_to_size_t (-2) * int_to_size_t 2) mod 2 ^ 64 = 2 ^ 64 - 4.
Proof. repeat split. Qed.

Lemma published_result_changes_witness :
  exists c',
    @frame sample_vision
      (after_ops [OpFrame 0 0 sample_source; OpCornerFinder]
         (sample_session CHESSBOARD 2)) 1 0 sample_source
    = Returned (true, c', [ThreadEndWait; CheckinFrame; ThreadStartSignal]) /\
    m_cornerFinderResultData c' = sample_job.
Proof.
  eexists. split; [reflexivity|].
  pose proof (@published_result_changes sample_vision
                (after_ops [OpFrame 0 0 sample_source; OpCornerFinder]
                   (sample_session CHESSBOARD 2)) 1 0 sample_source) as H.
  cbv zeta in H. destruct H as (H & _).
  specialize (H _ _ _ eq_refl).
  exact (f_equal (fun o => match o with
                           | Returned r => r
                           | _ => sample_job
                           end) H).
Defined.

(** C7, counterexample.  With a found result published, [capture()]
    rewrites the published corner sequence: before the call it holds the
    detected corner, after the call the refined one. *)
Lemma capture_rewrites_published_corners :
  corners (m_cornerFinderResultData sample_published) = [sample_point] /\
  corners (m_cornerFinderResultData (snd (@capture sample_vision sample_published)))
    = [sample_origin] /\
  m_cornerFinderResultData (snd (@capture sample_vision sample_published))
    <> m_cornerFinderResultData sample_published.
Proof.
  split; [reflexivity|]. split; [reflexivity|].
  vm_compute. intros H. discriminate H.
Qed.

(** C6, counterexample.  Constructing a session for [CIRCLES_GRID] yields a
    session like any other; [frame] submits a job for it (the worker is
    started); it is the job that ends the process. *)
Lemma unsupported_pattern_detected_by_job :
  m_patternType (sample_session CIRCLES_GRID 10) = CIRCLES_GRID /\
  (exists c',
     @frame sample_vision (sample_session CIRCLES_GRID 10) 0 0 sample_source
       = Returned (true, c', [CheckinFrame; ThreadStartSignal]) /\
     @cornerFinder_job sample_vision (m_cornerFinderData c')
       = ProcessExit 0) /\
  @run sample_vision sample_detection (sample_session CIRCLES_GRID 10)
    = ProcessExit 0.
Proof.
  split; [reflexivity|]. split; [|reflexivity].
  eexists. split; reflexivity.
Qed.

(** ** The event mailbox *)

Lemma last_in_mask_snoc : forall mask events e,
  last_in_mask mask (events ++ [e]) =
  if Z.land e mask =? EVENT_NONE then last_in_mask mask events else Some e.
Proof.
  intros. unfold last_in_mask. rewrite fold_left_app. reflexivity.
Qed.

Lemma post_all_snoc : forall events e g,
  post_all (events ++ [e]) g = snd (flowHandleEvent e (post_all events g)).
Proof.
  intros. unfold post_all. rewrite fold_left_app. reflexivity.
Qed.

(** What a burst of posts leaves behind: the mask, the stop flag and
    [gInited] as they were, and in the mailbox the last event of the burst
    that intersects the mask (the pending event if there is none). *)
Lemma post_all_mailbox : forall events g,
  gInited g = true ->
  gInited (post_all events g) = true /\
  gEventMask (post_all events g) = gEventMask g /\
  gStop (post_all events g) = gStop g /\
  gEvent (post_all events g) =
    match last_in_mask (gEventMask g) events with
    | Some e => e
    | None => gEvent g
    end.
Proof.
  intros events g Hg. induction events as [|e events IH] using rev_ind.
  - cbn. auto.
  - destruct IH as (Hi & Hm & Hs & He).
    rewrite post_all_snoc, last_in_mask_snoc. unfold flowHandleEvent.
    rewrite Hi, Hm. cbn [negb].
    destruct (Z.land e (gEventMask g) =? EVENT_NONE); cbn; auto.
Qed.

Lemma last_in_mask_intersects : forall mask events e,
  last_in_mask mask events = Some e -> Z.land e mask <> EVENT_NONE.
Proof.
  intros mask events. induction events as [|x events IH] using rev_ind;
    intros e H.
  - discriminate.
  - rewrite last_in_mask_snoc in H.
    destruct (Z.eqb_spec (Z.land x mask) EVENT_NONE) as [|Hx].
    + apply IH, H.
    + injection H as <-. exact Hx.
Qed.

(** C5.  On a running controller an event outside the mask is discarded:
    [flowHandleEvent] returns false, stores nothing and signals no one.
    An event inside the mask takes the single slot, whatever was pending,
    and signals the condition once.  After any burst of posts, the
    consumer's next wait returns the most recently posted in-mask event of
    the burst and empties the mailbox, so the burst is observed as that one
    event: a second wait finds nothing and blocks. *)
Theorem mailbox_one_deep : forall (g : FlowGlobals) (e : EVENT_t)
    (events : list EVENT_t) (newest : EVENT_t),
  gInited g = true ->
  (Z.land e (gEventMask g) = EVENT_NONE -> flowHandleEvent e g = (false, g)) /\
  (Z.land e (gEventMask g) <> EVENT_NONE ->
   fst (flowHandleEvent e g) = true /\
   gEvent (snd (flowHandleEvent e g)) = e /\
   gEventCond_signals (snd (flowHandleEvent e g)) = S (gEventCond_signals g)) /\
  (last_in_mask (gEventMask g) events = Some newest ->
   exists g',
     flowWaitForEvent (post_all events g) = Some (newest, g') /\
     gEvent g' = EVENT_NONE /\
     (gStop g = false -> flowWaitForEvent g' = None)).
Proof.
  intros g e events newest Hg. split; [|split].
  - intros Hout. unfold flowHandleEvent. rewrite Hg, Hout. reflexivity.
  - intros Hin. unfold flowHandleEvent. rewrite Hg. cbn [negb].
    destruct (Z.eqb_spec (Z.land e (gEventMask g)) EVENT_NONE);
      [contradiction | cbn; auto].
  - intros Hlast.
    destruct (@post_all_mailbox events g Hg) as (_ & _ & Hs & He).
    rewrite Hlast in He.
    pose proof (last_in_mask_intersects _ _ Hlast) as Hne.
    assert (Hnz : newest <> EVENT_NONE).
    { intros ->. apply Hne. reflexivity. }
    unfold flowWaitForEvent at 1. rewrite He.
    destruct (Z.eqb_spec newest EVENT_NONE); [contradiction|]. cbn [andb].
    eexists. split; [reflexivity|]. split; [reflexivity|].
    intros Hstop. unfold flowWaitForEvent. cbn. rewrite Hs, Hstop. reflexivity.
Qed.

(** ** The flow thread *)

Section FlowProperties.
Context {V : Vision}.

Local Arguments size_t_to_int : simpl never.
Local Arguments int_to_size_t : simpl never.
Local Arguments vector_size : simpl never.
Local Arguments Z.ltb : simpl never.
Local Arguments Z.eqb : simpl never.
Local Arguments Z.land : simpl never.
Local Arguments Z.lor : simpl never.

Lemma uncaptureAll_shape : forall c,
  uncaptureAll c
  = (negb (vector_size (m_corners c) <=? 0), with_corners c []).
Proof.
  intros c. unfold uncaptureAll.
  destruct (Z.leb_spec (vector_size (m_corners c)) 0) as [Hle|Hgt];
    [|reflexivity].
  cbn [negb]. rewrite <- (vector_size_zero _ Hle). rewrite with_corners_id.
  reflexivity.
Qed.

Lemma uncapture_shape : forall c,
  uncapture c
  = (negb (vector_size (m_corners c) <=? 0),
     with_corners c (removelast (m_corners c))).
Proof.
  intros c. unfold uncapture.
  destruct (Z.leb_spec (vector_size (m_corners c)) 0) as [Hle|Hgt];
    [|reflexivity].
  cbn [negb]. rewrite (vector_size_zero _ Hle). cbn [removelast].
  rewrite <- (vector_size_zero _ Hle). rewrite with_corners_id. reflexivity.
Qed.

(** The other threads change the mailbox, the signal count, the two
    corner-finder records and, once, [gInited], and nothing else: not the
    flow thread's locals, its trace, the flow state, the mask, the stop
    flag or the captured sets. *)
Lemma env_step_shape :
  forall a inited st ev mask stop cb ud sig d r cs mx pt ps sq w h t tr,
  exists inited' ev' sig' d' r',
    env_step
      (mkFlowSys (mkFlowGlobals inited st ev mask stop cb ud sig)
         (mkCalibration d r cs mx pt ps sq w h) t tr) a
    = mkFlowSys (mkFlowGlobals inited' st ev' mask stop cb ud sig')
        (mkCalibration d' r' cs mx pt ps sq w h) t tr /\
    (inited' = true <-> inited = true \/ a = EnvInited).
Proof.
  intros. destruct a as [e|status busy vs|flag cs'|].
  - cbn [env_step globals gFlowCalib thread trace]. unfold flowHandleEvent.
    cbn [gInited gEventMask].
    destruct (negb inited);
      [cbn; do 5 eexists; split; [reflexivity | intuition discriminate]|].
    destruct (Z.land e mask =? EVENT_NONE); cbn; do 5 eexists;
      (split; [reflexivity | intuition discriminate]).
  - cbn [env_step globals gFlowCalib thread trace].
    destruct (frame_session_shape (mkCalibration d r cs mx pt ps sq w h) status
                busy vs)
      as (d' & r' & ->). cbn. do 5 eexists.
    split; [reflexivity | intuition discriminate].
  - cbn. do 5 eexists. split; [reflexivity | intuition discriminate].
  - cbn. do 5 eexists. split; [reflexivity | intuition].
Qed.

Lemma env_steps_shape :
  forall acts inited st ev mask stop cb ud sig d r cs mx pt ps sq w h t tr,
  exists inited' ev' sig' d' r',
    env_steps acts
      (mkFlowSys (mkFlowGlobals inited st ev mask stop cb ud sig)
         (mkCalibration d r cs mx pt ps sq w h) t tr)
    = mkFlowSys (mkFlowGlobals inited' st ev' mask stop cb ud sig')
        (mkCalibration d' r' cs mx pt ps sq w h) t tr /\
    (inited' = true <-> inited = true \/ In EnvInited acts).
Proof.
  unfold env_steps. induction acts as [|a acts IH]; intros.
  - cbn. do 5 eexists. split; [reflexivity | tauto].
  - cbn [fold_left].
    destruct (env_step_shape a inited st ev mask stop cb ud sig d r cs mx pt
                ps sq w h t tr) as (i1 & ev1 & sig1 & d1 & r1 & -> & Hi1).
    destruct (IH i1 st ev1 mask stop cb ud sig1 d1 r1 cs mx pt ps sq w h t tr)
      as (i2 & ev2 & sig2 & d2 & r2 & -> & Hi2).
    do 5 eexists. split; [reflexivity|]. cbn [In].
    rewrite Hi2, Hi1. intuition congruence.
Qed.

(** On a controller whose [gInited] is set it stays set. *)
Lemma env_steps_shape_inited :
  forall acts st ev mask stop cb ud sig d r cs mx pt ps sq w h t tr,
  exists ev' sig' d' r',
    env_steps acts
      (mkFlowSys (mkFlowGlobals true st ev mask stop cb ud sig)
         (mkCalibration d r cs mx pt ps sq w h) t tr)
    = mkFlowSys (mkFlowGlobals true st ev' mask stop cb ud sig')
        (mkCalibration d' r' cs mx pt ps sq w h) t tr.
Proof.
  intros.
  destruct (env_steps_shape acts true st ev mask stop cb ud sig d r cs mx pt
              ps sq w h t tr) as (i & ev' & sig' & d' & r' & -> & Hi).
  replace i with true by (symmetry; apply Hi; left; reflexivity).
  do 4 eexists. reflexivity.
Qed.

(** Let the other threads act, then bring the system back to its explicit
    form. *)
Ltac after_env :=
  match goal with
  | |- context [env_steps ?acts
                  (mkFlowSys (mkFlowGlobals true ?st ?ev ?m ?stop ?cb ?ud ?sig)
                     (mkCalibration ?d ?r ?cs ?mx ?pt ?ps ?sq ?w ?h) ?t ?tr)] =>
      let ev' := fresh "ev" in
      let sig' := fresh "sig" in
      let d' := fresh "d" in
      let r' := fresh "r" in
      destruct (env_steps_shape_inited acts st ev m stop cb ud sig d r cs mx
                  pt ps sq w h t tr) as (ev' & sig' & d' & r' & ->)
  | |- context [env_steps ?acts
                  (mkFlowSys (mkFlowGlobals ?i ?st ?ev ?m ?stop ?cb ?ud ?sig)
                     (mkCalibration ?d ?r ?cs ?mx ?pt ?ps ?sq ?w ?h) ?t ?tr)] =>
      let i' := fresh "inited" in
      let ev' := fresh "ev" in
      let sig' := fresh "sig" in
      let d' := fresh "d" in
      let r' := fresh "r" in
      destruct (env_steps_shape acts i st ev m stop cb ud sig d r cs mx pt ps
                  sq w h t tr) as (i' & ev' & sig' & d' & r' & -> & _)
  end.

Ltac flow_fields :=
  cbn [pc thread globals gFlowCalib trace event result
       captureDoneSinceBackButtonLastPressed gStop gInited gCallback
       gCallbackUserdata gState gEvent gEventMask gEventCond_signals negb].

Ltac session_fields :=
  unfold with_corners, with_cornerFinderData, with_cornerFinderResultData;
  cbn [m_corners m_cornerFinderData m_cornerFinderResultData
       m_calibImageCountMax m_patternType m_patternSize
       m_chessboardSquareWidth m_videoWidth m_videoHeight fst snd].

Ltac run_step :=
  unfold flowThread_step; flow_fields;
  unfold jump, mask_step, state_step, wait_step, goto, flowSetEventMask,
    flowStateSet;
  flow_fields.

Ltac thread_step := cbn [interleave]; after_env; run_step.



Ltac inv_done :=
  repeat match goal with H : _ /\ _ |- _ => destruct H end; subst;
  intuition (try discriminate; try int_bounds).

Lemma capture_shape : forall d r cs mx pt ps sq w h,
  exists b r' cs',
    capture (mkCalibration d r cs mx pt ps sq w h)
    = (b, mkCalibration d r' cs' mx pt ps sq w h) /\
    ((b = false /\ cs' = cs) \/
     (b = true /\ vector_size cs' = vector_size cs + 1)).
Proof.
  intros. unfold capture. cbn [m_corners m_calibImageCountMax
    m_cornerFinderResultData].
  destruct (_ >=? _); [do 3 eexists; split; [reflexivity | left; auto]|].
  destruct (negb _); [|do 3 eexists; split; [reflexivity | left; auto]].
  session_fields. do 3 eexists. split; [reflexivity|]. right.
  split; [reflexivity | apply vector_size_app1].
Qed.

(** [flow_inv] holds when the controller is started on a fresh session and
    is kept by every step of the flow thread and of the other threads. *)
Lemma flow_inv_start : forall g pt mx ps sq w h cb ud,
  in_int_range mx ->
  flow_inv (flowStarted g (Calibration_new pt mx ps sq w h) cb ud).
Proof.
  intros. unfold flow_inv. cbn. auto.
Qed.

Lemma flow_inv_env_step : forall s a, flow_inv s -> flow_inv (env_step s a).
Proof.
  intros [[inited st ev mask stop cb ud sig] [d r cs mx pt ps sq w h] t tr] a.
  destruct (env_step_shape a inited st ev mask stop cb ud sig d r cs mx pt ps
              sq w h t tr) as (i' & ev' & sig' & d' & r' & -> & Hi).
  unfold flow_inv, calibImageCount, calibImageCountMax. cbn.
  intros (Hinited & Hrest). split; [apply Hi; left; exact Hinited | tauto].
Qed.

Lemma flow_inv_env_steps : forall acts s,
  flow_inv s -> flow_inv (env_steps acts s).
Proof.
  unfold env_steps. induction acts as [|a acts IH]; intros s Hs; cbn.
  - exact Hs.
  - apply IH, flow_inv_env_step, Hs.
Qed.

Lemma flow_inv_thread_step : forall s s',
  flow_inv s -> flowThread_step s = Some s' -> flow_inv s'.
Proof.
  intros [[inited st ev mask stop cb ud sig] [d r cs mx pt ps sq w h]
          [p evl flag res] tr] s'.
  unfold flow_inv. flow_fields. session_fields.
  intros (-> & -> & Hmx & Hpc).
  pose proof (vector_size_nonneg cs) as H0.
  destruct p; run_step; unfold flowWaitForEvent; flow_fields;
    try (destruct ((ev =? EVENT_NONE) && true); [discriminate|]);
    try solve [intros [= <-]; flow_fields; session_fields; inv_done].
  - (* welcome_stop *)
    intros [= <-]. flow_fields. session_fields.
    destruct (evl =? EVENT_MODAL); flow_fields; inv_done.
  - (* capture_dispatch *)
    destruct (evl =? EVENT_TOUCH).
    + destruct (capture_shape d r cs mx pt ps sq w h)
        as (b & r' & cs' & -> & [[-> ->] | [-> Hcs']]);
        intros [= <-]; flow_fields; session_fields;
        [|rewrite Hcs']; inv_done.
    + destruct (evl =? EVENT_BACK_BUTTON).
      * destruct flag; cbn [negb].
        -- rewrite uncapture_shape. session_fields.
           intros [= <-]. flow_fields. session_fields.
           destruct Hpc as (Hn & Hst & Hflag).
           destruct (Hflag eq_refl) as (H1 & _).
           rewrite vector_size_removelast; [inv_done|].
           intros ->. unfold vector_size in H1. simpl in H1. lia.
        -- rewrite uncaptureAll_shape. session_fields.
           intros [= <-]. flow_fields. session_fields.
           unfold vector_size. cbn [length]. inv_done.
      * intros [= <-]. flow_fields. session_fields. inv_done.
  - (* capture_cond *)
    destruct Hpc as (Hn & Hst & Hflag).
    unfold calibImageCount, calibImageCountMax. session_fields.
    rewrite (size_t_to_int_small (conj H0 Hn)).
    destruct (Z.ltb_spec (vector_size cs) mx); intros [= <-];
      flow_fields; session_fields.
    + inv_done.
    + unfold calibImageCount, calibImageCountMax. session_fields.
      rewrite (size_t_to_int_small (conj H0 Hn)). inv_done.
  - (* after_loop *)
    destruct Hpc as (Hn & Hz).
    destruct (Z.ltb_spec (calibImageCount (mkCalibration d r cs mx pt ps sq w h))
                (calibImageCountMax (mkCalibration d r cs mx pt ps sq w h)));
      intros [= <-]; flow_fields; session_fields; inv_done.
  - (* calib_callback *)
    destruct res; [|discriminate]. intros [= <-]. flow_fields. inv_done.
  - (* calib_reset *)
    rewrite uncaptureAll_shape. session_fields.
    intros [= <-]. flow_fields. session_fields.
    unfold vector_size. cbn [length]. inv_done.
Qed.

Lemma flow_inv_interleave : forall sched s s',
  flow_inv s -> interleave sched s = Some s' -> flow_inv s'.
Proof.
  induction sched as [|acts sched IH]; intros s s' Hs Hrun; cbn in Hrun.
  - injection Hrun as <-. exact Hs.
  - destruct (flowThread_step (env_steps acts s)) as [s1|] eqn:Hstep;
      [|discriminate].
    apply (IH s1 s'); [|exact Hrun].
    apply (flow_inv_thread_step (flow_inv_env_steps acts Hs) Hstep).
Qed.

(** Every state of a controller started on a freshly constructed session
    satisfies [flow_inv], when [flowInitAndStart] has returned before the
    thread's first step. *)
Lemma flow_inv_reachable : forall g pt mx ps sq w h cb ud sched s,
  in_int_range mx ->
  interleave sched (flowStarted g (Calibration_new pt mx ps sq w h) cb ud)
    = Some s ->
  flow_inv s.
Proof.
  intros g pt mx ps sq w h cb ud sched s Hmx Hrun.
  apply (flow_inv_interleave sched (flow_inv_start g pt ps sq w h cb ud Hmx) Hrun).
Qed.

(** The same from the creation of the thread, whichever of the thread's
    first steps and [gInited = true] comes first, provided the mailbox is
    empty at the call: until [gInited] is set no event is accepted, so the
    thread gets no further than the wait of the welcome screen. *)
Lemma flow_starting_env_step : forall s a,
  flow_starting s -> flow_starting (env_step s a) \/ flow_inv (env_step s a).
Proof.
  intros [[inited st ev mask stop cb ud sig] [d r cs mx pt ps sq w h]
          [p evl flag res] tr] a.
  unfold flow_starting. flow_fields. session_fields.
  intros (-> & -> & -> & Hmx & Hn & Hpc).
  destruct a as [e|status busy vs|flag' cs'|].
  - left. cbn. repeat split; auto; apply Hmx.
  - left. cbn [env_step globals gFlowCalib thread trace].
    destruct (frame_session_shape (mkCalibration d r cs mx pt ps sq w h) status
                busy vs)
      as (d' & r' & ->). cbn. repeat split; auto; apply Hmx.
  - left. cbn. repeat split; auto; apply Hmx.
  - right. unfold flow_inv. cbn.
    destruct p; try contradiction; repeat split; auto; apply Hmx.
Qed.

Lemma flow_starting_thread_step : forall s s',
  flow_starting s -> flowThread_step s = Some s' -> flow_starting s'.
Proof.
  intros [[inited st ev mask stop cb ud sig] [d r cs mx pt ps sq w h]
          [p evl flag res] tr] s'.
  unfold flow_starting. flow_fields. session_fields.
  intros (-> & -> & -> & Hmx & Hn & Hpc).
  destruct p; try contradiction; run_step; unfold flowWaitForEvent;
    flow_fields; try discriminate;
    intros [= <-]; flow_fields; session_fields; repeat split; auto; apply Hmx.
Qed.

Lemma flow_starting_interleave : forall sched s s',
  flow_starting s \/ flow_inv s -> interleave sched s = Some s' ->
  flow_starting s' \/ flow_inv s'.
Proof.
  induction sched as [|acts sched IH]; intros s s' Hs Hrun; cbn in Hrun.
  - injection Hrun as <-. exact Hs.
  - destruct (flowThread_step (env_steps acts s)) as [s1|] eqn:Hstep;
      [|discriminate].
    apply (IH s1 s'); [|exact Hrun].
    assert (Henv : forall acts s,
              flow_starting s \/ flow_inv s ->
              flow_starting (env_steps acts s) \/ flow_inv (env_steps acts s)).
    { clear. unfold env_steps.
      induction acts as [|a acts IH]; intros s Hs; cbn [fold_left];
        [exact Hs|].
      apply IH. destruct Hs as [Hs|Hs].
      - apply flow_starting_env_step, Hs.
      - right. apply flow_inv_env_step, Hs. }
    destruct (Henv acts s Hs) as [H|H].
    + left. apply (flow_starting_thread_step H Hstep).
    + right. apply (flow_inv_thread_step H Hstep).
Qed.

Lemma flow_inv_reachable_from_create :
  forall g pt mx ps sq w h cb ud sched s,
  in_int_range mx ->
  gEvent g = EVENT_NONE ->
  interleave sched (flowInitAndStart g (Calibration_new pt mx ps sq w h) cb ud)
    = Some s ->
  gInited (globals s) = true ->
  flow_inv s.
Proof.
  intros g pt mx ps sq w h cb ud sched s Hmx Hev Hrun Hinited.
  assert (H0 : flow_starting
                 (flowInitAndStart g (Calibration_new pt mx ps sq w h) cb ud)
               \/ flow_inv
                    (flowInitAndStart g (Calibration_new pt mx ps sq w h) cb ud)).
  { destruct (gInited g) eqn:Hg.
    - right. unfold flow_inv. cbn. repeat split; auto; apply Hmx.
    - left. unfold flow_starting. cbn. repeat split; auto; apply Hmx. }
  destruct (flow_starting_interleave sched H0 Hrun) as [(Hf & _)|H];
    [congruence | exact H].
Qed.


(** *** Start, welcome, capture and stop *)

(** A pending event stays pending, or is replaced by another one, whatever
    the other threads do: only the flow thread empties the mailbox. *)
Lemma env_steps_pending : forall acts s,
  gEvent (globals s) <> EVENT_NONE ->
  gEvent (globals (env_steps acts s)) <> EVENT_NONE.
Proof.
  unfold env_steps. induction acts as [|a acts IH]; intros s Hs; cbn [fold_left].
  - exact Hs.
  - apply IH. destruct a as [e|status busy vs|flag cs|]; cbn; try exact Hs.
    unfold flowHandleEvent. destruct (negb _); [exact Hs|].
    destruct (Z.eqb_spec (Z.land e (gEventMask (globals s))) EVENT_NONE)
      as [|Hne]; [exact Hs|].
    cbn. intros ->. apply Hne. reflexivity.
Qed.

(** [after_env], keeping the knowledge [H] that an event is pending. *)
Ltac after_env_pending H :=
  match goal with
  | |- context [env_steps ?acts
                  (mkFlowSys (mkFlowGlobals ?i ?st ?ev ?m ?stop ?cb ?ud ?sig)
                     (mkCalibration ?d ?r ?cs ?mx ?pt ?ps ?sq ?w ?h) ?t ?tr)] =>
      let i' := fresh "inited" in
      let ev' := fresh "ev" in
      let sig' := fresh "sig" in
      let d' := fresh "d" in
      let r' := fresh "r" in
      let Heq := fresh "Heq" in
      let H' := fresh "Hpending" in
      pose proof (@env_steps_pending acts
                    (mkFlowSys (mkFlowGlobals i st ev m stop cb ud sig)
                       (mkCalibration d r cs mx pt ps sq w h) t tr) H) as H';
      destruct (env_steps_shape acts i st ev m stop cb ud sig d r cs mx pt ps
                  sq w h t tr) as (i' & ev' & sig' & d' & r' & Heq & _);
      rewrite Heq in H' |- *; cbn [gEvent globals] in H';
      clear H Heq; rename H' into H
  end.

(** X6.  [flowInitAndStart] creates the thread before it sets
    [gInited].  Under every interleaving the new thread brings itself in
    three steps to the wait of the welcome screen, with the mask
    TOUCH | MODAL and the session untouched; there it blocks while the
    mailbox is empty, and a BACK_BUTTON posted meanwhile is refused.  But
    its first statement, [flowStateSet(FLOW_STATE_WELCOME)], has an effect
    only if [gInited] is set by then: when the thread is the faster one the
    state stays what it was (NOT_INITED at the first start and after a
    stop), also once [gInited] is set, and the controller waits at the
    welcome prompt without ever having entered the state WELCOME. *)
Theorem controller_start :
  forall (g : FlowGlobals) (calib : Calibration) (cb ud : Z)
         (e1 e2 e3 : list EnvAction),
  exists s',
    interleave [e1; e2; e3] (flowInitAndStart g calib cb ud) = Some s' /\
    trace s' = [CallStateSet FLOW_STATE_WELCOME;
                CallSetEventMask (Z.lor EVENT_TOUCH EVENT_MODAL)] /\
    pc (thread s') = pc_welcome_wait /\
    gEventMask (globals s') = Z.lor EVENT_TOUCH EVENT_MODAL /\
    m_corners (gFlowCalib s') = m_corners calib /\
    (gInited g = true \/ In EnvInited e1 ->
     gState (globals s') = FLOW_STATE_WELCOME) /\
    (gInited g = false -> ~ In EnvInited e1 ->
     gState (globals s') = gState g) /\
    forall acts : list EnvAction,
      (gEvent (globals (env_steps acts s')) = EVENT_NONE ->
       flowThread_step (env_steps acts s') = None) /\
      fst (flowHandleEvent EVENT_BACK_BUTTON (globals (env_steps acts s')))
        = false.
Proof.
  intros [inited st ev mask stop cb0 ud0 sig] [d r cs mx pt ps sq w h] cb ud
         e1 e2 e3.
  unfold flowInitAndStart. flow_fields. cbn [interleave].
  destruct (env_steps_shape e1 inited st ev mask false cb ud sig d r cs mx pt
              ps sq w h (mkFlowThread pc_start EVENT_NONE false None) [])
    as (i1 & ev1 & sig1 & d1 & r1 & -> & Hi1).
  destruct i1; run_step; do 2 thread_step;
    (eexists; split; [reflexivity|]); flow_fields; session_fields;
    do 4 (split; [reflexivity|]);
    (split; [|split]).
  - reflexivity.
  - intros -> Hnot.
    destruct (proj1 Hi1 eq_refl) as [Hf|Hin]; [discriminate | contradiction].
  - intros acts. after_env. run_step. unfold flowWaitForEvent, flowHandleEvent.
    flow_fields. split.
    + intros ->. reflexivity.
    + reflexivity.
  - intros Hset. apply Hi1 in Hset. discriminate.
  - reflexivity.
  - intros acts. after_env. run_step. unfold flowWaitForEvent, flowHandleEvent.
    flow_fields. split.
    + intros ->. reflexivity.
    + match goal with
      | |- context [if negb ?b then _ else _] => destruct b
      end; reflexivity.
Qed.

(** X7.  When the wait of the welcome screen returns any event other
    than MODAL (and no stop is requested), the thread enters the capture
    loop: it clears the captured-since-back-press flag, sets the state
    CAPTURING and the mask TOUCH | BACK_BUTTON, and stands at the capture
    wait with the session untouched.  When it returns MODAL, the thread
    sets the mask to MODAL alone and waits again, so that TOUCH and
    BACK_BUTTON are refused meanwhile; once that wait returns, the thread
    is back at the head of the welcome loop, the state and the session
    unchanged. *)
Theorem welcome_dispatch :
  forall (s : FlowSys) (e1 e2 e3 : list EnvAction),
  pc (thread s) = pc_welcome_stop ->
  gInited (globals s) = true ->
  gStop (globals s) = false ->
  (event (thread s) <> EVENT_MODAL ->
   exists s',
     interleave [e1; e2; e3] s = Some s' /\
     trace s' = trace s ++
       [CallStateSet FLOW_STATE_CAPTURING;
        CallSetEventMask (Z.lor EVENT_TOUCH EVENT_BACK_BUTTON)] /\
     pc (thread s') = pc_capture_wait /\
     captureDoneSinceBackButtonLastPressed (thread s') = false /\
     gState (globals s') = FLOW_STATE_CAPTURING /\
     m_corners (gFlowCalib s') = m_corners (gFlowCalib s)) /\
  (event (thread s) = EVENT_MODAL ->
   exists s',
     interleave [e1; e2] s = Some s' /\
     trace s' = trace s ++ [CallSetEventMask EVENT_MODAL] /\
     pc (thread s') = pc_modal_wait /\
     gState (globals s') = gState (globals s) /\
     forall acts : list EnvAction,
       (gEvent (globals (env_steps acts s')) = EVENT_NONE ->
        flowThread_step (env_steps acts s') = None) /\
       fst (flowHandleEvent EVENT_TOUCH (globals (env_steps acts s')))
         = false /\
       fst (flowHandleEvent EVENT_BACK_BUTTON (globals (env_steps acts s')))
         = false /\
       (forall s2,
          flowThread_step (env_steps acts s') = Some s2 ->
          pc (thread s2) = pc_loop /\
          gState (globals s2) = gState (globals s) /\
          m_corners (gFlowCalib s2) = m_corners (gFlowCalib s))).
Proof.
  intros [[inited st ev mask stop cb ud sig] [d r cs mx pt ps sq w h]
          [p evl flag res] tr] e1 e2 e3.
  flow_fields. session_fields. intros -> -> ->. split.
  - intros Hev. thread_step.
    destruct (Z.eqb_spec evl EVENT_MODAL); [contradiction|].
    do 2 thread_step.
    eexists. split; [reflexivity|]. flow_fields. session_fields.
    rewrite <- app_assoc. repeat split.
  - intros ->. thread_step.
    change (EVENT_MODAL =? EVENT_MODAL) with true. cbn iota.
    thread_step.
    eexists. split; [reflexivity|]. flow_fields.
    do 3 (split; [reflexivity|]).
    intros acts. after_env. run_step. unfold flowWaitForEvent, flowHandleEvent.
    flow_fields. split; [intros ->; reflexivity|].
    split; [reflexivity|]. split; [reflexivity|].
    intros s2.
    match goal with
    | |- context [?x =? EVENT_NONE] => destruct (x =? EVENT_NONE)
    end; cbn [andb]; [discriminate|].
    intros [= <-]. flow_fields. session_fields. repeat split.
Qed.

Lemma capture_appends : forall d r cs mx pt ps sq w h,
  exists b r' cs',
    capture (mkCalibration d r cs mx pt ps sq w h)
    = (b, mkCalibration d r' cs' mx pt ps sq w h) /\
    ((b = false /\ cs' = cs /\ r' = r) \/
     (b = true /\ exists refined, cs' = cs ++ [refined])).
Proof.
  intros. unfold capture. cbn [m_corners m_calibImageCountMax
    m_cornerFinderResultData].
  destruct (_ >=? _); [do 3 eexists; split; [reflexivity | left; auto]|].
  destruct (negb _); [|do 3 eexists; split; [reflexivity | left; auto]].
  session_fields. do 3 eexists. split; [reflexivity|]. right.
  split; [reflexivity | eexists; reflexivity].
Qed.

(** X8.  The capture wait has returned TOUCH while the count is below
    the maximum.  Under every interleaving the thread calls [capture()]
    once and either gets false, and then stays in the capture loop with
    the captured sets and its flag unchanged; or gets true, and then holds
    exactly one more captured set, has its captured-since-back-press flag
    set, and stays in the capture loop if the count is still below the
    maximum and leaves it otherwise.  The state stays CAPTURING in both
    cases. *)
Theorem touch_in_capturing :
  forall (s : FlowSys) (e1 e2 e3 : list EnvAction),
  flow_inv s ->
  pc (thread s) = pc_capture_stop ->
  event (thread s) = EVENT_TOUCH ->
  calibImageCount (gFlowCalib s) < calibImageCountMax (gFlowCalib s) ->
  exists s' ret,
    interleave [e1; e2; e3] s = Some s' /\
    trace s' = trace s ++ [CallCapture ret] /\
    gState (globals s') = FLOW_STATE_CAPTURING /\
    (ret = false ->
     m_corners (gFlowCalib s') = m_corners (gFlowCalib s) /\
     captureDoneSinceBackButtonLastPressed (thread s')
       = captureDoneSinceBackButtonLastPressed (thread s) /\
     pc (thread s') = pc_capture_wait) /\
    (ret = true ->
     (exists refined,
        m_corners (gFlowCalib s') = m_corners (gFlowCalib s) ++ [refined]) /\
     captureDoneSinceBackButtonLastPressed (thread s') = true /\
     pc (thread s')
       = if vector_size (m_corners (gFlowCalib s)) + 1
            <? calibImageCountMax (gFlowCalib s)
         then pc_capture_wait else pc_after_loop).
Proof.
  intros [[inited st ev mask stop cb ud sig] [d r cs mx pt ps sq w h]
          [p evl flag res] tr] e1 e2 e3.
  unfold flow_inv, calibImageCount, calibImageCountMax.
  flow_fields. session_fields.
  intros (-> & -> & Hmx & Hpc) -> -> Hbelow.
  destruct Hpc as (Hn & -> & Hflag).
  pose proof (vector_size_nonneg cs) as H0.
  rewrite size_t_to_int_small in Hbelow by int_bounds.
  do 2 thread_step.
  change (EVENT_TOUCH =? EVENT_TOUCH) with true. cbn iota.
  match goal with
  | |- context [capture (mkCalibration ?d1 ?r1 cs mx pt ps sq w h)] =>
      destruct (capture_appends d1 r1 cs mx pt ps sq w h)
        as (b & r' & cs' & -> & [(-> & -> & ->) | (-> & refined & ->)])
  end.
  - thread_step. unfold calibImageCount, calibImageCountMax. session_fields.
    rewrite size_t_to_int_small by int_bounds.
    replace (vector_size cs <? mx) with true by (symmetry; apply Z.ltb_lt; lia).
    eexists. exists false. split; [reflexivity|]. flow_fields. session_fields.
    split; [reflexivity|]. split; [reflexivity|]. split.
    + intros _. repeat split.
    + discriminate.
  - thread_step. unfold calibImageCount, calibImageCountMax. session_fields.
    rewrite vector_size_app1.
    rewrite size_t_to_int_small by int_bounds.
    eexists. exists true. split; [reflexivity|]. flow_fields. session_fields.
    split; [reflexivity|]. split; [reflexivity|]. split.
    + discriminate.
    + intros _. split; [eexists; reflexivity|]. split; [reflexivity|].
      destruct (_ <? _); reflexivity.
Qed.

(** With the stop flag set the thread takes a step from every program
    point but its last, and each step brings it nearer to its end. *)
Lemma stop_step : forall acts s,
  gStop (globals s) = true ->
  (pc (thread s) = pc_calib_callback -> result (thread s) <> None) ->
  pc (thread s) <> pc_exit ->
  exists s',
    flowThread_step (env_steps acts s) = Some s' /\
    gStop (globals s') = true /\
    (pc (thread s') = pc_calib_callback -> result (thread s') <> None) /\
    (steps_to_exit (pc (thread s')) < steps_to_exit (pc (thread s)))%nat.
Proof.
  intros acts [[inited st ev mask stop cb ud sig] [d r cs mx pt ps sq w h]
               [p evl flag res] tr].
  flow_fields. intros -> Hres Hp. after_env.
  destruct p; try (exfalso; apply Hp; reflexivity); run_step;
    unfold flowWaitForEvent; flow_fields; rewrite ?andb_false_r;
    repeat match goal with
           | |- context [match res with Some _ => _ | None => _ end] =>
               destruct res as [o|];
               [| exfalso; apply (Hres eq_refl); reflexivity]
           | |- context [match ?x with (_, _) => _ end] => destruct x
           | |- context [if ?b then _ else _] => destruct b; cbn [negb]
           end;
    (eexists; split; [reflexivity|]); flow_fields;
    (split; [reflexivity|]);
    (split; [first [discriminate | intros _; discriminate]|]);
    cbn; lia.
Qed.

Lemma stop_drive : forall fuel envs s,
  gStop (globals s) = true ->
  (pc (thread s) = pc_calib_callback -> result (thread s) <> None) ->
  (steps_to_exit (pc (thread s)) <= fuel)%nat ->
  pc (thread (drive fuel envs s)) = pc_exit.
Proof.
  induction fuel as [|fuel IH]; intros envs s Hstop Hres Hfuel.
  - cbn [drive]. destruct (pc (thread s)); cbn in Hfuel; try lia. reflexivity.
  - cbn [drive].
    assert (Hpc : pc (thread s) = pc_exit \/ pc (thread s) <> pc_exit)
      by (destruct (pc (thread s)); (left; reflexivity) || (right; discriminate)).
    destruct Hpc as [Hexit | Hrun].
    + destruct s as [g c [p evl flag res] tr]. cbn [pc thread] in Hexit.
      subst p. destruct g as [inited st ev mask stop cb ud sig].
      destruct c as [d r cs mx pt ps sq w h]. after_env. reflexivity.
    + destruct (stop_step (envs fuel) s Hstop Hres Hrun)
        as (s' & -> & Hstop' & Hres' & Hless).
      apply IH; [exact Hstop' | exact Hres' | lia].
Qed.

Lemma steps_to_exit_bound : forall p, (steps_to_exit p <= 14)%nat.
Proof. destruct p; cbn; lia. Qed.

(** X9.  Once a stop has been requested the flow thread never blocks
    again and returns within fourteen steps, from whatever program point
    and whatever the other threads do meanwhile: the loop of every wait
    ends at its next test, and every test of the stop flag leaves the loop
    it guards.  (A thread already asleep in [pthread_cond_wait] comes to
    that test when it is woken: by a posted event, or by the timed wait of
    the Android build; elsewhere [flowStopAndFinal] cancels it there.) *)
Theorem stop_terminates :
  forall (s : FlowSys) (envs : nat -> list EnvAction),
  gStop (globals s) = true ->
  (pc (thread s) = pc_calib_callback -> result (thread s) <> None) ->
  pc (thread (drive 14 envs s)) = pc_exit.
Proof.
  intros s envs Hstop Hres.
  apply stop_drive; [exact Hstop | exact Hres | apply steps_to_exit_bound].
Qed.

(** X10.  [flowStopAndFinal()] returns false and does nothing on a
    controller that is not initialised, and true otherwise: however long
    the flow thread went on running during the call and whatever the other
    threads did meanwhile, the controller is closed afterwards:
    [flowStateGet] answers NOT_INITED, every event is refused and leaves
    the statics untouched, and a second [flowStopAndFinal()] returns false
    without effect.  When the thread was given the time of fourteen steps
    (it was not cancelled before), it has returned by itself.  The mailbox
    and the mask are as the thread left them, not as they were at the
    call. *)
Theorem stopped_controller_is_closed :
  forall (steps : nat) (envs : nat -> list EnvAction) (s : FlowSys)
         (e : EVENT_t),
  let s' := snd (flowStopAndFinal steps envs s) in
  fst (flowStopAndFinal steps envs s) = gInited (globals s) /\
  flowStateGet (globals s') = FLOW_STATE_NOT_INITED /\
  flowHandleEvent e (globals s') = (false, globals s') /\
  (forall steps' envs', flowStopAndFinal steps' envs' s' = (false, s')) /\
  (gInited (globals s) = true ->
   (pc (thread s) = pc_calib_callback -> result (thread s) <> None) ->
   (14 <= steps)%nat ->
   pc (thread s') = pc_exit).
Proof.
  intros steps envs [[inited st ev mask stop cb ud sig] c t tr] e.
  unfold flowStopAndFinal. flow_fields. destruct inited; cbn [negb].
  - cbn [fst snd]. flow_fields. unfold flowStateGet, flowHandleEvent.
    flow_fields. do 4 (split; [reflexivity|]).
    intros _ Hres Hsteps.
    apply stop_drive; [reflexivity | exact Hres |].
    pose proof (steps_to_exit_bound (pc t)). flow_fields. lia.
  - cbn [fst snd]. flow_fields. unfold flowStateGet, flowHandleEvent.
    flow_fields. do 4 (split; [reflexivity|]). discriminate.
Qed.

(** X11.  [flowInitAndStart] does not empty the mailbox.  If an event is
    pending in [gEvent] when it is called (an event accepted shortly before
    a [flowStopAndFinal()] can outlive it), then under every interleaving,
    whether the thread or [gInited = true] comes first, the first wait of
    the welcome screen returns at once, with an event, and the thread goes
    on to dispatch it; when the other threads post nothing meanwhile, that
    event is the one that was pending. *)
Theorem restart_delivers_pending_event :
  forall (g : FlowGlobals) (calib : Calibration) (cb ud : Z)
         (e1 e2 e3 e4 : list EnvAction),
  gEvent g <> EVENT_NONE ->
  (exists s',
     interleave [e1; e2; e3; e4] (flowInitAndStart g calib cb ud) = Some s' /\
     pc (thread s') = pc_welcome_stop /\
     event (thread s') <> EVENT_NONE) /\
  (Forall (fun a => a = EnvInited) (e1 ++ e2 ++ e3 ++ e4) ->
   exists s',
     interleave [e1; e2; e3; e4] (flowInitAndStart g calib cb ud) = Some s' /\
     pc (thread s') = pc_welcome_stop /\
     event (thread s') = gEvent g /\
     trace s' = [CallStateSet FLOW_STATE_WELCOME;
                 CallSetEventMask (Z.lor EVENT_TOUCH EVENT_MODAL);
                 RetWaitForEvent (gEvent g)]).
Proof.
  intros [inited st ev mask stop cb0 ud0 sig] [d r cs mx pt ps sq w h] cb ud
         e1 e2 e3 e4 Hev.
  cbn [gEvent] in *. unfold flowInitAndStart. flow_fields. split.
  - cbn [interleave]. after_env_pending Hev.
    match goal with
    | |- context [mkFlowGlobals ?i _ _ _ _ _ _ _] => destruct i
    end; run_step;
    do 3 (cbn [interleave]; after_env_pending Hev; run_step);
    unfold flowWaitForEvent; flow_fields;
    match goal with
    | |- context [?x =? EVENT_NONE] =>
        destruct (Z.eqb_spec x EVENT_NONE) as [Hx|Hx]
    end; try contradiction;
    cbn [andb]; (eexists; split; [reflexivity|]); flow_fields;
    (split; [reflexivity | exact Hx]).
  - intros Hquiet.
    assert (Hkeep : forall acts i st0 ev0 m stop0 cb1 ud1 sig0 c t tr,
              Forall (fun a => a = EnvInited) acts ->
              exists i',
                env_steps acts
                  (mkFlowSys (mkFlowGlobals i st0 ev0 m stop0 cb1 ud1 sig0)
                     c t tr)
                = mkFlowSys (mkFlowGlobals i' st0 ev0 m stop0 cb1 ud1 sig0)
                    c t tr).
    { unfold env_steps. induction acts as [|a acts IH]; intros * Hacts;
        [eexists; reflexivity|].
      inversion Hacts as [|a' acts' Ha Hrest]; subst. cbn [fold_left].
      cbn [env_step]. flow_fields. apply IH. exact Hrest. }
    apply Forall_app in Hquiet. destruct Hquiet as (H1 & Hquiet).
    apply Forall_app in Hquiet. destruct Hquiet as (H2 & Hquiet).
    apply Forall_app in Hquiet. destruct Hquiet as (H3 & H4).
    cbn [interleave].
    match goal with
    | |- context [env_steps e1 (mkFlowSys (mkFlowGlobals ?i ?a ?b ?c ?d ?e ?f
                                             ?g) ?x ?y ?z)] =>
        destruct (Hkeep e1 i a b c d e f g x y z H1) as ([|] & ->)
    end; run_step;
      cbn [interleave];
      match goal with
      | |- context [env_steps e2 (mkFlowSys (mkFlowGlobals ?i ?a ?b ?c ?d ?e
                                               ?f ?g) ?x ?y ?z)] =>
          destruct (Hkeep e2 i a b c d e f g x y z H2) as (? & ->)
      end; run_step;
      cbn [interleave];
      match goal with
      | |- context [env_steps e3 (mkFlowSys (mkFlowGlobals ?i ?a ?b ?c ?d ?e
                                               ?f ?g) ?x ?y ?z)] =>
          destruct (Hkeep e3 i a b c d e f g x y z H3) as (? & ->)
      end; run_step;
      cbn [interleave];
      match goal with
      | |- context [env_steps e4 (mkFlowSys (mkFlowGlobals ?i ?a ?b ?c ?d ?e
                                               ?f ?g) ?x ?y ?z)] =>
          destruct (Hkeep e4 i a b c d e f g x y z H4) as (? & ->)
      end; run_step;
      unfold flowWaitForEvent; flow_fields;
      destruct (Z.eqb_spec ev EVENT_NONE); try contradiction;
      cbn [andb]; (eexists; split; [reflexivity|]); flow_fields;
      repeat split.
Qed.

End FlowProperties.

(** ** The controller on concrete inputs *)

Lemma mailbox_one_deep_witness :
  gInited sample_mailbox = true /\
  flowHandleEvent EVENT_MODAL sample_mailbox = (false, sample_mailbox) /\
  exists g',
    flowWaitForEvent
      (post_all [EVENT_TOUCH; EVENT_TOUCH; EVENT_BACK_BUTTON] sample_mailbox)
      = Some (EVENT_BACK_BUTTON, g') /\
    gEvent g' = EVENT_NONE /\
    flowWaitForEvent g' = None.
Proof.
  split; [reflexivity|].
  destruct (@mailbox_one_deep sample_mailbox EVENT_MODAL
              [EVENT_TOUCH; EVENT_TOUCH; EVENT_BACK_BUTTON] EVENT_BACK_BUTTON
              eq_refl) as (Hout & _ & Hlast).
  split; [apply Hout; reflexivity|].
  destruct (Hlast eq_refl) as (g' & Hwait & Hempty & Hblock).
  exists g'. split; [exact Hwait|]. split; [exact Hempty|].
  apply Hblock. reflexivity.
Defined.









(** ** The result lock *)

Section ResultLockProperties.
Context {V : Vision}.
Import ResultLock.












End ResultLockProperties.

(** The copy does pass through records that belong to no job: after the
    flag is stored and before the corners are, the result has the new
    flag with the old, empty corner sequence.  The reader cannot be past
    its lock at such a moment. *)
Lemma half_copied_result_exists :
  exists s,
    @ResultLock.exec sample_vision sample_half_copied
      (ResultLock.initial (sample_session CHESSBOARD 2)) = Some s /\
    cornerFoundAllFlag (ResultLock.res s) = 1 /\
    corners (ResultLock.res s) = [] /\
    ResultLock.reader_step s = None.
Proof. eexists. split; [vm_compute; reflexivity|]. repeat split. Qed.



(** ** How the operations of the session compose *)

Section SessionComposition.
Context {V : Vision}.

(** X1.  [uncaptureAll()] leaves a session with no captured set and
    everything else as it was, and reports whether there was anything to
    discard; called again, or followed by [uncapture()], it finds nothing
    and returns false without changing the session. *)
Theorem uncaptureAll_idempotent : forall c,
  snd (uncaptureAll c) = with_corners c [] /\
  fst (uncaptureAll c) = negb (vector_size (m_corners c) =? 0) /\
  calibImageCount (snd (uncaptureAll c)) = 0 /\
  uncaptureAll (snd (uncaptureAll c)) = (false, snd (uncaptureAll c)) /\
  uncapture (snd (uncaptureAll c)) = (false, snd (uncaptureAll c)).
Proof.
  intros c.
  assert (Hshape : uncaptureAll c
                   = (negb (vector_size (m_corners c) <=? 0), with_corners c [])).
  { unfold uncaptureAll.
    destruct (Z.leb_spec (vector_size (m_corners c)) 0) as [Hle|Hgt];
      [|reflexivity].
    cbn [negb]. rewrite <- (with_corners_id c) at 1.
    rewrite (vector_size_zero _ Hle). reflexivity. }
  rewrite Hshape. cbn [fst snd]. split; [reflexivity|]. split.
  - pose proof (vector_size_nonneg (m_corners c)).
    destruct (Z.leb_spec (vector_size (m_corners c)) 0);
      destruct (Z.eqb_spec (vector_size (m_corners c)) 0); try reflexivity; lia.
  - repeat split.
Qed.

(** X2.  An [uncapture()] right after a successful [capture()] succeeds
    and gives back the captured sets as they were before the capture.  It
    does not undo the refinement of the published corners: the session
    differs from the one before the capture in exactly that. *)
Theorem capture_then_uncapture : forall c,
  fst (capture c) = true ->
  let r := m_cornerFinderResultData c in
  uncapture (snd (capture c))
  = (true,
     with_cornerFinderResultData c
       (set_corners r (cornerSubPix (calibImage_of r) (corners r)))) /\
  m_corners (snd (uncapture (snd (capture c)))) = m_corners c.
Proof.
  intros c Hret r. subst r. revert Hret. unfold capture.
  destruct (_ >=? _); [discriminate|].
  destruct (negb _); [|discriminate]. intros _. cbn [snd].
  assert (Hun : forall c' x,
             uncapture (with_corners c' (m_corners c ++ [x]))
             = (true, with_corners c' (m_corners c))).
  { intros c' x. unfold uncapture. cbn [m_corners with_corners].
    destruct (Z.leb_spec (vector_size (m_corners c ++ [x])) 0) as [Hle|_].
    - rewrite vector_size_app1 in Hle.
      pose proof (vector_size_nonneg (m_corners c)). lia.
    - rewrite removelast_snoc. reflexivity. }
  rewrite Hun. cbn [snd]. split; [|destruct c; reflexivity].
  destruct c; reflexivity.
Qed.


(** The published flag stays 0 as long as nothing is published. *)
Lemma step_unpublished : forall op c c',
  step op c = Returned c' ->
  no_publish [op] = true ->
  cornerFoundAllFlag (m_cornerFinderResultData c) = 0 ->
  m_corners c = [] ->
  cornerFoundAllFlag (m_cornerFinderResultData c') = 0 /\ m_corners c' = [].
Proof.
  intros op c c' Hstep Hnp Hflag Hcs.
  destruct op;
    [apply step_frame_Returned in Hstep | apply step_job_Returned in Hstep
     | cbn [step] in Hstep ..].
  - cbn [no_publish] in Hnp. rewrite andb_true_r in Hnp.
    destruct Hstep as (calls & Hf).
    pose proof (frame_result _ _ _ _ Hf) as Hr. rewrite Hnp in Hr.
    injection Hr as Hr.
    destruct (frame_shape _ _ _ _ Hf) as (d & r & ->).
    cbn in *. rewrite Hr. auto.
  - destruct Hstep as (d & _ & ->). destruct c; cbn in *. auto.
  - injection Hstep as <-. unfold capture. rewrite Hflag. cbn.
    destruct (_ >=? _); cbn; auto.
  - injection Hstep as <-. unfold uncapture. rewrite Hcs. cbn. auto.
  - injection Hstep as <-. unfold uncaptureAll. rewrite Hcs. cbn. auto.
Qed.

Lemma run_unpublished : forall ops c c',
  run ops c = Returned c' ->
  no_publish ops = true ->
  cornerFoundAllFlag (m_cornerFinderResultData c) = 0 ->
  m_corners c = [] ->
  cornerFoundAllFlag (m_cornerFinderResultData c') = 0 /\ m_corners c' = [].
Proof.
  induction ops as [|op ops IH]; intros c c' Hrun Hnp Hflag Hcs;
    cbn [run] in Hrun.
  - injection Hrun as <-. auto.
  - apply bind_Returned in Hrun. destruct Hrun as (c1 & Hstep & Hrun).
    assert (Hop : no_publish [op] = true /\ no_publish ops = true).
    { destruct op; cbn [no_publish] in *; auto.
      apply andb_true_iff in Hnp. rewrite andb_true_r. exact Hnp. }
    destruct Hop as (Hop & Hrest).
    destruct (step_unpublished op c Hstep Hop Hflag Hcs) as (Hflag1 & Hcs1).
    apply (IH c1 c' Hrun Hrest Hflag1 Hcs1).
Qed.

(** X5.  Nothing can be captured before the first publication: on a
    session brought from its constructor through any operations among
    which no [frame] publishes a result, whatever the worker has found
    meanwhile, [capture()] returns false and the session holds no captured
    set. *)
Theorem no_capture_before_publication :
  forall patternType_in calibImageCountMax_in patternSize_in
         chessboardSquareWidth videoWidth_in videoHeight_in ops c,
  run ops (Calibration_new patternType_in calibImageCountMax_in patternSize_in
             chessboardSquareWidth videoWidth_in videoHeight_in) = Returned c ->
  no_publish ops = true ->
  capture c = (false, c) /\ m_corners c = [] /\ calibImageCount c = 0.
Proof.
  intros pt mx ps sq w h ops c Hrun Hnp.
  destruct (run_unpublished ops _ Hrun Hnp) as (Hflag & Hcs);
    [reflexivity | reflexivity |].
  split; [|split; [exact Hcs|]].
  - unfold capture. rewrite Hflag. cbn. destruct (_ >=? _); reflexivity.
  - unfold calibImageCount. rewrite Hcs. reflexivity.
Qed.

End SessionComposition.

Section DetectionPipeline.
Context {V : Vision}.

(** X4.  One full cycle of the detection pipeline on a chessboard
    session whose worker buffer has the size of the source's frames: a
    [frame] call submits the source's luma plane, the worker runs its job,
    and the next [frame] call that finds the job complete publishes it.
    A fetch then returns the detector's verdict and corners for exactly the
    submitted pixels, together with those pixels: even when that second
    call also hands the worker a newer frame (one that fits the buffer),
    the published frame is the one the detection ran on.  The captured
    sets are not touched. *)
Theorem detection_pipeline :
  forall (c : Calibration) (luma : list byte) (vs vs' : ARVideoSource)
         (status busy : Z),
  let d := m_cornerFinderData c in
  let found :=
    findChessboardCorners (mkImage (videoWidth d) (videoHeight d) (Some luma))
      (patternSize d) in
  patternType d = CHESSBOARD ->
  ResultLock.frame_ok d ->
  vs_checkout vs = Some luma ->
  length luma = Z.to_nat (videoWidth d * videoHeight d) ->
  vs_width vs * vs_height vs = videoWidth d * videoHeight d ->
  status <> 0 ->
  busy <> 0 \/ vs_checkout vs' = None \/
  (exists luma',
     vs_checkout vs' = Some luma' /\
     0 <= vs_width vs' * vs_height vs' <= videoWidth d * videoHeight d /\
     vs_width vs' * vs_height vs' <= Z.of_nat (length luma')) ->
  exists c3,
    run [OpFrame 0 0 vs; OpCornerFinder; OpFrame status busy vs'] c
      = Returned c3 /\
    snd (cornerFinderResultsLockAndFetch c3)
      = (if fst found then 1 else 0, snd found, Some luma) /\
    m_corners c3 = m_corners c.
Proof.
  intros [[dpt dps dw dh df dflag dcs] r cs mx pt ps sq w h] luma vs vs'
         status busy d found.
  subst found d.
  cbn [m_cornerFinderData patternType patternSize videoWidth videoHeight].
  intros -> (Hw & Hh & Hwh & px & Hf & Hpx) Hvs Hluma Hdim Hstatus Hfits.
  cbn [videoFrame videoWidth videoHeight] in Hw, Hh, Hwh, Hf, Hpx. subst df.
  assert (Hsubmit :
            frame
              (mkCalibration
                 (mkCornerFinderData CHESSBOARD dps dw dh (Some px) dflag dcs)
                 r cs mx pt ps sq w h) 0 0 vs
            = Returned
                (true,
                 mkCalibration
                   (mkCornerFinderData CHESSBOARD dps dw dh (Some luma) dflag
                      dcs)
                   r cs mx pt ps sq w h,
                 [CheckinFrame; ThreadStartSignal])).
  { unfold frame. rewrite Hvs. cbn [Z.eqb negb bind].
    unfold submit, set_videoFrame, with_cornerFinderData.
    cbn [m_cornerFinderData videoFrame]. rewrite Hdim.
    destruct (Z.leb_spec INT_MIN (dw * dh)); [|unfold INT_MIN in *; lia].
    destruct (Z.leb_spec (dw * dh) INT_MAX); [|lia].
    cbn [andb]. rewrite int_to_size_t_nonneg by lia.
    rewrite (@memcpy_whole px luma _ Hpx Hluma) by lia. reflexivity. }
  cbn [run step]. rewrite Hsubmit. cbn [bind fst snd].
  unfold cornerFinder_job, calibImage_of.
  cbn [patternType patternSize videoWidth videoHeight videoFrame
       m_cornerFinderData].
  destruct (findChessboardCorners (mkImage dw dh (Some luma)) dps)
    as [b found_cs].
  unfold with_cornerFinderData, set_flag_corners.
  cbn [bind fst snd patternType patternSize
       videoWidth videoHeight videoFrame m_cornerFinderResultData m_corners
       m_calibImageCountMax m_patternType m_patternSize
       m_chessboardSquareWidth m_videoWidth m_videoHeight].
  assert (Hok : ResultLock.frame_ok
                  (mkCornerFinderData CHESSBOARD dps dw dh (Some luma)
                     (if b then 1 else 0) found_cs)).
  { split; [exact Hw|]. split; [exact Hh|]. split; [exact Hwh|].
    exists luma. split; [reflexivity | exact Hluma]. }
  destruct (@frame_returns V
              (mkCalibration
                 (mkCornerFinderData CHESSBOARD dps dw dh (Some luma)
                    (if b then 1 else 0) found_cs) r cs mx pt ps sq w h)
              status busy vs' Hok Hfits) as (c3 & calls & Hf3).
  rewrite Hf3. cbn [bind fst snd]. exists c3. split; [reflexivity|].
  destruct (frame_shape _ _ _ _ Hf3) as (d' & r' & E).
  pose proof (frame_result _ _ _ _ Hf3) as Hr.
  destruct (Z.eqb_spec status 0); [contradiction|].
  cbn [m_cornerFinderData m_cornerFinderResultData] in Hr.
  rewrite (assign_frame_ok r Hok) in Hr. injection Hr as Hr.
  split.
  - unfold cornerFinderResultsLockAndFetch. cbn [snd]. rewrite Hr.
    reflexivity.
  - rewrite E. reflexivity.
Qed.

End DetectionPipeline.

(** ** The compositions on concrete inputs *)

Lemma capture_then_uncapture_witness :
  fst (@capture sample_vision sample_published) = true /\
  m_corners (snd (uncapture (snd (@capture sample_vision sample_published))))
  = m_corners sample_published.
Proof.
  split; [reflexivity|].
  pose proof (@capture_then_uncapture sample_vision sample_published eq_refl)
    as H.
  cbv zeta in H. exact (proj2 H).
Defined.


Lemma sample_session_frame_ok :
  ResultLock.frame_ok (m_cornerFinderData (sample_session CHESSBOARD 2)).
Proof.
  split; [reflexivity|]. split; [reflexivity|]. split; [discriminate|].
  eexists. split; reflexivity.
Defined.

Lemma sample_source_fits :
  0 <> 0 \/ vs_checkout sample_source = None \/
  (exists luma',
     vs_checkout sample_source = Some luma' /\
     0 <= vs_width sample_source * vs_height sample_source <= 2 * 2 /\
     vs_width sample_source * vs_height sample_source
       <= Z.of_nat (length luma')).
Proof.
  right. right. eexists. split; [reflexivity|].
  split; [split; discriminate | discriminate].
Defined.

Lemma frame_returns_true_witness :
  ResultLock.frame_ok (m_cornerFinderData (sample_session CHESSBOARD 2)) /\
  exists c' calls,
    @frame sample_vision (sample_session CHESSBOARD 2) 1 0 sample_source
    = Returned (true, c', calls).
Proof.
  split; [exact sample_session_frame_ok|].
  destruct (@frame_returns_true sample_vision (sample_session CHESSBOARD 2)
              1 0 sample_source) as (_ & _ & _ & _ & Hreturns).
  exact (Hreturns sample_session_frame_ok sample_source_fits).
Defined.

Lemma detection_pipeline_witness :
  ResultLock.frame_ok (m_cornerFinderData (sample_session CHESSBOARD 2)) /\
  vs_checkout sample_source = Some [x01; x02; x03; x04] /\
  exists c3,
    @run sample_vision sample_detection (sample_session CHESSBOARD 2)
      = Returned c3 /\
    snd (cornerFinderResultsLockAndFetch c3)
      = (1, [sample_point], Some [x01; x02; x03; x04]).
Proof.
  split; [exact sample_session_frame_ok|]. split; [reflexivity|].
  destruct (@detection_pipeline sample_vision (sample_session CHESSBOARD 2)
              [x01; x02; x03; x04] sample_source sample_source 1 0
              eq_refl sample_session_frame_ok eq_refl eq_refl eq_refl
              ltac:(discriminate) sample_source_fits)
    as (c3 & Hrun & Hfetch & _).
  exists c3. split; [exact Hrun | exact Hfetch].
Defined.

Lemma no_capture_before_publication_witness :
  @run sample_vision [OpFrame 0 0 sample_source; OpCornerFinder; OpCapture]
    (sample_session CHESSBOARD 2)
  = Returned (after_ops [OpFrame 0 0 sample_source; OpCornerFinder; OpCapture]
                (sample_session CHESSBOARD 2)) /\
  no_publish
    [OpFrame 0 0 sample_source; OpCornerFinder; OpCapture] = true /\
  m_corners (after_ops [OpFrame 0 0 sample_source; OpCornerFinder; OpCapture]
               (sample_session CHESSBOARD 2)) = [].
Proof.
  split; [reflexivity|]. split; [reflexivity|].
  exact (proj1 (proj2
    (@no_capture_before_publication sample_vision CHESSBOARD 2 (mkSize 7 5)
       30 2 2 [OpFrame 0 0 sample_source; OpCornerFinder; OpCapture]
       _ eq_refl eq_refl))).
Defined.

Lemma welcome_dispatch_witness :
  (pc (thread sample_welcome_touch) = pc_welcome_stop /\
   event (thread sample_welcome_touch) <> EVENT_MODAL /\
   exists s',
     @interleave sample_vision [[]; []; []] sample_welcome_touch = Some s' /\
     pc (thread s') = pc_capture_wait /\
     gState (globals s') = FLOW_STATE_CAPTURING) /\
  (pc (thread sample_welcome_modal) = pc_welcome_stop /\
   event (thread sample_welcome_modal) = EVENT_MODAL /\
   exists s',
     @interleave sample_vision [[]; []] sample_welcome_modal = Some s' /\
     pc (thread s') = pc_modal_wait /\
     gState (globals s') = FLOW_STATE_WELCOME).
Proof.
  split.
  - split; [reflexivity|]. split; [discriminate|].
    destruct (@welcome_dispatch sample_vision sample_welcome_touch [] [] []
                eq_refl eq_refl eq_refl) as (Hrun & _).
    destruct (Hrun ltac:(discriminate))
      as (s' & Hs' & _ & Hpc & _ & Hstate & _).
    exists s'. auto.
  - split; [reflexivity|]. split; [reflexivity|].
    destruct (@welcome_dispatch sample_vision sample_welcome_modal [] [] []
                eq_refl eq_refl eq_refl) as (_ & Hmodal).
    destruct (Hmodal eq_refl) as (s' & Hs' & _ & Hpc & Hstate & _).
    exists s'. auto.
Defined.

Lemma sample_touch_received_inv : @flow_inv sample_vision sample_touch_received.
Proof.
  unfold flow_inv, in_int_range, INT_MIN, INT_MAX, vector_size. cbn.
  repeat split; try lia; discriminate.
Defined.

Lemma touch_in_capturing_witness :
  @flow_inv sample_vision sample_touch_received /\
  pc (thread sample_touch_received) = pc_capture_stop /\
  event (thread sample_touch_received) = EVENT_TOUCH /\
  exists s' ret,
    @interleave sample_vision [[]; []; []] sample_touch_received = Some s' /\
    trace s' = trace sample_touch_received ++ [CallCapture ret] /\
    gState (globals s') = FLOW_STATE_CAPTURING.
Proof.
  split; [exact sample_touch_received_inv|].
  do 2 (split; [reflexivity|]).
  destruct (@touch_in_capturing sample_vision sample_touch_received [] [] []
              sample_touch_received_inv eq_refl eq_refl eq_refl)
    as (s' & ret & Hrun & Htrace & Hstate & _).
  exists s', ret. auto.
Defined.

Lemma stop_terminates_witness :
  gStop (globals sample_stop_requested) = true /\
  pc (thread sample_stop_requested) = pc_capture_stop /\
  pc (thread (@drive sample_vision 14 (fun _ => []) sample_stop_requested))
  = pc_exit.
Proof.
  split; [reflexivity|]. split; [reflexivity|].
  apply (@stop_terminates sample_vision sample_stop_requested (fun _ => [])
           eq_refl).
  discriminate.
Defined.

(** During a stop the exiting thread goes on using the mailbox and the
    mask.  Here the capture wait has returned BACK_BUTTON and a TOUCH is
    pending when [flowStopAndFinal()] is called: the thread leaves the
    capture loop, sets the mask to TOUCH, and its last wait takes the
    TOUCH out of the mailbox. *)
Lemma stop_rewrites_mask_and_mailbox :
  let s := @env_step sample_vision sample_back_received (EnvPost EVENT_TOUCH) in
  let s' := snd (@flowStopAndFinal sample_vision 14 (fun _ => []) s) in
  gEvent (globals s) = EVENT_TOUCH /\
  gEventMask (globals s) = Z.lor EVENT_TOUCH EVENT_BACK_BUTTON /\
  gEvent (globals s') = EVENT_NONE /\
  gEventMask (globals s') = EVENT_TOUCH /\
  pc (thread s') = pc_exit.
Proof. vm_compute. repeat split. Qed.

Lemma restart_delivers_pending_event_witness :
  gEvent (globals sample_stopped) = EVENT_TOUCH /\
  gEvent (globals sample_stopped) <> EVENT_NONE /\
  exists s',
    @interleave sample_vision [[]; [EnvInited]; []; []]
      (@flowInitAndStart sample_vision (globals sample_stopped)
         (sample_session CHESSBOARD 10) 1 0) = Some s' /\
    pc (thread s') = pc_welcome_stop /\
    event (thread s') = EVENT_TOUCH.
Proof.
  split; [reflexivity|]. split; [discriminate|].
  destruct (@restart_delivers_pending_event sample_vision
              (globals sample_stopped) (sample_session CHESSBOARD 10) 1 0
              [] [EnvInited] [] [] ltac:(discriminate))
    as (_ & Hquiet).
  destruct (Hquiet ltac:(repeat constructor)) as (s' & Hrun & Hpc & Hev & _).
  exists s'. auto.
Defined.

(** ** The upload status *)

Section UploadStatus.
Import Ascii String Upload.
Variable UPLOAD_STATUS_BUFFER_LEN : Z.
Hypothesis buffer_len : 2 <= UPLOAD_STATUS_BUFFER_LEN.

Lemma timeradd_exact : forall a b,
  normal a -> normal b ->
  normal (timeradd a b) /\ micros (timeradd a b) = micros a + micros b.
Proof.
  intros [sa ua] [sb ub]. unfold normal, micros, timeradd. cbn.
  intros Ha Hb. destruct (Z.geb_spec (ua + ub) 1000000); cbn; lia.
Qed.

Lemma snprintf_nonempty : forall buf c s,
  snprintf buf UPLOAD_STATUS_BUFFER_LEN (c :: s)
  = c :: firstn (Z.to_nat (UPLOAD_STATUS_BUFFER_LEN - 2)) s.
Proof.
  intros. unfold snprintf.
  destruct (Z.eqb_spec UPLOAD_STATUS_BUFFER_LEN 0); [lia|].
  replace (Z.to_nat (UPLOAD_STATUS_BUFFER_LEN - 1))
    with (S (Z.to_nat (UPLOAD_STATUS_BUFFER_LEN - 2))) by lia.
  reflexivity.
Qed.

Lemma closing_status_nonempty : forall uploadsDone errorCode,
  exists c s, closing_status uploadsDone errorCode = c :: s.
Proof.
  intros. unfold closing_status.
  destruct (negb _); [cbn; eauto|].
  repeat (destruct (_ =? _); [cbn; eauto|]). cbn; eauto.
Qed.

(** Once hidden, the status stays hidden, and no poll touches the
    caller's buffer. *)
Lemma hidden_stays_hidden : forall h statusBuf currentTime threadStatus,
  uploadStatus h = [] ->
  fileUploaderStatusGet UPLOAD_STATUS_BUFFER_LEN (Some h) statusBuf
    currentTime threadStatus = (0, Some h, statusBuf).
Proof.
  intros h statusBuf currentTime threadStatus Hs.
  unfold fileUploaderStatusGet. rewrite Hs. reflexivity.
Qed.

(** X12.  A pass of the uploader that uploaded something or failed ends
    at [time] and leaves a status to be shown.  The time to hide it is
    exactly [time] plus the delay asked for, again with its microseconds
    below one million.  The status is never hidden early: every poll at a
    time before that one returns 1 or 2, according to the state of the
    worker thread, and copies the status into the caller's buffer.  A poll
    at a time whose seconds and microseconds both have reached those of the
    hide time returns 0, leaves the caller's buffer alone and clears the
    status, and from then on every poll returns 0 and changes nothing. *)
Theorem upload_status_shown_then_hidden :
  forall (h : FILE_UPLOAD_HANDLE_t) (time : timeval)
         (uploadsDone errorCode : Z) (statusBuf : c_string),
  normal time ->
  normal (uploadStatusHideAfterSecs h) ->
  uploadsDone <> 0 \/ errorCode <> 0 ->
  let h' := fileUploader_end UPLOAD_STATUS_BUFFER_LEN h time uploadsDone
              errorCode in
  let hideAt := uploadStatusHideAtTime h' in
  normal hideAt /\
  micros hideAt = micros time + micros (uploadStatusHideAfterSecs h) /\
  uploadStatus h' <> [] /\
  (forall currentTime threadStatus,
     normal currentTime ->
     micros currentTime < micros hideAt ->
     fileUploaderStatusGet UPLOAD_STATUS_BUFFER_LEN (Some h') statusBuf
       currentTime threadStatus
     = (if threadStatus =? 0 then 1 else 2, Some h',
        strncpy (uploadStatus h') UPLOAD_STATUS_BUFFER_LEN)) /\
  (forall currentTime threadStatus,
     tv_sec hideAt <= tv_sec currentTime ->
     tv_usec hideAt <= tv_usec currentTime ->
     exists h'',
       fileUploaderStatusGet UPLOAD_STATUS_BUFFER_LEN (Some h') statusBuf
         currentTime threadStatus = (0, Some h'', statusBuf) /\
       forall polls,
         poll UPLOAD_STATUS_BUFFER_LEN (Some h'') statusBuf polls
         = (map (fun _ => 0) polls, Some h'', statusBuf)).
Proof.
  intros h time uploadsDone errorCode statusBuf Htime Hafter Hdone h' hideAt.
  assert (Hend : h' = mkHandle
                        (snprintf (uploadStatus h) UPLOAD_STATUS_BUFFER_LEN
                           (closing_status uploadsDone errorCode))
                        true (timeradd time (uploadStatusHideAfterSecs h))
                        (uploadStatusHideAfterSecs h)).
  { subst h'. unfold fileUploader_end.
    destruct (Z.eqb_spec uploadsDone 0); destruct (Z.eqb_spec errorCode 0);
      cbn [negb orb]; try reflexivity. lia. }
  destruct (closing_status_nonempty uploadsDone errorCode) as (c & s & Hmsg).
  rewrite Hmsg, snprintf_nonempty in Hend.
  destruct (timeradd_exact Htime Hafter) as (Hnormal & Hmicros).
  subst hideAt. rewrite Hend. cbn [uploadStatusHideAtTime uploadStatus].
  split; [exact Hnormal|]. split; [exact Hmicros|].
  split; [discriminate|]. split.
  - intros currentTime threadStatus Hnow Hearly.
    unfold fileUploaderStatusGet.
    cbn [uploadStatus uploadStatusHide uploadStatusHideAtTime andb].
    destruct (Z.geb_spec (tv_sec currentTime)
                (tv_sec (timeradd time (uploadStatusHideAfterSecs h))));
      [|reflexivity].
    destruct (Z.geb_spec (tv_usec currentTime)
                (tv_usec (timeradd time (uploadStatusHideAfterSecs h))));
      [|reflexivity].
    unfold micros in Hearly. lia.
  - intros currentTime threadStatus Hsec Husec.
    unfold fileUploaderStatusGet.
    cbn [uploadStatus uploadStatusHide uploadStatusHideAtTime
         uploadStatusHideAfterSecs andb].
    destruct (Z.geb_spec (tv_sec currentTime)
                (tv_sec (timeradd time (uploadStatusHideAfterSecs h))));
      [|lia].
    destruct (Z.geb_spec (tv_usec currentTime)
                (tv_usec (timeradd time (uploadStatusHideAfterSecs h))));
      [|lia].
    eexists. split; [reflexivity|].
    induction polls as [|[t st] polls IH]; [reflexivity|].
    cbn [poll map]. rewrite hidden_stays_hidden by reflexivity.
    rewrite IH. reflexivity.
Qed.

(** X13.  [fileUploaderStatusGet] compares seconds and microseconds
    separately.  A status that is shown therefore survives every poll
    whose microsecond part is below that of the hide time, however many
    seconds later it comes: each such poll returns 1 or 2 and copies the
    status, and the handle is left as it was. *)
Theorem upload_status_outlives_hide_time :
  forall (h : FILE_UPLOAD_HANDLE_t) (statusBuf : c_string)
         (polls : list (timeval * Z)),
  uploadStatus h <> [] ->
  Forall (fun p => tv_usec (fst p) < tv_usec (uploadStatusHideAtTime h))
    polls ->
  poll UPLOAD_STATUS_BUFFER_LEN (Some h) statusBuf polls
  = (map (fun p => if snd p =? 0 then 1 else 2) polls,
     Some h,
     match polls with
     | [] => statusBuf
     | _ :: _ => strncpy (uploadStatus h) UPLOAD_STATUS_BUFFER_LEN
     end).
Proof.
  intros h statusBuf polls Hshown Hpolls. revert statusBuf.
  induction Hpolls as [|[t st] polls Hp _ IH]; intros statusBuf;
    [reflexivity|].
  cbn [poll map fst snd] in *.
  unfold fileUploaderStatusGet at 1.
  destruct (uploadStatus h) as [|c s] eqn:Hs; [contradiction|].
  destruct (Z.geb_spec (tv_usec t) (tv_usec (uploadStatusHideAtTime h)));
    [lia|].
  rewrite andb_false_r. rewrite IH.
  destruct polls; reflexivity.
Qed.

(** X20.  At the start of a pass the worker shows [Looking for files to
    upload...], and a poll during the pass returns it (as long as no
    earlier status is waiting to be hidden).  A pass that then finds
    nothing to upload and meets no error keeps that text and asks for it
    to be hidden without setting a new hide time: the first poll whose
    seconds and microseconds are not below those of the hide time left in
    the handle (zero after [fileUploaderInit]) removes it, so the text
    disappears with the first poll after the pass. *)
Theorem idle_pass_status_vanishes :
  forall (h : FILE_UPLOAD_HANDLE_t) (time currentTime : timeval)
         (threadStatus : Z) (statusBuf : c_string),
  tv_sec (uploadStatusHideAtTime h) <= tv_sec currentTime ->
  tv_usec (uploadStatusHideAtTime h) <= tv_usec currentTime ->
  let looking := fileUploader_begin UPLOAD_STATUS_BUFFER_LEN h in
  let idle := fileUploader_end UPLOAD_STATUS_BUFFER_LEN looking time 0 0 in
  uploadStatus looking <> [] /\
  (uploadStatusHide h = false ->
   fileUploaderStatusGet UPLOAD_STATUS_BUFFER_LEN (Some looking) statusBuf
     currentTime threadStatus
   = (if threadStatus =? 0 then 1 else 2, Some looking,
      strncpy (uploadStatus looking) UPLOAD_STATUS_BUFFER_LEN)) /\
  uploadStatus idle = uploadStatus looking /\
  uploadStatusHideAtTime idle = uploadStatusHideAtTime h /\
  fileUploaderStatusGet UPLOAD_STATUS_BUFFER_LEN (Some idle) statusBuf
    currentTime threadStatus
  = (0,
     Some (mkHandle [] false (uploadStatusHideAtTime h)
             (uploadStatusHideAfterSecs h)),
     statusBuf).
Proof.
  intros [status hide hideAt hideAfter] time currentTime threadStatus
         statusBuf Hsec Husec looking idle.
  subst idle looking. unfold fileUploader_begin, set_uploadStatus.
  cbn [uploadStatus uploadStatusHide uploadStatusHideAtTime
       uploadStatusHideAfterSecs] in *.
  change (lit "Looking for files to upload...")
    with ("L"%char :: lit "ooking for files to upload...").
  rewrite snprintf_nonempty.
  unfold fileUploader_end. cbn [Z.eqb negb orb].
  unfold fileUploaderStatusGet.
  cbn [uploadStatus uploadStatusHide uploadStatusHideAtTime
       uploadStatusHideAfterSecs andb].
  destruct (Z.geb_spec (tv_sec currentTime) (tv_sec hideAt)); [|lia].
  destruct (Z.geb_spec (tv_usec currentTime) (tv_usec hideAt)); [|lia].
  split; [discriminate|]. split; [intros ->; reflexivity|].
  repeat split.
Qed.

End UploadStatus.

(** ** Reading an index file *)

Section IndexFile.
Import Ascii String Upload.

Lemma char_eqb_spec : forall a b : char, reflect (a = b) (Ascii.eqb a b).
Proof. exact Ascii.eqb_spec. Qed.

Lemma fgets_read_split : forall k fp chunk fp',
  fgets_read k fp = (chunk, fp') ->
  fp = chunk ++ fp' /\ (List.length chunk <= k)%nat.
Proof.
  induction k as [|k IH]; intros fp chunk fp' H; cbn [fgets_read] in H.
  - injection H as <- <-. split; [reflexivity | cbn; lia].
  - destruct fp as [|c fp].
    + injection H as <- <-. split; [reflexivity | cbn; lia].
    + destruct (Ascii.eqb c LF).
      * injection H as <- <-. split; [reflexivity | cbn; lia].
      * destruct (fgets_read k fp) as [l r] eqn:E.
        injection H as <- <-. destruct (IH _ _ _ E) as (-> & Hlen).
        split; [reflexivity | cbn; lia].
Qed.

(** [fgets] takes at least one character when its buffer has room. *)
Lemma fgets_progress : forall n fp chunk fp',
  2 <= n ->
  fgets n fp = Some (chunk, fp') ->
  fp = chunk ++ fp' /\ (0 < List.length chunk)%nat /\
  Z.of_nat (List.length chunk) <= n - 1.
Proof.
  intros n fp chunk fp' Hn H. unfold fgets in H.
  destruct fp as [|c fp]; [discriminate|]. injection H as H.
  destruct (fgets_read_split _ _ H) as (Hsplit & Hlen).
  split; [exact Hsplit|]. split; [|lia].
  destruct (Z.to_nat (n - 1)) as [|k] eqn:Hk; [lia|].
  cbn [fgets_read] in H. destruct (Ascii.eqb c LF).
  - injection H as <- _. cbn. lia.
  - destruct (fgets_read k fp). injection H as <- _. cbn. lia.
Qed.

Lemma c_str_spec : forall buf,
  ~ In NUL (c_str buf) /\ (List.length (c_str buf) <= List.length buf)%nat.
Proof.
  induction buf as [|c buf (IH & Hlen)]; cbn [c_str].
  - split; [intros [] | lia].
  - destruct (char_eqb_spec c NUL) as [|Hc].
    + split; [intros [] | cbn; lia].
    + split; [|cbn; lia]. intros [H|H]; [congruence | exact (IH H)].
Qed.

Lemma strip_eol_spec : forall l buf,
  (l <= List.length buf)%nat ->
  exists k, (k <= l)%nat /\ strip_eol l buf = firstn k buf /\
    forall b c, firstn k buf = b ++ [c] -> c <> LF /\ c <> CR.
Proof.
  induction l as [|l IH]; intros buf Hl; cbn [strip_eol].
  - exists 0%nat. split; [lia|]. split; [reflexivity|].
    intros [|x b] y H; discriminate.
  - destruct (nth_error buf l) as [c|] eqn:Hnth.
    + destruct (char_eqb_spec c LF) as [|Hlf]; cbn [negb andb].
      * destruct (IH buf ltac:(lia)) as (k & Hk & E & Hlast).
        exists k. split; [lia | split; assumption].
      * destruct (char_eqb_spec c CR) as [|Hcr]; cbn [negb].
        -- destruct (IH buf ltac:(lia)) as (k & Hk & E & Hlast).
           exists k. split; [lia | split; assumption].
        -- exists (S l). split; [lia|]. split; [reflexivity|].
           intros b c' Hb.
           assert (Hc' : nth_error (firstn (S l) buf) l = Some c').
           { rewrite Hb.
             assert (List.length b = l).
             { apply (f_equal (@List.length _)) in Hb.
               rewrite length_firstn, length_app in Hb.
               change (List.length [c']) with 1%nat in Hb. lia. }
             subst l. rewrite nth_error_app2 by lia.
             rewrite Nat.sub_diag. reflexivity. }
           rewrite nth_error_firstn in Hc'.
           destruct (Nat.ltb_spec l (S l)); [|lia].
           rewrite Hnth in Hc'. injection Hc' as <-. split; assumption.
    + apply nth_error_None in Hnth. lia.
Qed.

Lemma first_is_hash : forall buf,
  first_is buf "#"%char = false -> forall l, buf <> "#"%char :: l.
Proof. intros buf H l ->. discriminate. Qed.

Lemma get_buff_loop_spec : forall n skipblanks fuel fp,
  2 <= n ->
  (List.length fp < fuel)%nat ->
  exists r, get_buff_loop fuel n fp skipblanks = Some r /\
    match r with
    | None => True
    | Some (buf, fp') =>
        ~ In NUL buf /\
        (forall b c, buf = b ++ [c] -> c <> LF /\ c <> CR) /\
        first_is buf "#"%char = false /\
        (skipblanks = true -> buf <> []) /\
        Z.of_nat (List.length buf) <= n - 1 /\
        exists k, (0 < k)%nat /\ fp' = skipn k fp
    end.
Proof.
  intros n skipblanks. induction fuel as [|fuel IH]; intros fp Hn Hfuel;
    [lia|].
  cbn [get_buff_loop].
  destruct (fgets n fp) as [[chunk fp']|] eqn:Hgets;
    [|exists None; split; [reflexivity | exact I]].
  destruct (fgets_progress _ Hn Hgets) as (-> & Hpos & Hroom).
  destruct (c_str_spec chunk) as (Hnul & Hlen).
  destruct (@strip_eol_spec (List.length (c_str chunk)) (c_str chunk)
              (le_n _)) as (k & Hk & -> & Hlast).
  assert (Hskip : forall m, skipn m fp' = skipn (List.length chunk + m)
                                            (chunk ++ fp')).
  { intros m. rewrite skipn_app.
    rewrite (@skipn_all2 _ (List.length chunk + m) chunk) by lia. cbn [app].
    replace (List.length chunk + m - List.length chunk)%nat with m by lia.
    reflexivity. }
  destruct (first_is (firstn k (c_str chunk)) "#"%char) eqn:Hhash;
    cbn [orb].
  - rewrite length_app in Hfuel.
    destruct (IH fp' Hn ltac:(lia)) as ([[buf fp'']|] & -> & Hr).
    + eexists. split; [reflexivity|].
      destruct Hr as (H1 & H2 & H3 & H4 & H5 & m & Hm & ->).
      repeat (split; [assumption|]).
      exists (List.length chunk + m)%nat. split; [lia | apply Hskip].
    + exists None. split; [reflexivity | exact I].
  - destruct (skipblanks && first_is (firstn k (c_str chunk)) NUL)
      eqn:Hblank.
    + rewrite length_app in Hfuel.
      destruct (IH fp' Hn ltac:(lia)) as ([[buf fp'']|] & -> & Hr).
      * eexists. split; [reflexivity|].
        destruct Hr as (H1 & H2 & H3 & H4 & H5 & m & Hm & ->).
        repeat (split; [assumption|]).
        exists (List.length chunk + m)%nat. split; [lia | apply Hskip].
      * exists None. split; [reflexivity | exact I].
    + eexists. split; [reflexivity|]. cbn beta iota.
      split.
      { intros Hin. apply Hnul.
        rewrite <- (firstn_skipn k (c_str chunk)). apply in_or_app. now left. }
      split; [exact Hlast|]. split; [exact Hhash|].
      split.
      { intros -> E. rewrite E in Hblank. discriminate. }
      split.
      { rewrite length_firstn. lia. }
      exists (List.length chunk). split; [exact Hpos|].
      rewrite <- (Nat.add_0_r (List.length chunk)), <- Hskip. reflexivity.
Qed.

(** X14.  [get_buff] with room for at least one character always
    returns: it reads on until a line is acceptable or the file ends, and
    the length of the unread file bounds the number of its iterations.  A
    string it returns holds no NUL, does not end in LF or CR, does not
    begin with [#], is not empty when blank lines are to be skipped, has
    at most [n - 1] characters, and the file has advanced by at least one
    character. *)
Theorem get_buff_spec :
  forall (n : Z) (fp : list char) (skipblanks : bool),
  2 <= n ->
  exists r, get_buff n fp skipblanks = Some r /\
    match r with
    | None => True
    | Some (buf, fp') =>
        ~ In NUL buf /\
        (forall b c, buf = b ++ [c] -> c <> LF /\ c <> CR) /\
        first_is buf "#"%char = false /\
        (skipblanks = true -> buf <> []) /\
        Z.of_nat (List.length buf) <= n - 1 /\
        exists k, (0 < k)%nat /\ fp' = skipn k fp
    end.
Proof.
  intros n fp skipblanks Hn. unfold get_buff.
  apply get_buff_loop_spec; [exact Hn | lia].
Qed.


Lemma plain_In : forall v c,
  plain v = true -> In c v -> c <> LF /\ c <> CR /\ c <> NUL.
Proof.
  intros v c Hv Hin. unfold plain in Hv. rewrite forallb_forall in Hv.
  specialize (Hv c Hin).
  destruct (char_eqb_spec c LF); [discriminate|].
  destruct (char_eqb_spec c CR); [discriminate|].
  destruct (char_eqb_spec c NUL); [discriminate|]. auto.
Qed.

Lemma plain_app : forall a b,
  plain (a ++ b) = plain a && plain b.
Proof. intros. unfold plain. apply forallb_app. Qed.

Lemma plain_firstn : forall k v, plain v = true -> plain (firstn k v) = true.
Proof.
  intros k v Hv. rewrite <- (firstn_skipn k v), plain_app in Hv.
  apply andb_true_iff in Hv. tauto.
Qed.

Lemma dec_uint_plain : forall u,
  plain (lit (DecimalString.NilEmpty.string_of_uint u)) = true.
Proof. induction u; cbn; auto. Qed.

Lemma dec_plain : forall i, plain (dec i) = true.
Proof.
  intros i. unfold dec.
  assert (Hu : forall u,
             plain (lit (DecimalString.NilZero.string_of_uint u)) = true).
  { intros u. unfold DecimalString.NilZero.string_of_uint.
    destruct u; try reflexivity; apply (dec_uint_plain (_ u)). }
  destruct (Z.to_int i); cbn [DecimalString.NilZero.string_of_int];
    [apply Hu|]. cbn [lit list_ascii_of_string]. cbn [plain forallb].
  apply andb_true_iff. split; [reflexivity | apply Hu].
Qed.

Lemma fgets_read_line : forall k line rest,
  ~ In LF line -> (List.length line < k)%nat ->
  fgets_read k (line ++ LF :: rest) = (line ++ [LF], rest).
Proof.
  induction k as [|k IH]; intros line rest Hlf Hk; [lia|].
  destruct line as [|c line]; cbn [fgets_read app].
  - reflexivity.
  - destruct (char_eqb_spec c LF) as [->|_]; [exfalso; apply Hlf; now left|].
    rewrite IH; [reflexivity | | cbn in Hk; lia].
    intros H. apply Hlf. now right.
Qed.

Lemma c_str_plain : forall buf, ~ In NUL buf -> c_str buf = buf.
Proof.
  induction buf as [|c buf IH]; intros H; cbn [c_str]; [reflexivity|].
  destruct (char_eqb_spec c NUL) as [->|_]; [exfalso; apply H; now left|].
  rewrite IH; [reflexivity|]. intros Hin. apply H. now right.
Qed.

Lemma strip_eol_line : forall line,
  plain line = true ->
  strip_eol (List.length (line ++ [LF])) (line ++ [LF]) = line.
Proof.
  intros line Hline. rewrite length_app, Nat.add_1_r. cbn [strip_eol].
  rewrite nth_error_app2, Nat.sub_diag by lia. cbn [nth_error].
  change (Ascii.eqb LF LF) with true. cbn [negb andb].
  induction line as [|x l _] using rev_ind; [reflexivity|].
  rewrite length_app, Nat.add_1_r. cbn [strip_eol].
  rewrite <- app_assoc. rewrite nth_error_app2, Nat.sub_diag by lia.
  cbn [app nth_error].
  destruct (@plain_In _ x Hline) as (Hlf & Hcr & _);
    [apply in_or_app; right; now left|].
  destruct (char_eqb_spec x LF); [contradiction|].
  destruct (char_eqb_spec x CR); [contradiction|]. cbn [negb andb].
  replace (S (List.length l)) with (List.length (l ++ [x]))
    by (rewrite length_app; cbn; lia).
  change (l ++ [x; LF]) with (l ++ [x] ++ [LF]). rewrite app_assoc.
  rewrite firstn_app, firstn_all, Nat.sub_diag. cbn. apply app_nil_r.
Qed.

Lemma get_buff_line : forall n line rest skipblanks,
  plain line = true -> line <> [] -> first_is line "#"%char = false ->
  Z.of_nat (List.length line) + 2 <= n ->
  get_buff n (line ++ LF :: rest) skipblanks = Some (Some (line, rest)).
Proof.
  intros n line rest skipblanks Hline Hne Hhash Hn. unfold get_buff.
  cbn [get_buff_loop]. unfold fgets.
  destruct (line ++ LF :: rest) as [|c0 fp0] eqn:E.
  { destruct line; discriminate. }
  rewrite <- E. clear E c0 fp0.
  rewrite fgets_read_line; [| |lia].
  2:{ intros H. destruct (@plain_In _ _ Hline H) as (Hlf & _). congruence. }
  rewrite c_str_plain.
  2:{ intros H. apply in_app_or in H. destruct H as [H|[H|[]]].
      - destruct (@plain_In _ _ Hline H) as (_ & _ & Hnul). congruence.
      - discriminate. }
  rewrite strip_eol_line by exact Hline. rewrite Hhash.
  destruct line as [|a line]; [congruence|]. cbn [first_is orb].
  destruct (@plain_In _ a Hline) as (_ & _ & Hnul); [now left|].
  destruct (char_eqb_spec a NUL); [contradiction|].
  rewrite andb_false_r. reflexivity.
Qed.

Lemma split_at_first : forall key value c,
  ~ In c key -> split_at (key ++ c :: value) c = Some (key, value).
Proof.
  induction key as [|x key IH]; intros value c Hc; cbn [split_at app].
  - destruct (char_eqb_spec c c); [reflexivity | congruence].
  - destruct (char_eqb_spec x c) as [->|_]; [exfalso; apply Hc; now left|].
    rewrite IH; [reflexivity|]. intros H. apply Hc. now right.
Qed.

Lemma fprintf_line_app : forall key value rest,
  fprintf_line key value ++ rest = (key ++ ","%char :: value) ++ LF :: rest.
Proof.
  intros. unfold fprintf_line. rewrite <- !app_assoc. reflexivity.
Qed.

Lemma build_form_lines : forall kvs fuel filePathname post,
  Forall line_ok kvs -> (List.length kvs < fuel)%nat ->
  build_form fuel
    (flat_map (fun kv => fprintf_line (fst kv) (snd kv)) kvs)
    filePathname post
  = form_of_lines kvs filePathname post.
Proof.
  induction kvs as [|[key value] kvs IH]; intros fuel f post Hok Hfuel;
    (destruct fuel as [|fuel]; [cbn in Hfuel; lia|]).
  - reflexivity.
  - inversion Hok as [|kv kvs' Hkv Hrest]; subst.
    destruct Hkv as (Hkey & Hcomma & Hhash & Hvalue & Hroom).
    cbn [fst snd] in *.
    cbn [build_form flat_map fst snd form_of_lines].
    rewrite fprintf_line_app.
    rewrite get_buff_line.
    + rewrite split_at_first by exact Hcomma.
      cbn in Hfuel.
      destruct (strcmp_eq key (lit "file")).
      * destruct (strcpy MAXPATHLEN value); [|reflexivity].
        apply IH; [exact Hrest | lia].
      * apply IH; [exact Hrest | lia].
    + rewrite plain_app, Hkey. cbn [andb]. cbn [plain forallb].
      apply andb_true_iff. split; [reflexivity | exact Hvalue].
    + destruct key; discriminate.
    + destruct key as [|x key]; [reflexivity | exact Hhash].
    + rewrite length_app. cbn [List.length]. unfold BUFSIZE in *. lia.
Qed.

Lemma flat_map_lines_length : forall kvs : list (c_string * c_string),
  (List.length kvs
   <= List.length (flat_map (fun kv => fprintf_line (fst kv) (snd kv)) kvs))%nat.
Proof.
  induction kvs as [|kv kvs IH]; cbn [flat_map List.length]; [lia|].
  unfold fprintf_line in *. rewrite !length_app. cbn [List.length]. lia.
Qed.

Lemma read_form_lines : forall kvs,
  Forall line_ok kvs ->
  read_form (flat_map (fun kv => fprintf_line (fst kv) (snd kv)) kvs)
  = form_of_lines kvs [] [].
Proof.
  intros kvs Hok. unfold read_form. apply build_form_lines; [exact Hok|].
  pose proof (flat_map_lines_length kvs). lia.
Qed.

Lemma line_ok_text : forall key value,
  plain key = true -> ~ In ","%char key -> first_is key "#"%char = false ->
  (List.length key <= 13)%nat -> text_ok value ->
  line_ok (key, value).
Proof.
  intros key value Hkey Hcomma Hhash Hlen (Hplain & Hroom).
  unfold line_ok, BUFSIZE. cbn [fst snd]. repeat split; try assumption. lia.
Qed.

Lemma text_ok_snprintf : forall n v,
  0 < n <= 12 -> plain v = true -> text_ok (snprintf [] n v).
Proof.
  intros n v Hn Hv. unfold snprintf, text_ok.
  destruct (Z.eqb_spec n 0); [lia|]. split; [apply plain_firstn, Hv|].
  rewrite length_firstn. lia.
Qed.

Lemma index_lines_ok : forall d, fields_ok d -> Forall line_ok (index_lines d).
Proof.
  intros d (Hp & Ht & Hn & Ha & Hv & Hd & Hf & H1 & H2 & H3 & Hs).
  unfold index_lines.
  repeat match goal with
         | |- Forall _ [] => constructor
         | |- Forall _ (_ :: _) => constructor
         end;
    (apply line_ok_text;
     [reflexivity | cbn; intuition discriminate | reflexivity | cbn; lia |]);
    try assumption.
  - destruct (dist_function_version d =? 5); split; try reflexivity; cbn; lia.
  - apply text_ok_snprintf; [lia | apply dec_plain].
  - apply text_ok_snprintf; [lia|].
    destruct (gCameraIsFrontFacing d); reflexivity.
  - apply text_ok_snprintf; [lia | apply dec_plain].
  - apply text_ok_snprintf; [lia | apply dec_plain].
Qed.

Lemma form_of_lines_text : forall name value rest filePathname post,
  strcmp_eq name (lit "file") = false ->
  form_of_lines ((name, value) :: rest) filePathname post
  = form_of_lines rest filePathname (post ++ [COPYCONTENTS name value]).
Proof. intros * H. cbn [form_of_lines]. rewrite H. reflexivity. Qed.

Lemma form_of_lines_file : forall value rest filePathname post,
  form_of_lines ((lit "file", value) :: rest) filePathname post
  = match strcpy MAXPATHLEN value with
    | Some f => form_of_lines rest f (post ++ [FILE (lit "file") value])
    | None => FormOverrun post
    end.
Proof. reflexivity. Qed.

(** X15.  The index file [saveParam] writes is read back whole by the
    form-building loop of [fileUploader].  When the texts that come from
    outside hold no LF, CR or NUL and at most 1000 characters, and the
    path of the parameter file is shorter than the 128 characters of
    [filePathname], the loop ends at the end of the file having added one
    part per line, in the order written (commas inside a value are kept):
    the [file] line as a file part, every other line as a copied text; and
    [filePathname] holds the path of the parameter file, which is then
    removed after the upload. *)
Theorem index_file_round_trip : forall d : IndexFields,
  fields_ok d ->
  Z.of_nat (List.length (paramPathname d)) < MAXPATHLEN ->
  read_form (index_file d)
  = FormRead (paramPathname d) (map form_part (index_lines d)).
Proof.
  intros d Hok Hpath. unfold index_file.
  rewrite read_form_lines by (apply index_lines_ok; exact Hok).
  unfold index_lines.
  rewrite form_of_lines_text by reflexivity.
  rewrite form_of_lines_file. unfold strcpy.
  destruct (Z.ltb_spec (Z.of_nat (List.length (paramPathname d))) MAXPATHLEN);
    [|lia].
  do 14 (rewrite form_of_lines_text by reflexivity).
  reflexivity.
Qed.

(** X16.  [saveParam] builds the path of the parameter file in a buffer
    of [MAXPATHLEN] characters of the platform; [fileUploader] copies it
    with [strcpy] into a buffer of 128.  With a path of 128 characters or
    more the copy writes past the end of [filePathname]: the loop has then
    added the version and nothing else. *)
Theorem long_pathname_overruns_filePathname : forall d : IndexFields,
  fields_ok d ->
  MAXPATHLEN <= Z.of_nat (List.length (paramPathname d)) ->
  read_form (index_file d)
  = FormOverrun
      [COPYCONTENTS (lit "version")
         (dec (if dist_function_version d =? 5 then 2 else 1))].
Proof.
  intros d Hok Hpath. unfold index_file.
  rewrite read_form_lines by (apply index_lines_ok; exact Hok).
  unfold index_lines.
  rewrite form_of_lines_text by reflexivity.
  rewrite form_of_lines_file. unfold strcpy.
  destruct (Z.ltb_spec (Z.of_nat (List.length (paramPathname d))) MAXPATHLEN);
    [lia|].
  reflexivity.
Qed.

End IndexFile.

(** ** Preferences and saved files *)

Section AppProperties.
Import Ascii String Upload App.

Lemma strcmp_eq_true : forall a b, strcmp_eq a b = true <-> a = b.
Proof.
  induction a as [|x a IH]; intros [|y b]; cbn [strcmp_eq];
    try (split; [discriminate | discriminate]); [tauto|].
  rewrite andb_true_iff, IH. destruct (Ascii.eqb_spec x y) as [->|Hne].
  - split; [intros (_ & ->); reflexivity | intros [= ->]; auto].
  - split; [intros (H & _); discriminate | intros [= -> _]; congruence].
Qed.

Lemma same_string_held : forall held fresh,
  (if same_string held fresh then held else fresh) = fresh.
Proof.
  intros [h|] [f|]; cbn [same_string]; try reflexivity.
  destruct (strcmp_eq h f) eqn:E; [|reflexivity].
  apply strcmp_eq_true in E. congruence.
Qed.

Lemma same_string_refl : forall s, same_string s s = true <-> s <> None.
Proof.
  intros [s|]; cbn [same_string].
  - split; [discriminate|]. intros _. apply strcmp_eq_true. reflexivity.
  - split; [discriminate | congruence].
Qed.

Lemma patternType_eqb_true : forall a b, patternType_eqb a b = true <-> a = b.
Proof. intros [] []; cbn; split; congruence. Qed.

Lemma Size_neb_false : forall a b, Size_neb a b = false <-> a = b.
Proof.
  intros [wa ha] [wb hb]. unfold Size_neb. cbn [width height].
  destruct (Z.eqb_spec wa wb); destruct (Z.eqb_spec ha hb); cbn;
    split; congruence.
Qed.

Lemma SFeqb_refl : forall f, SFeqb f f = true <-> f <> S754_nan.
Proof.
  intros [s|s| |s m e]; unfold SFeqb; cbn [SFcompare].
  - split; [discriminate | reflexivity].
  - destruct s; split; try discriminate; reflexivity.
  - split; [discriminate | congruence].
  - rewrite Z.compare_refl, Pos.compare_cont_refl.
    destruct s; split; try discriminate; reflexivity.
Qed.

Lemma SFeqb_true_not_nan : forall a b, SFeqb a b = true -> a <> S754_nan.
Proof. intros a b H ->. discriminate. Qed.

Ltac app_fields :=
  cbn [gCalibrationSave gCalibrationSaveDir gCalibrationServerUploadURL
       gCalibrationServerAuthenticationToken gPreferenceCameraResolutionToken
       gPreferenceCameraOpenToken gCalibrationPatternType
       gCalibrationPatternSize gCalibrationPatternSpacing
       getPreferenceCalibrationSave getPreferenceCalibSaveDir
       getPreferenceCalibrationServerUploadURL
       getPreferenceCalibrationServerAuthenticationToken
       getPreferenceCameraResolutionToken getPreferenceCameraOpenToken
       getPreferencesCalibrationPatternType
       getPreferencesCalibrationPatternSize
       getPreferencesCalibrationPatternSpacing fst snd].

(** After a call the string globals and the save flag hold what the
    preferences hold. *)
Lemma rereadPreferences_mirrors : forall g p,
  let g1 := fst (rereadPreferences g p) in
  gCalibrationSave g1 = getPreferenceCalibrationSave p /\
  gCalibrationSaveDir g1 = getPreferenceCalibSaveDir p /\
  gCalibrationServerUploadURL g1 = getPreferenceCalibrationServerUploadURL p /\
  gCalibrationServerAuthenticationToken g1
    = getPreferenceCalibrationServerAuthenticationToken p /\
  gPreferenceCameraResolutionToken g1 = getPreferenceCameraResolutionToken p /\
  gPreferenceCameraOpenToken g1 = getPreferenceCameraOpenToken p.
Proof.
  intros g p. unfold rereadPreferences. app_fields.
  rewrite !same_string_held. repeat split.
Qed.

(** After a call the pattern globals differ from the preferences only
    where no float equals the spacing: when it is a NaN. *)
Lemma rereadPreferences_pattern : forall g p,
  let g1 := fst (rereadPreferences g p) in
  (pattern_differs g1 p = true <->
   getPreferencesCalibrationPatternSpacing p = S754_nan) /\
  (pattern_differs g1 p = true ->
   gCalibrationPatternType g1 = getPreferencesCalibrationPatternType p /\
   gCalibrationPatternSize g1 = getPreferencesCalibrationPatternSize p /\
   gCalibrationPatternSpacing g1 = getPreferencesCalibrationPatternSpacing p).
Proof.
  intros g p. unfold rereadPreferences. app_fields.
  destruct (pattern_differs g p) eqn:Hd; unfold pattern_differs in *;
    app_fields.
  - replace (patternType_eqb (getPreferencesCalibrationPatternType p)
               (getPreferencesCalibrationPatternType p)) with true
      by (symmetry; apply patternType_eqb_true; reflexivity).
    replace (Size_neb (getPreferencesCalibrationPatternSize p)
               (getPreferencesCalibrationPatternSize p)) with false
      by (symmetry; apply Size_neb_false; reflexivity).
    cbn [negb orb]. split; [|auto].
    rewrite negb_true_iff.
    pose proof (SFeqb_refl (getPreferencesCalibrationPatternSpacing p)) as R.
    destruct (getPreferencesCalibrationPatternSpacing p) as [s|s| |s m e];
      try (split; [intros E; destruct R as (_ & R); rewrite R in E;
                   discriminate | discriminate]).
    split; reflexivity.
  - rewrite Hd. split; [|discriminate]. split; [discriminate|].
    intros E. rewrite E in Hd. rewrite orb_false_iff in Hd.
    destruct Hd as (_ & Hd). discriminate.
Qed.

Lemma rereadPreferences_calls : forall g p,
  (In Call_stopVideo (snd (rereadPreferences g p)) <->
   same_string (gPreferenceCameraResolutionToken g)
     (getPreferenceCameraResolutionToken p) = false \/
   same_string (gPreferenceCameraOpenToken g)
     (getPreferenceCameraOpenToken p) = false \/
   pattern_differs g p = true) /\
  (In Call_fileUploaderFinal (snd (rereadPreferences g p)) <->
   same_string (gCalibrationServerUploadURL g)
     (getPreferenceCalibrationServerUploadURL p) = false).
Proof.
  intros g p. unfold rereadPreferences. app_fields.
  destruct (same_string (gCalibrationServerUploadURL g) _);
    destruct (same_string (gPreferenceCameraResolutionToken g) _);
    destruct (same_string (gPreferenceCameraOpenToken g) _);
    destruct (pattern_differs g p);
    destruct (getPreferenceCalibrationServerUploadURL p);
    cbn; intuition (try discriminate; try congruence).
Qed.

(** X19.  After [rereadPreferences] the save flag and the five string
    globals hold what the preferences hold.  Reading the same preferences
    once more leaves every global as it is, but is not always idle: the
    video is stopped and started again (and the calibration in progress
    with it) exactly when the resolution token or the open token of the
    camera is not set, or the pattern spacing is a NaN; and the uploader is
    shut down exactly when no upload URL is set. *)
Theorem rereadPreferences_settles : forall (g : AppGlobals) (p : Preferences),
  let g1 := fst (rereadPreferences g p) in
  let calls2 := snd (rereadPreferences g1 p) in
  (gCalibrationSave g1 = getPreferenceCalibrationSave p /\
   gCalibrationSaveDir g1 = getPreferenceCalibSaveDir p /\
   gCalibrationServerUploadURL g1 = getPreferenceCalibrationServerUploadURL p /\
   gCalibrationServerAuthenticationToken g1
     = getPreferenceCalibrationServerAuthenticationToken p /\
   gPreferenceCameraResolutionToken g1 = getPreferenceCameraResolutionToken p /\
   gPreferenceCameraOpenToken g1 = getPreferenceCameraOpenToken p) /\
  fst (rereadPreferences g1 p) = g1 /\
  (In Call_stopVideo calls2 <->
   getPreferenceCameraResolutionToken p = None \/
   getPreferenceCameraOpenToken p = None \/
   getPreferencesCalibrationPatternSpacing p = S754_nan) /\
  (In Call_fileUploaderFinal calls2 <->
   getPreferenceCalibrationServerUploadURL p = None).
Proof.
  intros g p g1 calls2.
  pose proof (rereadPreferences_mirrors g p) as Hm.
  pose proof (rereadPreferences_pattern g p) as (Hnan & Hpat).
  pose proof (rereadPreferences_calls g1 p) as (Hstop & Hfinal).
  fold g1 in Hm, Hnan, Hpat. fold calls2 in Hstop, Hfinal.
  destruct Hm as (Hs & Hdir & Hurl & Htok & Hres & Hopen).
  split; [repeat split; assumption|]. split; [|split].
  - unfold rereadPreferences. rewrite Hdir, Hurl, Htok, Hres, Hopen.
    rewrite !same_string_held. rewrite <- Hs, <- Hdir, <- Hurl, <- Htok,
      <- Hres, <- Hopen.
    destruct (pattern_differs g1 p).
    + destruct (Hpat eq_refl) as (<- & <- & <-). destruct g1; reflexivity.
    + destruct g1; reflexivity.
  - rewrite Hstop, Hres, Hopen, Hnan.
    pose proof (same_string_refl (getPreferenceCameraResolutionToken p)) as R1.
    pose proof (same_string_refl (getPreferenceCameraOpenToken p)) as R2.
    destruct (same_string (getPreferenceCameraResolutionToken p) _);
      destruct (same_string (getPreferenceCameraOpenToken p) _);
      destruct (getPreferenceCameraResolutionToken p);
      destruct (getPreferenceCameraOpenToken p);
      intuition (try discriminate; try congruence).
  - rewrite Hfinal, Hurl.
    pose proof (same_string_refl (getPreferenceCalibrationServerUploadURL p))
      as R.
    destruct (same_string _ _);
      destruct (getPreferenceCalibrationServerUploadURL p);
      intuition (try discriminate; try congruence).
Qed.


(** X17.  The number [saveParam] puts in front of its file names is made
    of the hour, minute and second only.  For times as [gmtime] returns
    them it lies between 0 and 235960, and two times get the same number
    exactly when they agree in hour, minute and second: whatever their
    dates, the parameter file and the index file then get the same path,
    so a calibration saved at the same time of day as one still queued
    replaces its files. *)
Theorem saveParam_names_repeat_daily : forall (a b : tm),
  tm_ok a -> tm_ok b ->
  0 <= saveParam_ID a <= 235960 /\
  (saveParam_ID a = saveParam_ID b <->
   tm_hour a = tm_hour b /\ tm_min a = tm_min b /\ tm_sec a = tm_sec b) /\
  (tm_hour a = tm_hour b -> tm_min a = tm_min b -> tm_sec a = tm_sec b ->
   forall (pathname_len : Z) (resources : c_string),
     saveParam_paramPathname pathname_len resources a
     = saveParam_paramPathname pathname_len resources b /\
     saveParam_indexPathname pathname_len resources a
     = saveParam_indexPathname pathname_len resources b).
Proof.
  intros [ya oa da ha ma sa] [yb ob db hb mb sb].
  unfold tm_ok, saveParam_paramPathname, saveParam_indexPathname, saveParam_ID.
  cbn [tm_hour tm_min tm_sec]. intros Ha Hb.
  split; [lia|]. split; [split; [lia | intros (-> & -> & ->); reflexivity]|].
  intros -> -> -> n res. split; reflexivity.
Qed.

Section SavePathname.
Variable SAVEPARAM_PATHNAME_LEN : Z.
Hypothesis pathname_len : 1 <= SAVEPARAM_PATHNAME_LEN.

Lemma snprintf_length : forall n s,
  0 < n -> Z.of_nat (List.length (snprintf [] n s)) < n.
Proof.
  intros n s Hn. unfold snprintf. destruct (Z.eqb_spec n 0); [lia|].
  rewrite length_firstn. lia.
Qed.

Lemma snprintf_whole : forall n s,
  Z.of_nat (List.length s) < n -> snprintf [] n s = s.
Proof.
  intros n s Hn. unfold snprintf. destruct (Z.eqb_spec n 0); [lia|].
  apply firstn_all2. lia.
Qed.

Lemma snprintf_at_end_length : forall buf s,
  Z.of_nat (List.length buf) < SAVEPARAM_PATHNAME_LEN ->
  Z.of_nat (List.length (snprintf_at_end SAVEPARAM_PATHNAME_LEN buf s))
  < SAVEPARAM_PATHNAME_LEN.
Proof.
  intros buf s Hbuf. unfold snprintf_at_end. rewrite length_app.
  pose proof (@snprintf_length
                (SAVEPARAM_PATHNAME_LEN - Z.of_nat (List.length buf)) s).
  lia.
Qed.

Lemma snprintf_at_end_whole : forall buf s,
  Z.of_nat (List.length (buf ++ s)) < SAVEPARAM_PATHNAME_LEN ->
  snprintf_at_end SAVEPARAM_PATHNAME_LEN buf s = buf ++ s.
Proof.
  intros buf s H. unfold snprintf_at_end. rewrite length_app in H.
  rewrite snprintf_whole; [reflexivity | lia].
Qed.

Lemma copy_identifier_length : forall identifier len i,
  len + i < SAVEPARAM_PATHNAME_LEN ->
  len + i
  + Z.of_nat (List.length
                (copy_identifier SAVEPARAM_PATHNAME_LEN len i identifier))
  < SAVEPARAM_PATHNAME_LEN.
Proof.
  induction identifier as [|c rest IH]; intros len i H;
    cbn [copy_identifier List.length]; [lia|].
  destruct (Z.ltb_spec (len + i + 2) SAVEPARAM_PATHNAME_LEN);
    cbn [List.length]; [|lia].
  specialize (IH len (i + 1) ltac:(lia)). lia.
Qed.

Lemma copy_identifier_whole : forall identifier len i,
  len + i + Z.of_nat (List.length identifier) + 1 < SAVEPARAM_PATHNAME_LEN ->
  copy_identifier SAVEPARAM_PATHNAME_LEN len i identifier
  = map no_separator identifier.
Proof.
  induction identifier as [|c rest IH]; intros len i H;
    cbn [copy_identifier map]; [reflexivity|].
  cbn [List.length] in H.
  destruct (Z.ltb_spec (len + i + 2) SAVEPARAM_PATHNAME_LEN); [|lia].
  rewrite IH; [reflexivity | lia].
Qed.

Lemma no_separator_spec : forall c,
  no_separator c <> "/"%char /\ no_separator c <> "\"%char.
Proof.
  intros c. unfold no_separator.
  destruct (Ascii.eqb_spec c "/"%char); [split; discriminate|].
  destruct (Ascii.eqb_spec c "\"%char); [split; discriminate|].
  cbn [orb]. split; assumption.
Qed.

Ltac fits :=
  repeat rewrite ?length_app, ?length_map;
  change (List.length (lit ".dat")) with 4%nat;
  change (List.length (lit "-0-")) with 3%nat;
  change (List.length (lit "x")) with 1%nat;
  lia.

(** X18.  The name under which [saveParam] keeps a copy of the
    calibration always fits its buffer, terminator included, whatever the
    lengths of the directory, the identifier and the focal length.  When
    the whole name fits, nothing is cut: it is the directory,
    [/camera_para-], the identifier with every slash and backslash replaced
    by [_], the camera index 0 and the frame size, the focal length unless
    it is [0.000], and [.dat].  The identifier is the device identifier,
    the camera name when there is none, and empty when there is neither. *)
Theorem calibrationSavePathname_spec :
  forall (gCalibrationSaveDir : c_string) (device_id name : option c_string)
         (videoWidth videoHeight : Z) (focal_length : c_string),
  let identifier :=
    match device_id with
    | Some s => s
    | None => match name with Some s => s | None => [] end
    end in
  let p := calibrationSavePathname SAVEPARAM_PATHNAME_LEN gCalibrationSaveDir
             device_id name videoWidth videoHeight focal_length in
  let full := full_name gCalibrationSaveDir identifier videoWidth videoHeight
                focal_length in
  Z.of_nat (List.length p) < SAVEPARAM_PATHNAME_LEN /\
  (Z.of_nat (List.length full) < SAVEPARAM_PATHNAME_LEN -> p = full) /\
  (forall c, In c (map no_separator identifier) ->
             c <> "/"%char /\ c <> "\"%char).
Proof.
  intros dir device_id name w h focal identifier p full.
  split; [|split].
  - subst p. unfold calibrationSavePathname. fold identifier.
    repeat match goal with
           | |- context [if ?b then _ else _] => destruct b
           | |- _ => apply snprintf_at_end_length
           end;
      rewrite length_app;
      pose proof (@snprintf_length SAVEPARAM_PATHNAME_LEN
                    (dir ++ lit "/camera_para-") ltac:(lia));
      pose proof (@copy_identifier_length identifier
                    (Z.of_nat (List.length
                       (snprintf [] SAVEPARAM_PATHNAME_LEN
                          (dir ++ lit "/camera_para-")))) 0 ltac:(lia));
      lia.
  - intros Hfull. subst p full. unfold calibrationSavePathname, full_name in *.
    fold identifier. fold identifier in Hfull.
    rewrite !length_app, length_map in Hfull.
    change (List.length (lit ".dat")) with 4%nat in Hfull.
    change (List.length (lit "-0-")) with 3%nat in Hfull.
    change (List.length (lit "x")) with 1%nat in Hfull.
    rewrite snprintf_whole by (rewrite length_app; lia).
    rewrite copy_identifier_whole by (rewrite length_app; lia).
    destruct (strcmp_eq focal (lit "0.000")); cbn [negb].
    + cbn [List.length] in Hfull.
      repeat match goal with
             | |- context [snprintf_at_end _ ?b ?s] =>
                 lazymatch b with
                 | context [snprintf_at_end] => fail
                 | _ => rewrite (@snprintf_at_end_whole b s) by fits
                 end
             end.
      rewrite <- !app_assoc. reflexivity.
    + rewrite length_app in Hfull.
      repeat match goal with
             | |- context [snprintf_at_end _ ?b ?s] =>
                 lazymatch b with
                 | context [snprintf_at_end] => fail
                 | _ => rewrite (@snprintf_at_end_whole b s) by fits
                 end
             end.
      rewrite <- !app_assoc. reflexivity.
  - intros c Hc. apply in_map_iff in Hc. destruct Hc as (x & <- & _).
    apply no_separator_spec.
Qed.

End SavePathname.

End AppProperties.

(** ** The upload queue and the saved files on concrete inputs *)

Section UploadSamples.
Import Ascii String Upload App Samples.

Lemma sample_time_normal : normal sample_time.
Proof. unfold normal. cbn. lia. Defined.

Lemma sample_delay_normal : normal (uploadStatusHideAfterSecs sample_handle).
Proof. unfold normal. cbn. lia. Defined.

Lemma upload_status_shown_then_hidden_witness :
  normal sample_time /\
  normal (uploadStatusHideAfterSecs sample_handle) /\
  micros (uploadStatusHideAtTime
            (fileUploader_end 128 sample_handle sample_time 1 0))
  = micros sample_time + micros (uploadStatusHideAfterSecs sample_handle).
Proof.
  split; [exact sample_time_normal|]. split; [exact sample_delay_normal|].
  assert (Hlen : 2 <= 128) by discriminate.
  assert (Hdone : 1 <> 0 \/ 0 <> 0) by (left; discriminate).
  destruct (@upload_status_shown_then_hidden 128 Hlen sample_handle
              sample_time 1 0 [] sample_time_normal sample_delay_normal
              Hdone) as (_ & Hat & _).
  exact Hat.
Defined.

Lemma idle_pass_status_vanishes_witness :
  tv_sec (uploadStatusHideAtTime sample_handle) <= tv_sec sample_time /\
  tv_usec (uploadStatusHideAtTime sample_handle) <= tv_usec sample_time /\
  fst (fst (fileUploaderStatusGet 128
              (Some (fileUploader_end 128
                       (fileUploader_begin 128 sample_handle) sample_time 0 0))
              [] sample_time 0)) = 0.
Proof.
  assert (Hlen : 2 <= 128) by discriminate.
  assert (Hsec : tv_sec (uploadStatusHideAtTime sample_handle)
                 <= tv_sec sample_time) by discriminate.
  assert (Husec : tv_usec (uploadStatusHideAtTime sample_handle)
                  <= tv_usec sample_time) by discriminate.
  split; [exact Hsec|]. split; [exact Husec|].
  destruct (@idle_pass_status_vanishes 128 Hlen sample_handle sample_time
              sample_time 0 [] Hsec Husec) as (_ & _ & _ & _ & Hhidden).
  rewrite Hhidden. reflexivity.
Defined.

Lemma sample_uploaded_shown : uploadStatus sample_uploaded <> [].
Proof. discriminate. Defined.

Lemma sample_polls_early :
  Forall (fun p => tv_usec (fst p)
                   < tv_usec (uploadStatusHideAtTime sample_uploaded))
    sample_polls.
Proof. repeat constructor. Defined.

Lemma upload_status_outlives_hide_time_witness :
  uploadStatus sample_uploaded <> [] /\
  Forall (fun p => micros (uploadStatusHideAtTime sample_uploaded)
                   < micros (fst p)) sample_polls /\
  fst (poll 128 (Some sample_uploaded) [] sample_polls)
  = ([1; 2], Some sample_uploaded).
Proof.
  split; [exact sample_uploaded_shown|]. split; [repeat constructor|].
  rewrite (@upload_status_outlives_hide_time 128 sample_uploaded []
             sample_polls sample_uploaded_shown sample_polls_early).
  reflexivity.
Defined.

Lemma get_buff_spec_witness :
  2 <= BUFSIZE /\
  exists r,
    get_buff BUFSIZE sample_stream true = Some r /\
    r = Some (lit "key,value", []).
Proof.
  split; [discriminate|].
  destruct (@get_buff_spec BUFSIZE sample_stream true ltac:(discriminate))
    as (r & Hr & _).
  exists r. split; [exact Hr|].
  vm_compute in Hr. injection Hr as <-. reflexivity.
Defined.

Lemma sample_fields_ok : forall paramPathname,
  text_ok paramPathname -> fields_ok (sample_fields paramPathname).
Proof.
  intros paramPathname Hp. unfold fields_ok, sample_fields, text_ok.
  cbn [Upload.paramPathname timestamp os_name os_arch os_version device_id
       focal_length err_min_ascii err_avg_ascii err_max_ascii ss_ascii].
  split; [exact Hp|].
  repeat split; try reflexivity; discriminate.
Defined.

Lemma sample_index_ok : fields_ok sample_index.
Proof.
  apply sample_fields_ok. split; [reflexivity | discriminate].
Defined.

Lemma sample_long_index_ok : fields_ok sample_long_index.
Proof.
  apply sample_fields_ok. split; [reflexivity | discriminate].
Defined.

Lemma index_file_round_trip_witness :
  fields_ok sample_index /\
  Z.of_nat (List.length (paramPathname sample_index)) < MAXPATHLEN /\
  read_form (index_file sample_index)
  = FormRead (lit "/tmp/queue/120000-camera_para.dat")
      (map form_part (index_lines sample_index)).
Proof.
  split; [exact sample_index_ok|]. split; [reflexivity|].
  exact (@index_file_round_trip sample_index sample_index_ok eq_refl).
Defined.

Lemma long_pathname_overruns_filePathname_witness :
  fields_ok sample_long_index /\
  MAXPATHLEN <= Z.of_nat (List.length (paramPathname sample_long_index)) /\
  read_form (index_file sample_long_index)
  = FormOverrun [COPYCONTENTS (lit "version") (lit "1")].
Proof.
  split; [exact sample_long_index_ok|]. split; [discriminate|].
  exact (@long_pathname_overruns_filePathname sample_long_index
           sample_long_index_ok ltac:(discriminate)).
Defined.

Lemma sample_noon_ok : tm_ok sample_noon.
Proof. unfold tm_ok. cbn. lia. Defined.

Lemma sample_next_noon_ok : tm_ok sample_next_noon.
Proof. unfold tm_ok. cbn. lia. Defined.

Lemma saveParam_names_repeat_daily_witness :
  tm_ok sample_noon /\ tm_ok sample_next_noon /\
  sample_noon <> sample_next_noon /\
  saveParam_paramPathname 260 (lit "/tmp") sample_noon
  = saveParam_paramPathname 260 (lit "/tmp") sample_next_noon.
Proof.
  split; [exact sample_noon_ok|]. split; [exact sample_next_noon_ok|].
  split; [discriminate|].
  destruct (@saveParam_names_repeat_daily sample_noon sample_next_noon
              sample_noon_ok sample_next_noon_ok) as (_ & _ & Hsame).
  exact (proj1 (Hsame eq_refl eq_refl eq_refl 260 (lit "/tmp"))).
Defined.

Lemma calibrationSavePathname_spec_witness :
  1 <= 64 /\
  calibrationSavePathname 64 (lit "/tmp") (Some (lit "leap/0")) None 640 480
    (lit "0.000")
  = lit "/tmp/camera_para-leap_0-0-640x480.dat".
Proof.
  split; [discriminate|].
  pose proof (@calibrationSavePathname_spec 64 ltac:(discriminate)
                (lit "/tmp") (Some (lit "leap/0")) None 640 480
                (lit "0.000")) as H.
  cbv zeta in H. destruct H as (_ & Hwhole & _).
  rewrite Hwhole; reflexivity.
Defined.

End UploadSamples.
